(** * Autotown: rollup merge, reliable ingest, batch redrive, identity migration

  A shallow embedding of the handlers of [admin.go] and [web.go]:
  - [olderTime], [canonicalBoard], [asyncRollup] (the rollup merge),
  - [handleUpdateControllers] (the batch dispatcher),
  - [handleRewriteUUIDs] (the identity migration),
  - [handleStoreTune] and [handleAsyncStoreTune] (the reliable ingest),
  - [handleAsyncRollup] (the rollup lane), [abbrevOS],
  - [handleRecentTunes] (the listing with pseudonyms),
  - [columnize] and [fetchVals] (the export columns),
  - [handleStoreCrash] (the crash lane).

  Instants of [time.Time] are integers (nanoseconds since the zero
  [time.Time], January 1 of year 1, UTC); Go maps are [gmap]s; the
  datastore, the task queue and their failures are explicit state. *)

From Stdlib Require Import ZArith Lia Ascii String List.
From Stdlib Require Import Floats.PrimFloat.
From Stdlib Require Import DecimalString DecimalZ DecimalPos.
From stdpp Require Import gmap strings list fin_maps.

Local Open Scope Z_scope.

(** ** Instants *)

Module GoTime.

(** An instant, as nanoseconds since the zero value of [time.Time]. *)
Abbreviation Time := Z.

(** The zero value [time.Time{}]. *)
Definition zeroTime : Time := 0.

(** [t.Before(u)] and [t.After(u)]: strict comparison of instants. *)
Definition Before (t u : Time) : bool := t <? u.
Definition After (t u : Time) : bool := u <? t.

(** Days from January 1 of year 1 to January 1 of year [y] in the
    proleptic Gregorian calendar. *)
Definition daysBeforeYear (y : Z) : Z :=
  365 * (y - 1) + (y - 1) / 4 - (y - 1) / 100 + (y - 1) / 400.

Definition nsPerDay : Z := 86400 * 1000000000.

(** [time.Date(y, time.January, 1, 0, 0, 0, 0, time.UTC)]. *)
Definition DateJan1UTC (y : Z) : Time := daysBeforeYear y * nsPerDay.

End GoTime.
Import GoTime.

(** [var oldest = time.Date(1000, time.January, 1, 0, 0, 0, 0, time.UTC)] *)
Definition oldest : Z := DateJan1UTC 1000.

(** [func olderTime(a, b time.Time) time.Time] *)
Definition olderTime (a b : Z) : Z :=
  if Before a oldest then b
  else if Before b oldest then a
  else if Before a b then a
  else b.

(** ** SHA-256 and the [%x] rendering of a digest

  [crypto/sha256] is modelled by the FIPS 180-4 function over bytes; the
  round constants and the initial state are derived from the primes as
  the standard defines them. *)

Module Sha256.

Definition w32 (z : Z) : Z := z mod 2 ^ 32.

Definition rotr (n x : Z) : Z :=
  Z.lor (Z.shiftr x n) (w32 (Z.shiftl x (32 - n))).

Definition Ch (x y z : Z) : Z :=
  Z.lxor (Z.land x y) (Z.land (Z.lxor x (2 ^ 32 - 1)) z).
Definition Maj (x y z : Z) : Z :=
  Z.lxor (Z.lxor (Z.land x y) (Z.land x z)) (Z.land y z).
Definition bsig0 (x : Z) : Z := Z.lxor (Z.lxor (rotr 2 x) (rotr 13 x)) (rotr 22 x).
Definition bsig1 (x : Z) : Z := Z.lxor (Z.lxor (rotr 6 x) (rotr 11 x)) (rotr 25 x).
Definition ssig0 (x : Z) : Z := Z.lxor (Z.lxor (rotr 7 x) (rotr 18 x)) (Z.shiftr x 3).
Definition ssig1 (x : Z) : Z := Z.lxor (Z.lxor (rotr 17 x) (rotr 19 x)) (Z.shiftr x 10).

(** Integer [deg]-th root of [n] below [2 ^ k], bit by bit. *)
Fixpoint iroot (k : nat) (deg n r : Z) : Z :=
  match k with
  | O => r
  | S k' =>
      let c := r + 2 ^ Z.of_nat k' in
      iroot k' deg n (if c ^ deg <=? n then c else r)
  end.

Definition isPrime (p : Z) : bool :=
  (2 <=? p) && forallb (fun d => negb (p mod d =? 0))
                       (map Z.of_nat (seq 2 (Z.to_nat p - 2))).

Definition primes64 : list Z :=
  Eval vm_compute in filter (fun p => isPrime p) (map Z.of_nat (seq 2 310)).

(** First 32 bits of the fractional part of the [deg]-th root of [p]. *)
Definition fracRoot (deg p : Z) : Z :=
  w32 (iroot 40 deg (p * 2 ^ (32 * deg)) 0).

Definition K : list Z := Eval vm_compute in map (fracRoot 3) primes64.
Definition H0 : list Z := Eval vm_compute in map (fracRoot 2) (firstn 8 primes64).

(** Big-endian bytes of a word. *)
Definition be32 (x : Z) : list Z :=
  [Z.shiftr x 24 mod 256; Z.shiftr x 16 mod 256; Z.shiftr x 8 mod 256; x mod 256].
Definition be64 (x : Z) : list Z := be32 (Z.shiftr x 32) ++ be32 (x mod 2 ^ 32).

Definition pad (msg : list Z) : list Z :=
  let L := Z.of_nat (length msg) in
  msg ++ [128] ++ repeat 0 (Z.to_nat ((55 - L) mod 64)) ++ be64 (8 * L).

Fixpoint words (fuel : nat) (bs : list Z) : list Z :=
  match fuel, bs with
  | S f, b0 :: b1 :: b2 :: b3 :: rest =>
      (((b0 * 256 + b1) * 256 + b2) * 256 + b3) :: words f rest
  | _, _ => []
  end.

(** Message schedule, most recent word first. *)
Fixpoint schedule (k : nat) (ws : list Z) : list Z :=
  match k with
  | O => ws
  | S k' =>
      schedule k'
        (w32 (ssig1 (nth 1 ws 0) + nth 6 ws 0 + ssig0 (nth 14 ws 0) + nth 15 ws 0)
           :: ws)
  end.

Record state := St { sa : Z; sb : Z; sc : Z; sd : Z; se : Z; sf : Z; sg : Z; sh : Z }.

Definition round (s : state) (kw : Z * Z) : state :=
  let t1 := sh s + bsig1 (se s) + Ch (se s) (sf s) (sg s) + fst kw + snd kw in
  let t2 := bsig0 (sa s) + Maj (sa s) (sb s) (sc s) in
  St (w32 (t1 + t2)) (sa s) (sb s) (sc s) (w32 (sd s + t1)) (se s) (sf s) (sg s).

Definition addState (s t : state) : state :=
  St (w32 (sa s + sa t)) (w32 (sb s + sb t)) (w32 (sc s + sc t)) (w32 (sd s + sd t))
     (w32 (se s + se t)) (w32 (sf s + sf t)) (w32 (sg s + sg t)) (w32 (sh s + sh t)).

Definition block (s : state) (ws16 : list Z) : state :=
  let W := rev (schedule 48 (rev ws16)) in
  addState s (fold_left round (combine K W) s).

Fixpoint blocks (fuel : nat) (s : state) (ws : list Z) : state :=
  match fuel, ws with
  | S f, _ :: _ => blocks f (block s (firstn 16 ws)) (skipn 16 ws)
  | _, _ => s
  end.

Definition init : state :=
  St (nth 0 H0 0) (nth 1 H0 0) (nth 2 H0 0) (nth 3 H0 0)
     (nth 4 H0 0) (nth 5 H0 0) (nth 6 H0 0) (nth 7 H0 0).

Definition digest (s : state) : list Z :=
  be32 (sa s) ++ be32 (sb s) ++ be32 (sc s) ++ be32 (sd s) ++
  be32 (se s) ++ be32 (sf s) ++ be32 (sg s) ++ be32 (sh s).

(** [sha256.Sum256(msg)]: the 32 bytes of the digest. *)
Definition Sum256 (msg : list Z) : list Z :=
  let p := pad msg in
  let ws := words (length p) p in
  digest (blocks (length ws) init ws).

End Sha256.

(** [[]byte(s)]: the bytes of a Go string. *)
Definition bytesOf (s : string) : list Z :=
  map (fun c => Z.of_N (N_of_ascii c)) (list_ascii_of_string s).

Definition hexDigit (d : Z) : ascii :=
  ascii_of_N (Z.to_N (if d <? 10 then 48 + d else 87 + d)).

(** [fmt.Sprintf("%x", bs)] for a byte array: two lowercase digits a byte. *)
Fixpoint hexOf (bs : list Z) : string :=
  match bs with
  | [] => EmptyString
  | b :: rest => String (hexDigit (b / 16)) (String (hexDigit (b mod 16)) (hexOf rest))
  end.

(** [fmt.Sprintf("%x", sha256.Sum256([]byte(s)))] *)
Definition sha256hex (s : string) : string := hexOf (Sha256.Sum256 (bytesOf s)).




(** ** Data model *)

(** [type usageSeenBoard struct] *)
Record usageSeenBoard := mkBoard {
  b_ID : Z;
  b_CPU : string;
  b_UUID : string;
  b_FwHash : string;
  b_GitHash : string;
  b_GitTag : string;
  b_Name : string;
  b_UavoHash : string
}.

(** The aggregate record [FoundController], with the fields the handlers
    of [admin.go] read and write. *)
Record FoundController := mkFC {
  fc_UUID : string;
  fc_HardwareRev : Z;
  fc_Name : string;
  fc_GitHash : string;
  fc_GitTag : string;
  fc_UAVOHash : string;
  fc_GCSOS : string;
  fc_GCSArch : string;
  fc_GCSVersion : string;
  fc_Addr : string;
  fc_Country : string;
  fc_Region : string;
  fc_City : string;
  fc_Lat : float;
  fc_Lon : float;
  fc_Timestamp : Z;
  fc_Oldest : Z;
  fc_Count : Z;
  fc_Counted : bool
}.

(** The zero value [FoundController{}]. *)
Definition zeroFC : FoundController :=
  mkFC "" 0 "" "" "" "" "" "" "" "" "" "" "" 0%float 0%float zeroTime zeroTime 0 false.

(** [asyncUsageData]: the queue payload of the rollup lane. [d_RawData]
    is the message the pointer [RawData] points to; the payload whose
    [RawData] is nil is told apart where it is decoded, in
    [handleAsyncRollup]. *)
Record asyncUsageData := mkAsync {
  d_IP : string;
  d_Country : string;
  d_Region : string;
  d_City : string;
  d_Lat : float;
  d_Lon : float;
  d_Timestamp : Z;
  d_RawData : string
}.

(** The anonymous struct [rec] that [asyncRollup] decodes [RawData] into. *)
Record usageRec := mkRec {
  rec_BoardsSeen : list usageSeenBoard;
  rec_CurrentArch : string;
  rec_CurrentOS : string;
  rec_GCSVersion : string;
  rec_ShareIP : string
}.

(** A Go [int] on the 64-bit platform: [x + 1] wraps around. *)
Definition wrapInt (z : Z) : Z := (z + 2 ^ 63) mod 2 ^ 64 - 2 ^ 63.

(** [func canonicalBoard(b string) string] *)
Definition canonicalBoard (b : string) : string :=
  if decide (b = "CopterControl") then "CC3D"
  else if decide (b = "Revolution") then "Revo"
  else if decide (b = "RevoMini") then "Revo"
  else b.

(** [b.Name = n] on a copy of the sighting. *)
Definition withName (b : usageSeenBoard) (n : string) : usageSeenBoard :=
  mkBoard (b_ID b) (b_CPU b) (b_UUID b) (b_FwHash b) (b_GitHash b) (b_GitTag b)
          n (b_UavoHash b).

(** The identity both loops of [asyncRollup] compute for a sighting:
    [None] is the [continue] taken when UUID and CPU are both empty. *)
Definition boardUUID (b : usageSeenBoard) : option string :=
  if decide (b_UUID b = "") then
    if decide (b_CPU b = "") then None
    else Some (sha256hex (b_CPU b))
  else Some (b_UUID b).

(** ** The rollup merge: [asyncRollup] *)

Definition setOldest (fc : FoundController) (t : Z) : FoundController :=
  mkFC (fc_UUID fc) (fc_HardwareRev fc) (fc_Name fc) (fc_GitHash fc) (fc_GitTag fc)
       (fc_UAVOHash fc) (fc_GCSOS fc) (fc_GCSArch fc) (fc_GCSVersion fc) (fc_Addr fc)
       (fc_Country fc) (fc_Region fc) (fc_City fc) (fc_Lat fc) (fc_Lon fc)
       (fc_Timestamp fc) t (fc_Count fc) (fc_Counted fc).

Definition setCount (fc : FoundController) (n : Z) : FoundController :=
  mkFC (fc_UUID fc) (fc_HardwareRev fc) (fc_Name fc) (fc_GitHash fc) (fc_GitTag fc)
       (fc_UAVOHash fc) (fc_GCSOS fc) (fc_GCSArch fc) (fc_GCSVersion fc) (fc_Addr fc)
       (fc_Country fc) (fc_Region fc) (fc_City fc) (fc_Lat fc) (fc_Lon fc)
       (fc_Timestamp fc) (fc_Oldest fc) n (fc_Counted fc).

Definition setCounted (fc : FoundController) (c : bool) : FoundController :=
  mkFC (fc_UUID fc) (fc_HardwareRev fc) (fc_Name fc) (fc_GitHash fc) (fc_GitTag fc)
       (fc_UAVOHash fc) (fc_GCSOS fc) (fc_GCSArch fc) (fc_GCSVersion fc) (fc_Addr fc)
       (fc_Country fc) (fc_Region fc) (fc_City fc) (fc_Lat fc) (fc_Lon fc)
       (fc_Timestamp fc) (fc_Oldest fc) (fc_Count fc) c.

(** First loop, one sighting: [seenBoards[uuid] = b] with the canonical
    name, or [continue] when the sighting has no identity. *)
Definition seenStep (seen : gmap string usageSeenBoard) (b : usageSeenBoard)
  : gmap string usageSeenBoard :=
  match boardUUID b with
  | None => seen
  | Some uuid => <[uuid := withName b (canonicalBoard (b_Name b))]> seen
  end.

Definition seenLoop (bs : list usageSeenBoard) : gmap string usageSeenBoard :=
  foldl seenStep ∅ bs.

(** The assignments guarded by [d.Timestamp.After(fc.Timestamp)]. *)
Definition overwrite (d : asyncUsageData) (rec : usageRec) (uuid : string)
    (b : usageSeenBoard) (fc : FoundController) : FoundController :=
  mkFC uuid (Z.land (b_ID b) 255) (b_Name b) (b_GitHash b) (b_GitTag b)
       (b_UavoHash b) (rec_CurrentOS rec) (rec_CurrentArch rec) (rec_GCSVersion rec)
       (if decide (rec_ShareIP rec ≠ "true") then "" else d_IP d)
       (d_Country d) (d_Region d) (d_City d) (d_Lat d) (d_Lon d)
       (d_Timestamp d) (d_Timestamp d) (fc_Count fc) (fc_Counted fc).

(** Second loop, the body after [fc := items[uuid]]. *)
Definition itemBody (d : asyncUsageData) (rec : usageRec) (uuid : string)
    (b : usageSeenBoard) (fc : FoundController) : FoundController :=
  let fc1 :=
    if After (d_Timestamp d) (fc_Timestamp fc) then overwrite d rec uuid b fc else fc in
  let fc2 := setOldest fc1 (olderTime (d_Timestamp d) (fc_Oldest fc1)) in
  setCount fc2 (wrapInt (fc_Count fc2 + 1)).

(** Second loop, one entry of [seenBoards]. A missing key of [items]
    reads as the zero record. *)
Definition itemsStep (d : asyncUsageData) (rec : usageRec)
    (items : gmap string FoundController) (b : usageSeenBoard)
  : gmap string FoundController :=
  match boardUUID b with
  | None => items
  | Some uuid =>
      let b' := withName b (canonicalBoard (b_Name b)) in
      <[uuid := itemBody d rec uuid b' (default zeroFC (items !! uuid))]> items
  end.

(** Second loop over the entries of [seenBoards] in the order [order]. *)
Definition itemsLoop (d : asyncUsageData) (rec : usageRec)
    (order : list (string * usageSeenBoard)) : gmap string FoundController :=
  foldl (fun items kb => itemsStep d rec items kb.2) ∅ order.

(** The datastore of [FoundController] entities and the cached statistics
    snapshot ([resultsStatsKey] in memcache). *)
Record Backend := mkBackend {
  entities : gmap string FoundController;
  statsCached : bool
}.

(** Backend failures: the keys whose [datastore.Get] fails with an error
    other than [ErrNoSuchEntity], and whether the transaction fails. *)
Record Faults := mkFaults {
  getFails : string -> bool;
  putFails : bool
}.

Inductive getResult :=
| GetOk (prev : FoundController)
| ErrNoSuchEntity
| GetFailed.

Definition datastore_Get (fl : Faults) (ds : Backend) (k : string) : getResult :=
  if getFails fl k then GetFailed
  else match entities ds !! k with
       | Some prev => GetOk prev
       | None => ErrNoSuchEntity
       end.

(** Third loop, the two assignments that fold [prev] into [v]. *)
Definition mergePrev (prev v : FoundController) : FoundController :=
  setCounted
    (setOldest v (olderTime (olderTime (fc_Oldest prev) (fc_Oldest v)) (fc_Timestamp prev)))
    (fc_Counted v || fc_Counted prev).

(** Third loop: [None] is the early [return err]. On [ErrNoSuchEntity]
    [prev] stays the zero record it was allocated as; [newBoard] is only
    logged and is left out, as are the other log lines. *)
Fixpoint updatesLoop (fl : Faults) (ds : Backend)
    (order : list (string * FoundController)) : option (list (string * FoundController)) :=
  match order with
  | [] => Some []
  | (k, v) :: rest =>
      match datastore_Get fl ds k with
      | GetFailed => None
      | GetOk prev =>
          match updatesLoop fl ds rest with
          | Some ups => Some ((k, mergePrev prev v) :: ups)
          | None => None
          end
      | ErrNoSuchEntity =>
          match updatesLoop fl ds rest with
          | Some ups => Some ((k, mergePrev zeroFC v) :: ups)
          | None => None
          end
      end
  end.

(** [datastore.PutMulti(tc, keys, toUpdate)] once the transaction commits. *)
Definition PutMulti (ups : list (string * FoundController))
    (ents : gmap string FoundController) : gmap string FoundController :=
  foldl (fun m kv => <[kv.1 := kv.2]> m) ents ups.

Inductive rollupError := ErrUnmarshal | ErrGet | ErrPut.

Section Rollup.

(** [json.Unmarshal([]byte( *d.RawData), &rec)]; [None] is its error. *)
Variable json_Unmarshal : string -> option usageRec.

(** [asyncRollup] after [RawData] decoded to [rec]. Go ranges over a map
    in an unspecified order; [map_to_list] fixes one, and
    [itemsLoop_order] and [updatesLoop_order] show that the order does
    not matter. *)
Definition rollupRec (fl : Faults) (ds : Backend) (d : asyncUsageData) (rec : usageRec)
  : option rollupError * Backend :=
  let seenBoards := seenLoop (rec_BoardsSeen rec) in
  let items := itemsLoop d rec (map_to_list seenBoards) in
  match updatesLoop fl ds (map_to_list items) with
  | None => (Some ErrGet, ds)
  | Some [] => (None, ds)
  | Some toUpdate =>
      if putFails fl then (Some ErrPut, mkBackend (entities ds) false)
      else (None, mkBackend (PutMulti toUpdate (entities ds)) false)
  end.

(** [func asyncRollup(c context.Context, d *asyncUsageData) error] *)
Definition asyncRollup (fl : Faults) (ds : Backend) (d : asyncUsageData)
  : option rollupError * Backend :=
  match json_Unmarshal (d_RawData d) with
  | None => (Some ErrUnmarshal, ds)
  | Some rec => rollupRec fl ds d rec
  end.

(** A sequence of rollups, each with the failures the backend shows
    during it. *)
Definition rollupAll (ds : Backend) (reports : list (Faults * asyncUsageData)) : Backend :=
  foldl (fun s r => (asyncRollup r.1 s r.2).2) ds reports.

End Rollup.

(** ** The task queue *)

(** [taskqueue.Task] with the fields the handlers set. *)
Record Task := mkTask {
  Path : string;
  Payload : string
}.

(** The tasks enqueued so far, each with the name of its queue. *)
Abbreviation TaskQueue := (list (string * Task)).

(** ** The batch dispatcher: [handleUpdateControllers] *)

(** [UsageStat]: a stored usage report, payload compressed. *)
Record UsageStat := mkStat {
  st_Data : string;
  st_Addr : string;
  st_Country : string;
  st_Region : string;
  st_City : string;
  st_Lat : float;
  st_Lon : float;
  st_Timestamp : Z
}.

(** What [t.Next(&st)] yields before [datastore.Done]: an entity or an
    error. The end of the list is [datastore.Done]. *)
Inductive nextResult :=
| NextOk (st : UsageStat)
| NextErr.

(** State of the dispatch loop: the open batch [tasks], the batches handed
    to [grp.Go] so far, and the counter [total]. *)
Record loopState := mkLoop {
  tasks : list Task;
  launched : list (list Task);
  total : Z
}.

Inductive response :=
| Status (code : Z)
| Panicked.

(** [taskqueue.AddMulti(c, batch, queue)] for the [k]-th batch handed to
    [grp.Go]: it fails as a whole when [addFails k], and otherwise adds
    every task of the batch. The goroutines run concurrently, so the order
    of the batches within the queue is one of several: the batches are
    taken here in the order they were launched, and what is stated of
    the queue is stated by membership or up to permutation. *)
Fixpoint runBatches (addFails : nat -> bool) (queue : string) (k : nat)
    (batches : list (list Task)) (q : TaskQueue) : bool * TaskQueue :=
  match batches with
  | [] => (false, q)
  | b :: rest =>
      if addFails k then
        (true, (runBatches addFails queue (S k) rest q).2)
      else
        runBatches addFails queue (S k) rest (q ++ map (fun t => (queue, t)) b)
  end.

Section Dispatcher.

(** [st.uncompress()] on the payload, [json.Marshal(data)] and [gz(j)];
    [None] is the error of each. *)
Variable uncompress : string -> option string.
Variable json_Marshal : asyncUsageData -> option string.
Variable gz : string -> option string.

(** One record of the loop, up to the task appended to [tasks]; [None] is
    one of the three [continue]s. *)
Definition prepareTask (st : UsageStat) : option Task :=
  match uncompress (st_Data st) with
  | None => None
  | Some raw =>
      let data := mkAsync (st_Addr st) (st_Country st) (st_Region st) (st_City st)
                          (st_Lat st) (st_Lon st) (st_Timestamp st) raw in
      match json_Marshal data with
      | None => None
      | Some j =>
          match gz j with
          | None => None
          | Some g => Some (mkTask "/batch/asyncRollup" g)
          end
      end
  end.

(** The [for t := q.Run(c); ; ] loop. The flag is [true] when the loop
    left through [panic(err)]. *)
Fixpoint dispatchLoop (src : list nextResult) (s : loopState) : bool * loopState :=
  match src with
  | [] => (false, s)
  | NextErr :: _ => (true, s)
  | NextOk st :: rest =>
      match prepareTask st with
      | None => dispatchLoop rest s
      | Some t =>
          let tasks' := tasks s ++ [t] in
          if decide (length tasks' = 100%nat) then
            dispatchLoop rest (mkLoop [] (launched s ++ [tasks']) (total s + 1))
          else
            dispatchLoop rest (mkLoop tasks' (launched s) (total s + 1))
      end
  end.

(** The batches handed to [grp.Go], the final one included when [tasks]
    is not nil. *)
Definition batchesOf (s : loopState) : list (list Task) :=
  match tasks s with
  | [] => launched s
  | _ :: _ => launched s ++ [tasks s]
  end.

(** [func handleUpdateControllers(w http.ResponseWriter, r *http.Request)] *)
Definition handleUpdateControllers (addFails : nat -> bool) (q : TaskQueue)
    (src : list nextResult) : response * TaskQueue :=
  let r := dispatchLoop src (mkLoop [] [] 0) in
  if r.1 then
    (Panicked, (runBatches addFails "asyncRollup" 0 (launched r.2) q).2)
  else
    let out := runBatches addFails "asyncRollup" 0 (batchesOf r.2) q in
    (if out.1 then Status 500 else Status 204, out.2).

(** The records that survive per-record serialization, as tasks. *)
Fixpoint survivors (src : list nextResult) : list Task :=
  match src with
  | [] => []
  | NextErr :: _ => []
  | NextOk st :: rest =>
      match prepareTask st with
      | None => survivors rest
      | Some t => t :: survivors rest
      end
  end.

End Dispatcher.

(** The spec's batching: consecutive batches of [n], the remainder last. *)
Fixpoint chunks (fuel : nat) (n : nat) (l : list Task) : list (list Task) :=
  match fuel, l with
  | S f, _ :: _ => firstn n l :: chunks f n (skipn n l)
  | _, _ => []
  end.

(** No [NextErr] in the source: the iteration ends with [datastore.Done]. *)
Fixpoint noIterErr (src : list nextResult) : bool :=
  match src with
  | [] => true
  | NextErr :: _ => false
  | NextOk _ :: rest => noIterErr rest
  end.

(** ** Tune records *)

(** [TuneResults]: a stored tune submission, payload compressed. [tr_Key]
    is the encoded datastore key [fillKeyQuery] sets on a fetched record;
    it is empty on a record that was not fetched. *)
Record TuneResults := mkTune {
  tr_Key : string;
  tr_Data : string;
  tr_Timestamp : Z;
  tr_Addr : string;
  tr_Country : string;
  tr_Region : string;
  tr_City : string;
  tr_UUID : string;
  tr_Board : string;
  tr_Tau : float;
  tr_Lat : float;
  tr_Lon : float
}.

Definition withData (x : TuneResults) (data : string) : TuneResults :=
  mkTune (tr_Key x) data (tr_Timestamp x) (tr_Addr x) (tr_Country x) (tr_Region x)
         (tr_City x) (tr_UUID x) (tr_Board x) (tr_Tau x) (tr_Lat x) (tr_Lon x).

Definition withUUID (x : TuneResults) (uuid : string) : TuneResults :=
  mkTune (tr_Key x) (tr_Data x) (tr_Timestamp x) (tr_Addr x) (tr_Country x) (tr_Region x)
         (tr_City x) uuid (tr_Board x) (tr_Tau x) (tr_Lat x) (tr_Lon x).

#[local] Unset Elimination Schemes.

(** A decoded JSON value; numbers keep their literal ([d.UseNumber()]). *)
Inductive json :=
| JNull
| JBool (b : bool)
| JNumber (lit : string)
| JString (s : string)
| JArray (items : list json)
| JObject (fields : list (string * json)).

#[local] Set Elimination Schemes.

(** ** The identity migration: [handleRewriteUUIDs] *)

Section Migration.

(** [x.uncompress()] and [x.compress()] on the payload, the decoding of
    the document into [map[string]interface{}] and [json.Marshal(m)];
    [None] is the error of each. *)
Variable uncompress : string -> option string.
Variable compress : string -> option string.
Variable json_Decode : string -> option (gmap string json).
Variable json_Marshal : gmap string json -> option string.

(** One record of the loop: [None] is a [continue], [Some x'] the record
    appended to [toUpdate]. *)
Definition rewriteOne (x : TuneResults) : option TuneResults :=
  if decide (String.length (tr_UUID x) = 64%nat) then None
  else
    match uncompress (tr_Data x) with
    | None => None
    | Some raw =>
        match json_Decode raw with
        | None => None
        | Some m =>
            let uuid := sha256hex (tr_UUID x) in
            match json_Marshal (<["uniqueId" := JString uuid]> m) with
            | None => None
            | Some j =>
                match compress j with
                | None => None
                | Some z => Some (withData (withUUID x uuid) z)
                end
            end
        end
    end.

(** The loop over the fetched records: the list [toUpdate]. *)
Fixpoint rewriteLoop (res : list TuneResults) : list TuneResults :=
  match res with
  | [] => []
  | x :: rest =>
      match rewriteOne x with
      | None => rewriteLoop rest
      | Some x' => x' :: rewriteLoop rest
      end
  end.

(** [datastore.PutMulti(tc, keys, toUpdate)] with [keys[i] = toUpdate[i].Key]. *)
Definition putTunes (ups : list TuneResults) (store : gmap string TuneResults)
  : gmap string TuneResults :=
  foldl (fun m x => <[tr_Key x := x]> m) store ups.

(** [func handleRewriteUUIDs(w http.ResponseWriter, r *http.Request)]:
    [fetched] is what [fillKeyQuery] returns for the 50 most recent
    records ([None] is its error), [txFails] whether the transaction
    fails. The result is the status code and the store. *)
Definition handleRewriteUUIDs (fetched : option (list TuneResults)) (txFails : bool)
    (store : gmap string TuneResults) : Z * gmap string TuneResults :=
  match fetched with
  | None => (500, store)
  | Some res =>
      match rewriteLoop res with
      | [] => (204, store)
      | toUpdate =>
          if txFails then (500, store) else (204, putTunes toUpdate store)
      end
  end.

End Migration.

(** ** The reliable ingest: [handleStoreTune] and [handleAsyncStoreTune] *)

(** What [handleStoreTune] reads of the request. *)
Record Request := mkReq {
  r_Body : string;
  r_RemoteAddr : string;
  r_Country : string;
  r_Region : string;
  r_City : string;
  r_Citylatlong : string
}.

(** The anonymous struct [fields] pulled from the document. *)
Record tuneFields := mkFields {
  f_UUID : string;
  f_Board : string;
  f_Commit : string;
  f_Tag : string;
  f_Tau : float
}.

(** The reply: the status code and the [Location] header, if set. *)
Record Reply := mkReply {
  code : Z;
  location : option string
}.

(** How a handler ends: by returning, with the reply it has written, or
    by the run-time panic of a nil pointer dereference, before which it
    has written none. *)
Inductive ending (A : Type) : Type :=
| Returned (reply : A)
| NilPanic.

Arguments Returned {A} reply.
Arguments NilPanic {A}.

(** The tune store and the task queue. *)
Record World := mkWorld {
  tunes : gmap string TuneResults;
  queue : TaskQueue
}.

(** What the environment decides during one request: the clock, the key
    the datastore allocates for an incomplete key, and whether
    [datastore.Put] and [taskqueue.Add] fail. *)
Record IngestEnv := mkEnv {
  now : Z;
  newKey : string;
  storeDown : bool;
  queueDown : bool
}.

(** [datastore.Put(c, datastore.NewIncompleteKey(c, "TuneResults", nil), &t)] *)
Definition datastore_Put (env : IngestEnv) (w : World) (t : TuneResults)
  : option (string * World) :=
  if storeDown env then None
  else Some (newKey env, mkWorld (<[newKey env := t]> (tunes w)) (queue w)).

(** [taskqueue.Add(c, task, name)] *)
Definition taskqueue_Add (env : IngestEnv) (w : World) (task : Task) (name : string)
  : option World :=
  if queueDown env then None
  else Some (mkWorld (tunes w) (queue w ++ [(name, task)])).

Section Ingest.

Variable json_DecodeRaw : string -> option string.
(** [json.Unmarshal([]byte(rawJson), &fields)], [fields] being a pointer
    to the struct: [None] is the error, and otherwise the pointer as it
    is left, which is nil ([Some None]) when the document is [null]. *)
Variable json_UnmarshalFields : string -> option (option tuneFields).
Variable sscanLatLon : string -> float * float.
Variable compress : string -> option string.
Variable gobEncode : TuneResults -> option string.
Variable gobDecode : string -> option TuneResults.

(** The record [t] as it stands before [datastore.Put]: the envelope and
    the compressed payload. [inl (Returned code)] is an early
    [http.Error], [inl NilPanic] the panic of [fields.UUID] on a nil
    [fields]. *)
Definition prepareTune (env : IngestEnv) (r : Request) : ending Z + TuneResults :=
  match json_DecodeRaw (r_Body r) with
  | None => inl (Returned 400)
  | Some rawJson =>
      match json_UnmarshalFields rawJson with
      | None => inl (Returned 400)
      | Some None => inl NilPanic
      | Some (Some fields) =>
          let ll := sscanLatLon (r_Citylatlong r) in
          let t := mkTune "" rawJson (now env) (r_RemoteAddr r) (r_Country r)
                          (r_Region r) (r_City r) (f_UUID fields) (f_Board fields)
                          (f_Tau fields) ll.1 ll.2 in
          match compress (tr_Data t) with
          | None => inl (Returned 500)
          | Some z => inr (withData t z)
          end
      end
  end.

(** [func handleStoreTune(w http.ResponseWriter, r *http.Request)] *)
Definition handleStoreTune (env : IngestEnv) (w : World) (r : Request)
  : ending Reply * World :=
  match prepareTune env r with
  | inl (Returned c) => (Returned (mkReply c None), w)
  | inl NilPanic => (NilPanic, w)
  | inr t =>
      match gobEncode t with
      | None => (Returned (mkReply 500 None), w)
      | Some buf =>
          match datastore_Put env w t with
          | None =>
              let task := mkTask "/asyncStoreTune" buf in
              match taskqueue_Add env w task "asyncstore" with
              | None => (Returned (mkReply 500 None), w)
              | Some w' => (Returned (mkReply 201 None), w')
              end
          | Some (k, w') =>
              (Returned
                 (mkReply 201 (Some ("https://dronin-autotown.appspot.com/at/tune/" +:+ k))),
               w')
          end
      end
  end.

(** [func handleAsyncStoreTune(w http.ResponseWriter, r *http.Request)]:
    [body] is the payload of the dequeued task. *)
Definition handleAsyncStoreTune (env : IngestEnv) (w : World) (body : string)
  : Reply * World :=
  match gobDecode body with
  | None => (mkReply 500 None, w)
  | Some t =>
      match datastore_Put env w t with
      | None => (mkReply 500 None, w)
      | Some (_, w') => (mkReply 201 None, w')
      end
  end.

End Ingest.


(** ** Predicates used in the statements *)

(** Every entry of [seenBoards] sits under the identity of its sighting. *)
Definition keyed (seen : gmap string usageSeenBoard) : Prop :=
  forall k b, seen !! k = Some b -> boardUUID b = Some k.

(** The record the second loop stores for the entry [(uuid, b)] of
    [seenBoards] when [items] has no entry for [uuid] yet. *)
Definition candidate (d : asyncUsageData) (rec : usageRec) (uuid : string)
    (b : usageSeenBoard) : FoundController :=
  itemBody d rec uuid (withName b (canonicalBoard (b_Name b))) zeroFC.

(** What the third loop has in [prev] after [datastore.Get]: the stored
    record, or the zero record when there is none. *)
Definition prevOf (ds : Backend) (k : string) : FoundController :=
  default zeroFC (entities ds !! k).

(** The report sights the identity [k]. *)
Definition sights (rec : usageRec) (k : string) : Prop :=
  exists b, b ∈ rec_BoardsSeen rec /\ boardUUID b = Some k.

(** [fc.Addr = a] on a copy of the record. *)
Definition withAddr (fc : FoundController) (a : string) : FoundController :=
  mkFC (fc_UUID fc) (fc_HardwareRev fc) (fc_Name fc) (fc_GitHash fc) (fc_GitTag fc)
       (fc_UAVOHash fc) (fc_GCSOS fc) (fc_GCSArch fc) (fc_GCSVersion fc) a
       (fc_Country fc) (fc_Region fc) (fc_City fc) (fc_Lat fc) (fc_Lon fc)
       (fc_Timestamp fc) (fc_Oldest fc) (fc_Count fc) (fc_Counted fc).

(** The report [rec] with its consent flag set to [flag]. *)
Definition withShareIP (rec : usageRec) (flag : string) : usageRec :=
  mkRec (rec_BoardsSeen rec) (rec_CurrentArch rec) (rec_CurrentOS rec)
        (rec_GCSVersion rec) flag.

(** The instants of [ts] that are set: on or after 1000-01-01 UTC. *)
Definition validTimes (ts : list Z) : list Z := filter (fun t => oldest <= t) ts.

(** The earliest instant of a list, if it has one. *)
Definition earliest (ts : list Z) : option Z :=
  match ts with
  | [] => None
  | t :: rest => Some (foldl Z.min t rest)
  end.

(** Every stored record has a set [Oldest] that is not after its
    [Timestamp]. *)
Definition datedStore (ents : gmap string FoundController) : Prop :=
  forall k v, ents !! k = Some v -> oldest <= fc_Oldest v /\ fc_Oldest v <= fc_Timestamp v.

(** A lowercase hexadecimal digit. *)
Definition isHexDigit (c : ascii) : bool :=
  let n := Z.of_N (N_of_ascii c) in
  ((48 <=? n) && (n <=? 57)) || ((97 <=? n) && (n <=? 102)).

(** The report without the sightings that have neither UUID nor CPU. *)
Definition identified (rec : usageRec) : usageRec :=
  mkRec (filter (fun b => boardUUID b ≠ None) (rec_BoardsSeen rec))
        (rec_CurrentArch rec) (rec_CurrentOS rec) (rec_GCSVersion rec) (rec_ShareIP rec).

(** ** Concrete reports used in the examples *)

Module Sample.

Definition T1 : Z := DateJan1UTC 2020.
Definition T2 : Z := DateJan1UTC 2021.

Definition boardA : usageSeenBoard :=
  mkBoard 2305 "" "board-1" "fw-a" "git-a" "tag-a" "Revolution" "uavo-a".
Definition boardB : usageSeenBoard :=
  mkBoard 2305 "" "board-1" "fw-b" "git-b" "tag-b" "CopterControl" "uavo-b".
Definition boardCPU : usageSeenBoard :=
  mkBoard 3 "cpu-0042" "" "fw-c" "git-c" "tag-c" "Sparky2" "uavo-c".
Definition boardAnon : usageSeenBoard :=
  mkBoard 4 "" "" "fw-d" "git-d" "tag-d" "Seppuku" "uavo-d".

(** Report A: timestamp [T2], consenting. *)
Definition recA : usageRec := mkRec [boardA] "x86_64" "Linux" "1.0" "true".
Definition dA : asyncUsageData :=
  mkAsync "10.0.0.1" "US" "CA" "San Francisco" 0%float 0%float T2 "report-a".

(** Report A again, its timestamp missing (the zero time). *)
Definition dUndated : asyncUsageData :=
  mkAsync "10.0.0.1" "US" "CA" "San Francisco" 0%float 0%float zeroTime "report-a".

(** Report B: timestamp [T1], earlier than A's, not consenting. *)
Definition recB : usageRec := mkRec [boardB] "arm" "Windows 10" "0.9" "false".
Definition dB : asyncUsageData :=
  mkAsync "10.0.0.2" "DE" "BE" "Berlin" 0%float 0%float T1 "report-b".

(** Report C: three sightings, one without any identity. *)
Definition recC : usageRec :=
  mkRec [boardA; boardAnon; boardCPU] "x86_64" "macOS 12" "1.1" "true".
Definition dC : asyncUsageData :=
  mkAsync "10.0.0.3" "FR" "IDF" "Paris" 0%float 0%float T2 "report-c".

Definition noFaults : Faults := mkFaults (fun _ => false) false.

(** The decoding of the two sample payloads. *)
Definition decode (raw : string) : option usageRec :=
  if decide (raw = "report-a") then Some recA
  else if decide (raw = "report-b") then Some recB
  else if decide (raw = "report-c") then Some recC
  else None.

Definition empty : Backend := mkBackend ∅ true.

(** The store after A, and after A then B. *)
Definition afterA : Backend := (asyncRollup decode noFaults empty dA).2.
Definition afterAB : Backend := (asyncRollup decode noFaults afterA dB).2.

(** The record stored for board-1 after A. *)
Definition recordA : FoundController :=
  mkFC "board-1" 1 "Revo" "git-a" "tag-a" "uavo-a" "Linux" "x86_64" "1.0" "10.0.0.1"
       "US" "CA" "San Francisco" 0%float 0%float T2 T2 1 false.

(** A record stored before [Oldest] was kept: [Oldest] is the zero time. *)
Definition legacy : FoundController :=
  mkFC "board-1" 1 "Revo" "git-a" "tag-a" "uavo-a" "Linux" "x86_64" "1.0" "10.0.0.1"
       "US" "CA" "San Francisco" 0%float 0%float T2 zeroTime 1 false.
Definition legacyStore : Backend := mkBackend {[ "board-1" := legacy ]} true.

End Sample.

(** The error a rollup returns, read off the sighted identities: a failed
    [datastore.Get] on one of them, else a failed transaction when there
    is anything to write. *)
Definition rollupStatus (fl : Faults) (seen : gmap string usageSeenBoard)
  : option rollupError :=
  if decide (map_Exists (fun k _ => getFails fl k = true) seen) then Some ErrGet
  else if decide (seen = ∅) then None
  else if putFails fl then Some ErrPut
  else None.

(** The sizes of consecutive batches of [n] cut from [m] records. *)
Fixpoint sizes (fuel n m : nat) : list nat :=
  match fuel with
  | O => []
  | S f =>
      match m with
      | O => []
      | S _ => Nat.min n m :: sizes f n (m - n)
      end
  end.

Module DispatchSample.

Definition stat : UsageStat :=
  mkStat "payload" "10.0.0.9" "US" "CA" "Oakland" 0%float 0%float (DateJan1UTC 2019).

(** 250 stored records and codecs that never fail. *)
Definition source : list nextResult := repeat (NextOk stat) 250.
Definition codec (s : string) : option string := Some s.
Definition marshal (d : asyncUsageData) : option string := Some (d_RawData d).

(** The second batch fails to enqueue. *)
Definition secondFails (i : nat) : bool := Nat.eqb i 1.

End DispatchSample.

Module MigrationSample.

(** Codecs that never fail; the document is marshalled as the value of
    its [uniqueId] field. *)
Definition codec (s : string) : option string := Some s.
Definition decodeDoc (raw : string) : option (gmap string json) :=
  Some {[ "uniqueId" := JString raw; "vehicle" := JNull ]}.
Definition marshalDoc (m : gmap string json) : option string :=
  match m !! "uniqueId" with
  | Some (JString s) => Some s
  | _ => None
  end.

(** A record with an old-style identity. *)
Definition legacyTune : TuneResults :=
  mkTune "key-7" "old-id" (DateJan1UTC 2016) "10.0.0.7" "US" "CA" "Fresno"
         "old-id" "Sparky2" 0%float 0%float 0%float.

End MigrationSample.

Module IngestSample.

Definition request : Request :=
  mkReq "{}" "10.0.0.8" "US" "CA" "Davis" "38.5,-121.7".

Definition codec (s : string) : option string := Some s.
Definition fieldsOf (raw : string) : option (option tuneFields) :=
  Some (Some (mkFields "id-8" "Revo" "c0ffee" "v1" 0%float)).
Definition latLon (s : string) : float * float := (0%float, 0%float).

(** The store is down and the queue is up. *)
Definition env : IngestEnv := mkEnv (DateJan1UTC 2022) "key-8" true false.

(** The prepared record and a serialization of it. *)
Definition tune : TuneResults :=
  mkTune "" "{}" (DateJan1UTC 2022) "10.0.0.8" "US" "CA" "Davis" "id-8" "Revo"
         0%float 0%float 0%float.
Definition encode (t : TuneResults) : option string :=
  Some (tr_UUID t +:+ "|" +:+ tr_Data t).
Definition decodeGob (s : string) : option TuneResults :=
  if decide (s = "id-8|{}") then Some tune else None.

Definition world : World := mkWorld ∅ [].

(** A later delivery of the queued task, the store being up again. *)
Definition envLater : IngestEnv := mkEnv (DateJan1UTC 2023) "key-9" false false.

End IngestSample.

(** ** Further sample inputs *)

Module FaultSample.

(** Every [datastore.Get] fails and so does the transaction. *)
Definition allFail : Faults := mkFaults (fun _ => true) true.

(** Only the transaction fails. *)
Definition txFails : Faults := mkFaults (fun _ => false) true.

(** A report whose only sighting has neither UUID nor CPU. *)
Definition recAnon : usageRec := mkRec [Sample.boardAnon] "x86_64" "Linux" "1.0" "true".
Definition dAnon : asyncUsageData :=
  mkAsync "10.0.0.4" "US" "NY" "Albany" 0%float 0%float Sample.T2 "report-anon".
Definition decodeAnon (raw : string) : option usageRec := Some recAnon.

(** Two sightings of board-1 in one report, and a board with a negative ID. *)
Definition boardNeg : usageSeenBoard :=
  mkBoard (-2) "" "board-2" "fw-n" "git-n" "tag-n" "Sparky2" "uavo-n".
Definition recTwice : usageRec :=
  mkRec [Sample.boardA; boardNeg; Sample.boardB] "x86_64" "Linux" "1.0" "true".
Definition dTwice : asyncUsageData :=
  mkAsync "10.0.0.5" "US" "WA" "Seattle" 0%float 0%float Sample.T2 "report-twice".
Definition decodeTwice (raw : string) : option usageRec := Some recTwice.

(** A stored record already counted by a downstream consumer. *)
Definition counted : FoundController :=
  mkFC "board-1" 1 "Revo" "git-a" "tag-a" "uavo-a" "Linux" "x86_64" "1.0" "10.0.0.1"
       "US" "CA" "San Francisco" 0%float 0%float Sample.T2 Sample.T2 1 true.
Definition countedStore : Backend := mkBackend {[ "board-1" := counted ]} true.

End FaultSample.

Module DispatchFaults.

(** Every enqueue fails. *)
Definition queueDown (i : nat) : bool := true.

(** No enqueue fails. *)
Definition queueUp (i : nat) : bool := false.

(** A codec that fails on every payload. *)
Definition broken (s : string) : option string := None.

(** 120 stored records, then an iterator error, then one more record. *)
Definition interrupted : list nextResult :=
  repeat (NextOk DispatchSample.stat) 120 ++ NextErr :: [NextOk DispatchSample.stat].

Definition task : Task := mkTask "/batch/asyncRollup" "payload".

(** 100 stored records and one more, of another payload. *)
Definition stat2 : UsageStat :=
  mkStat "payload-2" "10.0.0.10" "DE" "BY" "Munich" 0%float 0%float (DateJan1UTC 2020).
Definition task2 : Task := mkTask "/batch/asyncRollup" "payload-2".
Definition twoBatches : list nextResult :=
  repeat (NextOk DispatchSample.stat) 100 ++ [NextOk stat2].

End DispatchFaults.

Module IngestFaults.

(** A body that is not JSON. *)
Definition notJson (s : string) : option string := None.

(** The store and the queue are both down. *)
Definition allDown : IngestEnv := mkEnv (DateJan1UTC 2022) "key-8" true true.

(** The store is up. *)
Definition storeUp : IngestEnv := mkEnv (DateJan1UTC 2022) "key-8" false false.

(** The document [null]: it decodes, and leaves [fields] nil. *)
Definition nullFields (raw : string) : option (option tuneFields) := Some None.

End IngestFaults.

(** ** The rollup lane: [handleAsyncRollup] *)

(** A reply with the message [http.Error] writes; the message is empty
    after [w.WriteHeader]. *)
Record Answer := mkAnswer {
  a_code : Z;
  a_message : string
}.

Section RollupLane.

(** [gzip.NewReader(r.Body)]: [None] is its error, [Some s] the stream
    the decoder reads. [json.NewDecoder(br).Decode(&d)]: [None] is its
    error, a failure of the stream while it is read included; [Some None]
    is a document that decodes and leaves the pointer [d.RawData] nil
    (it has no such member, or [null] for it). *)
Variable gzip_NewReader : string -> option string.
Variable json_DecodeAsync : string -> option (option asyncUsageData).
Variable json_Unmarshal : string -> option usageRec.

(** [func handleAsyncRollup(w http.ResponseWriter, r *http.Request)]. On
    a nil [d.RawData] the first statement of [asyncRollup] dereferences
    it and panics, before the backend is touched. *)
Definition handleAsyncRollup (fl : Faults) (ds : Backend) (body : string)
  : ending Answer * Backend :=
  match gzip_NewReader body with
  | None => (Returned (mkAnswer 500 "error ungzipping"), ds)
  | Some br =>
      match json_DecodeAsync br with
      | None => (Returned (mkAnswer 500 "error decoding json"), ds)
      | Some None => (NilPanic, ds)
      | Some (Some d) =>
          match asyncRollup json_Unmarshal fl ds d with
          | (Some _, ds') => (Returned (mkAnswer 500 "error doing async rollup"), ds')
          | (None, ds') => (Returned (mkAnswer 204 ""), ds')
          end
      end
  end.

End RollupLane.

(** ** The export of boards: [abbrevOS] *)

(** [func abbrevOS(s string) string]; [String.prefix p s] is
    [strings.HasPrefix(s, p)]. *)
Definition abbrevOS (s : string) : string :=
  if String.prefix "Windows" s then "Windows"
  else if String.prefix "OS X" s then "Mac"
  else if String.prefix "macOS" s then "Mac"
  else "Linux".

(** ** The listing of recent tunes: [handleRecentTunes] *)

(** [strconv.Itoa] *)
Definition Itoa (n : Z) : string := NilZero.string_of_int (Z.to_int n).

(** The map [ids] and the counter [nextId] of the loop. *)
Record idState := mkIds {
  ids : gmap string string;
  nextId : Z
}.

(** The body of the loop for one identity: the id it reads or assigns,
    and the state after it. *)
Definition lookupId (st : idState) (uuid : string) : string * idState :=
  match ids st !! uuid with
  | Some id => (id, st)
  | None =>
      let id := Itoa (nextId st) in
      (id, mkIds (<[uuid := id]> (ids st)) (wrapInt (nextId st + 1)))
  end.

(** The loop [for i, x := range res]: the rewritten records and the
    final state. *)
Fixpoint recentLoop (res : list TuneResults) (st : idState)
  : list TuneResults * idState :=
  match res with
  | [] => ([], st)
  | x :: rest =>
      let r := lookupId st (tr_UUID x) in
      let out := recentLoop rest r.2 in
      (withUUID x r.1 :: out.1, out.2)
  end.

(** [func handleRecentTunes(w http.ResponseWriter, r *http.Request)]:
    [fetched] is what [fillKeyQuery] returns ([None] is its error); the
    result is the status 500 or the list handed to [mustEncode]. *)
Definition handleRecentTunes (fetched : option (list TuneResults))
  : Z + list TuneResults :=
  match fetched with
  | None => inl 500
  | Some res => inr (recentLoop res (mkIds ∅ 1)).1
  end.

(** The number of distinct identities in a list. *)
Definition distinct (us : list string) : nat := size (list_to_set us : gset string).

(** The state of the loop after the identities [pre]: [ids] is defined on
    them, its values are the renderings of 1 to the number of distinct
    identities, no two identities share one, and [nextId] is one more
    than that number. *)
Definition idsAfter (pre : list string) (st : idState) : Prop :=
  (forall u, is_Some (ids st !! u) <-> u ∈ pre) /\
  nextId st = Z.of_nat (distinct pre) + 1 /\
  (forall u id, ids st !! u = Some id ->
     exists n, 1 <= n <= Z.of_nat (distinct pre) /\ id = Itoa n) /\
  (forall u1 u2 id, ids st !! u1 = Some id -> ids st !! u2 = Some id -> u1 = u2).

Module LaneSample.

Definition gunzip (s : string) : option string := Some s.

(** The payload of [DispatchSample.stat] as the dispatcher builds it. *)
Definition data : asyncUsageData :=
  mkAsync "10.0.0.9" "US" "CA" "Oakland" 0%float 0%float (DateJan1UTC 2019) "payload".
Definition decodeAsync (s : string) : option (option asyncUsageData) :=
  if decide (s = "payload") then Some (Some data) else None.
Definition decodeRec (raw : string) : option usageRec := Some Sample.recA.

End LaneSample.

Module RecentSample.

Definition tuneA : TuneResults :=
  mkTune "key-1" "data-1" (DateJan1UTC 2021) "10.0.1.1" "US" "CA" "Napa"
         "uuid-a" "Revo" 0%float 0%float 0%float.
Definition tuneB : TuneResults :=
  mkTune "key-2" "data-2" (DateJan1UTC 2020) "10.0.1.2" "DE" "BY" "Munich"
         "uuid-b" "Sparky2" 0%float 0%float 0%float.
Definition tuneA' : TuneResults :=
  mkTune "key-3" "data-3" (DateJan1UTC 2019) "10.0.1.3" "US" "CA" "Napa"
         "uuid-a" "Revo" 0%float 0%float 0%float.

(** Three fetched records, the first and the third of one device. *)
Definition fetched : list TuneResults := [tuneA; tuneB; tuneA'].

End RecentSample.

(** ** The export columns: [fetchVals] and [columnize] *)

(** [strings.Replace(s, old, new, -1)] for one-byte [old] and [new]. *)
Fixpoint strings_Replace (s : string) (old new : ascii) : string :=
  match s with
  | EmptyString => EmptyString
  | String c s' =>
      String (if Ascii.eqb c old then new else c) (strings_Replace s' old new)
  end.

(** [func columnize(s []string) []string]. The slice [k[1:]] panics on an
    empty string; [None] is that panic. *)
Fixpoint columnize (s : list string) : option (list string) :=
  match s with
  | [] => Some []
  | k :: rest =>
      match k with
      | EmptyString => None
      | String _ k1 =>
          match columnize rest with
          | None => None
          | Some rv => Some (strings_Replace k1 "/" "." :: rv)
          end
      end
  end.

Section FetchVals.

(** [jsonpointer.FindDecode(b, k, &v)] followed by [fmt.Sprint(v)]. *)
Variable findDecode : string -> string -> option string.

(** [func fetchVals(b []byte, cols []string) ([]string, error)]: [inl k]
    is the error, which names the column [k]. *)
Fixpoint fetchVals (b : string) (cols : list string) : string + list string :=
  match cols with
  | [] => inr []
  | k :: rest =>
      match findDecode b k with
      | None => inl k
      | Some v =>
          match fetchVals b rest with
          | inl e => inl e
          | inr rv => inr (v :: rv)
          end
      end
  end.

End FetchVals.

(** ** The crash lane: [handleStoreCrash] *)

(** SHA-1 (FIPS 180-4, section 6.1) over the padding and the word parsing
    it shares with SHA-256. *)
Module Sha1.

Definition rotl (n x : Z) : Z :=
  Z.lor (Sha256.w32 (Z.shiftl x n)) (Z.shiftr x (32 - n)).

Definition Parity (x y z : Z) : Z := Z.lxor (Z.lxor x y) z.

Definition f (t : nat) (b c d : Z) : Z :=
  if (t <? 20)%nat then Sha256.Ch b c d
  else if (t <? 40)%nat then Parity b c d
  else if (t <? 60)%nat then Sha256.Maj b c d
  else Parity b c d.

Definition K (t : nat) : Z :=
  if (t <? 20)%nat then 0x5a827999
  else if (t <? 40)%nat then 0x6ed9eba1
  else if (t <? 60)%nat then 0x8f1bbcdc
  else 0xca62c1d6.

(** Message schedule, most recent word first. *)
Fixpoint schedule (k : nat) (ws : list Z) : list Z :=
  match k with
  | O => ws
  | S k' =>
      schedule k'
        (rotl 1 (Z.lxor (Z.lxor (Z.lxor (nth 2 ws 0) (nth 7 ws 0)) (nth 13 ws 0))
                        (nth 15 ws 0))
           :: ws)
  end.

Record state := St { sa : Z; sb : Z; sc : Z; sd : Z; se : Z }.

Definition round (s : state) (tw : nat * Z) : state :=
  St (Sha256.w32 (rotl 5 (sa s) + f tw.1 (sb s) (sc s) (sd s) + se s + K tw.1 + tw.2))
     (sa s) (rotl 30 (sb s)) (sc s) (sd s).

Definition addState (s t : state) : state :=
  St (Sha256.w32 (sa s + sa t)) (Sha256.w32 (sb s + sb t)) (Sha256.w32 (sc s + sc t))
     (Sha256.w32 (sd s + sd t)) (Sha256.w32 (se s + se t)).

Definition block (s : state) (ws16 : list Z) : state :=
  let W := rev (schedule 64 (rev ws16)) in
  addState s (fold_left round (combine (seq 0 80) W) s).

Fixpoint blocks (fuel : nat) (s : state) (ws : list Z) : state :=
  match fuel, ws with
  | S f, _ :: _ => blocks f (block s (firstn 16 ws)) (skipn 16 ws)
  | _, _ => s
  end.

Definition init : state := St 0x67452301 0xefcdab89 0x98badcfe 0x10325476 0xc3d2e1f0.

Definition digest (s : state) : list Z :=
  Sha256.be32 (sa s) ++ Sha256.be32 (sb s) ++ Sha256.be32 (sc s) ++
  Sha256.be32 (sd s) ++ Sha256.be32 (se s).

(** [sha1.Sum(msg)]: the 20 bytes of the digest. *)
Definition Sum (msg : list Z) : list Z :=
  let p := Sha256.pad msg in
  let ws := Sha256.words (length p) p in
  digest (blocks (length ws) init ws).

End Sha1.

(** A Go value held as [interface{}] in [crash.properties]: what
    [encoding/json] decodes a document to (numbers as [float64]) and the
    values the handler stores beside them. *)
#[local] Unset Elimination Schemes.

Inductive Any :=
| ANil
| ABool (b : bool)
| AFloat (x : float)
| AString (s : string)
| ASlice (items : list Any)
| AMap (fields : list (string * Any))
| ATime (t : Time).

#[local] Set Elimination Schemes.

(** The bucket (object name to content) and the [CrashData] values that
    [datastore.Put] has stored, oldest first. *)
Record CrashWorld := mkCrashWorld {
  objects : gmap string string;
  crashes : list (gmap string Any)
}.

(** What the environment decides during one request: the clock and which
    of [storage.NewClient], [file.DefaultBucketName], [wc.Write],
    [wc.Close] and [datastore.Put] fail. *)
Record CrashEnv := mkCrashEnv {
  crashNow : Time;
  clientFails : bool;
  bucketFails : bool;
  writeFails : bool;
  closeFails : bool;
  crashPutFails : bool
}.

(** How the handler ends: with a status it has written, by returning
    without having written one, or by a panic. *)
Inductive crashReply :=
| Replied (code : Z)
| ReturnedSilently
| TypePanic.

(** [filename := hex.EncodeToString(sum[:])] and
    ["crash/" + filename[:2] + "/" + filename[2:]] *)
Definition crashFilename (data : string) : string :=
  let filename := hexOf (Sha1.Sum (bytesOf data)) in
  "crash/" +:+ substring 0 2 filename +:+ "/" +:+
  substring 2 (String.length filename - 2) filename.

Section Crash.

(** [json.NewDecoder(r.Body).Decode(&crash.properties)]; a document that
    is [null] leaves the map nil, which reads as the empty map. *)
Variable json_DecodeProps : string -> option (gmap string Any).
Variable base64_DecodeString : string -> option string.
Variable sscanLatLon : string -> float * float.

(** The assignments to [crash.properties] after the object is written. *)
Definition stamp (env : CrashEnv) (r : Request) (filename : string)
    (properties : gmap string Any) : gmap string Any :=
  let ll := sscanLatLon (r_Citylatlong r) in
  <["lon" := AFloat ll.2]>
    (<["lat" := AFloat ll.1]>
      (<["city" := AString (r_City r)]>
        (<["region" := AString (r_Region r)]>
          (<["country" := AString (r_Country r)]>
            (<["addr" := AString (r_RemoteAddr r)]>
              (<["timestamp" := ATime (crashNow env)]>
                (<["file" := AString filename]> properties))))))).

(** [func handleStoreCrash(w http.ResponseWriter, r *http.Request)]. The
    object is in the bucket once [wc.Close] has succeeded. *)
Definition handleStoreCrash (env : CrashEnv) (w : CrashWorld) (r : Request)
  : crashReply * CrashWorld :=
  match json_DecodeProps (r_Body r) with
  | None => (Replied 400, w)
  | Some properties =>
      match properties !! "dump" with
      | Some (AString dump) =>
          match base64_DecodeString dump with
          | None => (Replied 400, w)
          | Some data =>
              let filename := crashFilename data in
              let properties := delete "dump" properties in
              if clientFails env then (Replied 500, w)
              else if bucketFails env then (ReturnedSilently, w)
              else if writeFails env then (Replied 500, w)
              else if closeFails env then (Replied 500, w)
              else
                let w1 := mkCrashWorld (<[filename := data]> (objects w)) (crashes w) in
                let properties := stamp env r filename properties in
                if crashPutFails env then (Replied 500, w1)
                else (Replied 204, mkCrashWorld (objects w1) (crashes w1 ++ [properties]))
          end
      | _ => (TypePanic, w)
      end
  end.

End Crash.

(** Every stored crash record names, under [file], an object that is in
    the bucket. *)
Definition filed (w : CrashWorld) : Prop :=
  forall p, p ∈ crashes w ->
    exists name, p !! "file" = Some (AString name) /\ is_Some (objects w !! name).

(** The keys the handler sets itself. *)
Definition stamped : list string :=
  ["file"; "timestamp"; "addr"; "country"; "region"; "city"; "lat"; "lon"].

Module CrashSample.

(** A report whose client also chose a [file] of its own. *)
Definition props : gmap string Any :=
  {[ "dump" := AString "ZHVtcA=="; "file" := AString "chosen-by-client";
     "version" := AString "2017.1" ]}.
Definition decodeProps (body : string) : option (gmap string Any) :=
  if decide (body = "crash-report") then Some props else None.
Definition decodeBase64 (s : string) : option string :=
  if decide (s = "ZHVtcA==") then Some "dump" else None.
Definition scan (s : string) : float * float := (0%float, 0%float).

Definition env : CrashEnv := mkCrashEnv (DateJan1UTC 2021) false false false false false.
Definition putDown : CrashEnv := mkCrashEnv (DateJan1UTC 2021) false false false false true.
Definition request : Request :=
  mkReq "crash-report" "10.0.2.1" "US" "CA" "Napa" "38.3,-122.3".
Definition empty : CrashWorld := mkCrashWorld ∅ [].

(** The world after the report has been accepted once. *)
Definition stored : CrashWorld :=
  (handleStoreCrash decodeProps decodeBase64 scan env empty request).2.

End CrashSample.
(** * Theorems *)

(** ** The model of [crypto/sha256] on the standard's test vectors *)

Example sha256hex_abc :
  sha256hex "abc" = "ba7816bf8f01cfea414140de5dae2223b00361a396177a9cb410ff61f20015ad"%string.
Proof. vm_compute. reflexivity. Qed.

Example sha256hex_empty :
  sha256hex "" = "e3b0c44298fc1c149afbf4c8996fb92427ae41e4649b934ca495991b7852b855"%string.
Proof. vm_compute. reflexivity. Qed.

Example sha256hex_two_blocks :
  sha256hex "aaaaaaaaaaaaaaaaaaaaaaaaaaaaaaaaaaaaaaaaaaaaaaaaaaaaaaaa" =
  "b35439a4ac6f0948b6d6f9e3c6af0f5f590ce20f1bde7090ef7970686ec6738a"%string.
Proof. vm_compute. reflexivity. Qed.

(** ** [olderTime] *)

Lemma oldest_value : oldest = 31525372800 * 1000000000.
Proof. reflexivity. Qed.

Lemma olderTime_unfold (a b : Z) :
  olderTime a b =
  if a <? oldest then b else if b <? oldest then a else Z.min a b.
Proof.
  unfold olderTime, Before.
  destruct (a <? oldest); [reflexivity|].
  destruct (b <? oldest); [reflexivity|].
  destruct (Z.ltb_spec a b); lia.
Qed.

Lemma olderTime_valid (a b : Z) :
  oldest <= a -> oldest <= b -> olderTime a b = Z.min a b.
Proof.
  intros Ha Hb. rewrite olderTime_unfold.
  destruct (Z.ltb_spec a oldest); [lia|].
  destruct (Z.ltb_spec b oldest); [lia|]. reflexivity.
Qed.

Lemma olderTime_keeps_valid (a b : Z) :
  oldest <= a \/ oldest <= b -> oldest <= olderTime a b.
Proof.
  intros H. rewrite olderTime_unfold.
  destruct (Z.ltb_spec a oldest); destruct (Z.ltb_spec b oldest); lia.
Qed.

Lemma olderTime_unset_l (a b : Z) : a < oldest -> olderTime a b = b.
Proof.
  intros H. rewrite olderTime_unfold. destruct (Z.ltb_spec a oldest); [reflexivity|lia].
Qed.

(** ** Sightings and their identities *)

Lemma boardUUID_withName (b : usageSeenBoard) (n : string) :
  boardUUID (withName b n) = boardUUID b.
Proof. reflexivity. Qed.

Lemma seenStep_keyed (seen : gmap string usageSeenBoard) (b : usageSeenBoard) :
  keyed seen -> keyed (seenStep seen b).
Proof.
  intros Hk k b'. unfold seenStep.
  destruct (boardUUID b) as [uuid|] eqn:Hb; [|apply Hk].
  destruct (decide (uuid = k)) as [->|Hne].
  - rewrite lookup_insert_eq. intros [= <-]. by rewrite boardUUID_withName.
  - rewrite lookup_insert_ne by done. apply Hk.
Qed.

Lemma foldl_seenStep_keyed (bs : list usageSeenBoard) (seen : gmap string usageSeenBoard) :
  keyed seen -> keyed (foldl seenStep seen bs).
Proof.
  revert seen. induction bs as [|b bs IH]; intros seen Hk; [done|].
  simpl. apply IH. by apply seenStep_keyed.
Qed.

Lemma seenLoop_keyed (bs : list usageSeenBoard) : keyed (seenLoop bs).
Proof. apply foldl_seenStep_keyed. intros k b. by rewrite lookup_empty. Qed.

Lemma foldl_seenStep_dom (bs : list usageSeenBoard) (seen : gmap string usageSeenBoard)
    (k : string) :
  is_Some (foldl seenStep seen bs !! k) <->
  is_Some (seen !! k) \/ exists b, b ∈ bs /\ boardUUID b = Some k.
Proof.
  revert seen. induction bs as [|b bs IH]; intros seen; simpl.
  - split; [by left|]. intros [H|(b & Hb & _)]; [done|]. by apply elem_of_nil in Hb.
  - rewrite IH. unfold seenStep. split.
    + intros [H|(b' & Hb' & Hk)].
      * destruct (boardUUID b) as [uuid|] eqn:Hb; [|by left].
        destruct (decide (uuid = k)) as [->|Hne].
        -- right. exists b. split; [apply list_elem_of_here|done].
        -- rewrite lookup_insert_ne in H by done. by left.
      * right. exists b'. split; [by apply list_elem_of_further|done].
    + intros [H|(b' & Hb' & Hk)].
      * left. destruct (boardUUID b) as [uuid|]; [|done].
        destruct (decide (uuid = k)) as [->|Hne].
        -- rewrite lookup_insert_eq. by eexists.
        -- by rewrite lookup_insert_ne.
      * apply elem_of_cons in Hb' as [->|Hb'].
        -- left. rewrite Hk. rewrite lookup_insert_eq. by eexists.
        -- right. by exists b'.
Qed.

Lemma seenLoop_dom (bs : list usageSeenBoard) (k : string) :
  is_Some (seenLoop bs !! k) <-> exists b, b ∈ bs /\ boardUUID b = Some k.
Proof.
  unfold seenLoop. rewrite foldl_seenStep_dom. rewrite lookup_empty.
  split; [intros [[? [=]]|H]; done | by right].
Qed.

(** ** The second loop *)

Lemma foldl_itemsStep_lookup (d : asyncUsageData) (rec : usageRec)
    (l : list (string * usageSeenBoard)) :
  forall (acc : gmap string FoundController),
    NoDup l.*1 ->
    (forall k b, (k, b) ∈ l -> boardUUID b = Some k) ->
    (forall k, k ∈ l.*1 -> acc !! k = None) ->
    forall k,
      foldl (fun items kb => itemsStep d rec items kb.2) acc l !! k =
      match (list_to_map l : gmap string usageSeenBoard) !! k with
      | Some b => Some (candidate d rec k b)
      | None => acc !! k
      end.
Proof.
  induction l as [|[k0 b0] l IH]; intros acc Hnd Hkey Hfresh k.
  - simpl. by rewrite lookup_empty.
  - simpl in *. apply NoDup_cons in Hnd as [Hk0 Hnd].
    assert (Hb0 : boardUUID b0 = Some k0) by (apply Hkey, elem_of_cons; by left).
    unfold itemsStep at 2. rewrite Hb0.
    rewrite (Hfresh k0) by (apply elem_of_cons; by left). simpl.
    rewrite IH; [| done | | ].
    + destruct (decide (k0 = k)) as [->|Hne].
      * rewrite lookup_insert_eq.
        rewrite (not_elem_of_list_to_map_1 l k) by done.
        by rewrite lookup_insert_eq.
      * rewrite !lookup_insert_ne by done. done.
    + intros k' b' Hin. apply Hkey, elem_of_cons. by right.
    + intros k' Hin. rewrite lookup_insert_ne.
      * apply Hfresh, elem_of_cons. by right.
      * intros ->. done.
Qed.

Lemma itemsLoop_perm_lookup (d : asyncUsageData) (rec : usageRec)
    (seen : gmap string usageSeenBoard) (order : list (string * usageSeenBoard)) (k : string) :
  keyed seen -> order ≡ₚ map_to_list seen ->
  itemsLoop d rec order !! k = candidate d rec k <$> seen !! k.
Proof.
  intros Hkey Hperm. unfold itemsLoop.
  assert (Hnd : NoDup order.*1).
  { rewrite Hperm. apply NoDup_fst_map_to_list. }
  rewrite foldl_itemsStep_lookup; [| done | | ].
  - rewrite (list_to_map_proper order (map_to_list seen)) by done.
    rewrite list_to_map_to_list. rewrite lookup_empty.
    by destruct (seen !! k).
  - intros k' b' Hin. apply Hkey. apply elem_of_map_to_list. by rewrite <- Hperm.
  - intros k' _. apply lookup_empty.
Qed.

(** Go leaves the order of [range seenBoards] open: every order gives
    the same [items]. *)
Lemma itemsLoop_order (d : asyncUsageData) (rec : usageRec)
    (seen : gmap string usageSeenBoard) (order : list (string * usageSeenBoard)) :
  keyed seen -> order ≡ₚ map_to_list seen ->
  itemsLoop d rec order = itemsLoop d rec (map_to_list seen).
Proof.
  intros Hkey Hperm. apply map_eq. intros k.
  by rewrite !(itemsLoop_perm_lookup d rec seen).
Qed.

Lemma items_lookup (d : asyncUsageData) (rec : usageRec) (k : string) :
  itemsLoop d rec (map_to_list (seenLoop (rec_BoardsSeen rec))) !! k =
  candidate d rec k <$> seenLoop (rec_BoardsSeen rec) !! k.
Proof. apply itemsLoop_perm_lookup; [apply seenLoop_keyed | done]. Qed.

(** ** The third loop and the transaction *)

Lemma updatesLoop_Some (fl : Faults) (ds : Backend) (order ups : list (string * FoundController)) :
  updatesLoop fl ds order = Some ups ->
  ups = (fun kv => (kv.1, mergePrev (prevOf ds kv.1) kv.2)) <$> order.
Proof.
  revert ups. induction order as [|[k v] order IH]; intros ups; simpl.
  - by intros [= <-].
  - unfold datastore_Get, prevOf. simpl.
    destruct (getFails fl k); [done|].
    destruct (entities ds !! k) as [prev|]; simpl;
      (destruct (updatesLoop fl ds order) as [ups'|]; [|done]);
      intros [= <-]; by rewrite (IH ups').
Qed.

Lemma updatesLoop_no_faults (fl : Faults) (ds : Backend) (order : list (string * FoundController)) :
  (forall k, getFails fl k = false) -> is_Some (updatesLoop fl ds order).
Proof.
  intros Hok. induction order as [|[k v] order IH]; simpl; [by eexists|].
  unfold datastore_Get. rewrite Hok. destruct IH as [ups ->].
  destruct (entities ds !! k); by eexists.
Qed.

Lemma PutMulti_updates_lookup (g : string -> FoundController -> FoundController)
    (order : list (string * FoundController)) :
  forall (ents : gmap string FoundController) (k : string),
    NoDup order.*1 ->
    PutMulti ((fun kv => (kv.1, g kv.1 kv.2)) <$> order) ents !! k =
    match (list_to_map order : gmap string FoundController) !! k with
    | Some v => Some (g k v)
    | None => ents !! k
    end.
Proof.
  unfold PutMulti. induction order as [|[k0 v0] order IH]; intros ents k Hnd; simpl.
  - by rewrite lookup_empty.
  - apply NoDup_cons in Hnd as [Hk0 Hnd]. rewrite IH by done.
    destruct (decide (k0 = k)) as [->|Hne].
    + rewrite (not_elem_of_list_to_map_1 order k) by done.
      by rewrite !lookup_insert_eq.
    + by rewrite !lookup_insert_ne.
Qed.

(** The record stored under [k] by a rollup that returns [nil]: the
    candidate of the report merged with the prior record when the report
    sights [k], the prior entry otherwise. *)
Lemma rollupRec_lookup (fl : Faults) (ds : Backend) (d : asyncUsageData) (rec : usageRec)
    (k : string) :
  (rollupRec fl ds d rec).1 = None ->
  entities (rollupRec fl ds d rec).2 !! k =
  match seenLoop (rec_BoardsSeen rec) !! k with
  | Some b => Some (mergePrev (prevOf ds k) (candidate d rec k b))
  | None => entities ds !! k
  end.
Proof.
  unfold rollupRec.
  pose proof (items_lookup d rec k) as Hit.
  set (items := itemsLoop d rec (map_to_list (seenLoop (rec_BoardsSeen rec)))) in *.
  destruct (updatesLoop fl ds (map_to_list items)) as [ups|] eqn:Hup; [|done].
  apply updatesLoop_Some in Hup.
  destruct ups as [|u ups].
  - intros _. simpl. symmetry in Hup. apply fmap_nil_inv in Hup.
    apply map_to_list_empty_iff in Hup. rewrite Hup, lookup_empty in Hit.
    destruct (seenLoop (rec_BoardsSeen rec) !! k); [done|done].
  - destruct (putFails fl); [done|]. intros _. rewrite Hup. cbn [snd entities].
    rewrite (PutMulti_updates_lookup (fun k v => mergePrev (prevOf ds k) v))
      by apply NoDup_fst_map_to_list.
    rewrite list_to_map_to_list, Hit.
    by destruct (seenLoop (rec_BoardsSeen rec) !! k).
Qed.

(** Without backend failures the rollup returns [nil]. *)
Lemma rollupRec_no_faults (fl : Faults) (ds : Backend) (d : asyncUsageData) (rec : usageRec) :
  (forall k, getFails fl k = false) -> putFails fl = false ->
  (rollupRec fl ds d rec).1 = None.
Proof.
  intros Hget Hput. unfold rollupRec.
  destruct (updatesLoop_no_faults fl ds
    (map_to_list (itemsLoop d rec (map_to_list (seenLoop (rec_BoardsSeen rec))))) Hget)
    as [ups ->].
  destruct ups; [done|]. by rewrite Hput.
Qed.

(** A rollup that returns an error leaves every entity as it was. *)
Lemma rollupRec_error_keeps (fl : Faults) (ds : Backend) (d : asyncUsageData) (rec : usageRec) :
  (rollupRec fl ds d rec).1 <> None ->
  entities (rollupRec fl ds d rec).2 = entities ds.
Proof.
  unfold rollupRec.
  destruct (updatesLoop fl ds _) as [[|u ups]|]; [done| |done].
  by destruct (putFails fl).
Qed.

(** ** The candidate of a report *)

Lemma olderTime_same (a : Z) : olderTime a a = a.
Proof.
  rewrite olderTime_unfold. destruct (a <? oldest); [reflexivity|]. apply Z.min_id.
Qed.

Lemma candidate_dated (d : asyncUsageData) (rec : usageRec) (k : string) (b : usageSeenBoard) :
  0 < d_Timestamp d ->
  candidate d rec k b =
  mkFC k (Z.land (b_ID b) 255) (canonicalBoard (b_Name b)) (b_GitHash b) (b_GitTag b)
       (b_UavoHash b) (rec_CurrentOS rec) (rec_CurrentArch rec) (rec_GCSVersion rec)
       (if decide (rec_ShareIP rec ≠ "true") then "" else d_IP d)
       (d_Country d) (d_Region d) (d_City d) (d_Lat d) (d_Lon d)
       (d_Timestamp d) (d_Timestamp d) 1 false.
Proof.
  intros Hpos. unfold candidate, itemBody, After. cbn [fc_Timestamp zeroFC].
  unfold zeroTime. destruct (Z.ltb_spec 0 (d_Timestamp d)); [|lia].
  unfold overwrite, setOldest, setCount. cbn. rewrite olderTime_same. reflexivity.
Qed.

Lemma candidate_undated (d : asyncUsageData) (rec : usageRec) (k : string) (b : usageSeenBoard) :
  d_Timestamp d <= 0 ->
  candidate d rec k b = setCount zeroFC 1.
Proof.
  intros Hneg. unfold candidate, itemBody, After. cbn [fc_Timestamp zeroFC].
  unfold zeroTime. destruct (Z.ltb_spec 0 (d_Timestamp d)); [lia|].
  unfold setOldest, setCount. cbn.
  rewrite olderTime_unset_l by (rewrite oldest_value; lia). reflexivity.
Qed.

Lemma candidate_count (d : asyncUsageData) (rec : usageRec) (k : string) (b : usageSeenBoard) :
  fc_Count (candidate d rec k b) = 1.
Proof.
  destruct (Z.lt_ge_cases 0 (d_Timestamp d)).
  - by rewrite candidate_dated.
  - by rewrite candidate_undated.
Qed.

(** A rollup that returns [nil] stores, under a sighted identity, the
    report's candidate merged with the prior record. *)
Lemma rollupRec_sighted (fl : Faults) (ds : Backend) (d : asyncUsageData) (rec : usageRec)
    (k : string) :
  (rollupRec fl ds d rec).1 = None -> sights rec k ->
  exists b, seenLoop (rec_BoardsSeen rec) !! k = Some b /\
            entities (rollupRec fl ds d rec).2 !! k =
            Some (mergePrev (prevOf ds k) (candidate d rec k b)).
Proof.
  intros Hok Hs. apply seenLoop_dom in Hs as [b Hb].
  exists b. split; [done|]. by rewrite rollupRec_lookup, Hb.
Qed.

Lemma asyncRollup_decoded (json_Unmarshal : string -> option usageRec) (fl : Faults)
    (ds : Backend) (d : asyncUsageData) (rec : usageRec) :
  json_Unmarshal (d_RawData d) = Some rec ->
  asyncRollup json_Unmarshal fl ds d = rollupRec fl ds d rec.
Proof. intros H. unfold asyncRollup. by rewrite H. Qed.

(** What a rollup that returns [nil] stores under a sighted identity. *)
Lemma asyncRollup_sighted (json_Unmarshal : string -> option usageRec) (fl : Faults)
    (ds : Backend) (d : asyncUsageData) (rec : usageRec) (k : string) :
  json_Unmarshal (d_RawData d) = Some rec ->
  (asyncRollup json_Unmarshal fl ds d).1 = None ->
  sights rec k ->
  exists b, seenLoop (rec_BoardsSeen rec) !! k = Some b /\
            entities (asyncRollup json_Unmarshal fl ds d).2 !! k =
            Some (mergePrev (prevOf ds k) (candidate d rec k b)).
Proof.
  intros Hdec. rewrite (asyncRollup_decoded _ _ _ _ _ Hdec). apply rollupRec_sighted.
Qed.

(** ** Current state, timestamps and counts *)

(** C1, at the failing input. Report A (timestamp [T2]) is merged into
    the empty store and then report B (timestamp [T1], earlier) for the
    same identity: the stored current-state fields and [Timestamp] are
    B's, not A's. In general the stored current-state fields of a sighted
    identity are those of the report being merged whenever its timestamp
    is after the zero time, whatever [Timestamp] the prior record has. *)
Theorem late_report_overwrites_current_state :
  d_Timestamp Sample.dB < d_Timestamp Sample.dA /\
  entities Sample.afterA !! "board-1" =
    Some (mkFC "board-1" 1 "Revo" "git-a" "tag-a" "uavo-a" "Linux" "x86_64" "1.0"
               "10.0.0.1" "US" "CA" "San Francisco" 0%float 0%float
               Sample.T2 Sample.T2 1 false) /\
  entities Sample.afterAB !! "board-1" =
    Some (mkFC "board-1" 1 "CC3D" "git-b" "tag-b" "uavo-b" "Windows 10" "arm" "0.9"
               "" "DE" "BE" "Berlin" 0%float 0%float
               Sample.T1 Sample.T1 1 false) /\
  (forall json_Unmarshal fl ds d rec k prev,
      json_Unmarshal (d_RawData d) = Some rec ->
      (asyncRollup json_Unmarshal fl ds d).1 = None ->
      entities ds !! k = Some prev ->
      sights rec k ->
      0 < d_Timestamp d ->
      exists b v,
        seenLoop (rec_BoardsSeen rec) !! k = Some b /\
        entities (asyncRollup json_Unmarshal fl ds d).2 !! k = Some v /\
        fc_Timestamp v = d_Timestamp d /\
        fc_Name v = canonicalBoard (b_Name b) /\
        fc_GitHash v = b_GitHash b /\ fc_GitTag v = b_GitTag b /\
        fc_UAVOHash v = b_UavoHash b /\
        fc_GCSOS v = rec_CurrentOS rec /\ fc_GCSArch v = rec_CurrentArch rec /\
        fc_GCSVersion v = rec_GCSVersion rec /\
        fc_Country v = d_Country d /\ fc_Region v = d_Region d /\ fc_City v = d_City d /\
        fc_Lat v = d_Lat d /\ fc_Lon v = d_Lon d).
Proof.
  split; [reflexivity|]. split; [vm_compute; reflexivity|].
  split; [vm_compute; reflexivity|].
  intros json_Unmarshal fl ds d rec k prev Hdec Hok Hprev Hs Hpos.
  destruct (asyncRollup_sighted _ _ _ _ _ _ Hdec Hok Hs) as (b & Hb & Hv).
  exists b, (mergePrev (prevOf ds k) (candidate d rec k b)).
  split; [done|]. split; [done|].
  rewrite candidate_dated by done. cbn. repeat split; reflexivity.
Qed.

(** C2, at the failing input. After report A and then report B for the
    same identity the stored [Count] is 1 both times, not 1 and then 2.
    In general every rollup stores [Count = 1] under each identity it
    sights, whatever [Count] the prior record has. *)
Theorem count_is_not_accumulated :
  fc_Count <$> entities Sample.afterA !! "board-1" = Some 1 /\
  fc_Count <$> entities Sample.afterAB !! "board-1" = Some 1 /\
  (forall json_Unmarshal fl ds d rec k,
      json_Unmarshal (d_RawData d) = Some rec ->
      (asyncRollup json_Unmarshal fl ds d).1 = None ->
      sights rec k ->
      fc_Count <$> entities (asyncRollup json_Unmarshal fl ds d).2 !! k = Some 1).
Proof.
  split; [vm_compute; reflexivity|]. split; [vm_compute; reflexivity|].
  intros json_Unmarshal fl ds d rec k Hdec Hok Hs.
  destruct (asyncRollup_sighted _ _ _ _ _ _ Hdec Hok Hs) as (b & Hb & Hv).
  rewrite Hv. change (Some (fc_Count (candidate d rec k b)) = Some 1).
  by rewrite candidate_count.
Qed.

(** ** Consent *)

Lemma candidate_addr (d : asyncUsageData) (rec : usageRec) (k : string) (b : usageSeenBoard) :
  rec_ShareIP rec ≠ "true" -> fc_Addr (candidate d rec k b) = "".
Proof.
  intros Hno. destruct (Z.lt_ge_cases 0 (d_Timestamp d)).
  - rewrite candidate_dated by done. cbn. by destruct (decide (rec_ShareIP rec ≠ "true")).
  - by rewrite candidate_undated.
Qed.

(** C4. A report whose consent flag is not the string "true" leaves an
    empty address in the record stored for every identity it sights,
    whatever address the prior record has. *)
Theorem no_consent_no_address (json_Unmarshal : string -> option usageRec) (fl : Faults)
    (ds : Backend) (d : asyncUsageData) (rec : usageRec) (k : string) :
  json_Unmarshal (d_RawData d) = Some rec ->
  (asyncRollup json_Unmarshal fl ds d).1 = None ->
  rec_ShareIP rec ≠ "true" ->
  sights rec k ->
  exists v, entities (asyncRollup json_Unmarshal fl ds d).2 !! k = Some v /\ fc_Addr v = "".
Proof.
  intros Hdec Hok Hno Hs.
  destruct (asyncRollup_sighted _ _ _ _ _ _ Hdec Hok Hs) as (b & Hb & Hv).
  eexists. split; [exact Hv|].
  change (fc_Addr (candidate d rec k b) = ""). by apply candidate_addr.
Qed.

Lemma sample_sights_B : sights Sample.recB "board-1".
Proof. exists Sample.boardB. split; [apply list_elem_of_here | reflexivity]. Qed.

(** The prior record holds the address 10.0.0.1; after the declining
    report B the stored address is empty. *)
Lemma no_consent_no_address_witness :
  fc_Addr <$> entities Sample.afterA !! "board-1" = Some "10.0.0.1"%string /\
  exists v,
    entities (asyncRollup Sample.decode Sample.noFaults Sample.afterA Sample.dB).2
      !! "board-1" = Some v /\ fc_Addr v = "".
Proof.
  split; [vm_compute; reflexivity|].
  apply (no_consent_no_address Sample.decode Sample.noFaults Sample.afterA Sample.dB
           Sample.recB "board-1").
  - reflexivity.
  - vm_compute; reflexivity.
  - discriminate.
  - exact sample_sights_B.
Defined.

(** ** [Oldest] *)

Lemma mergePrev_oldest (prev v : FoundController) :
  fc_Oldest (mergePrev prev v) =
  olderTime (olderTime (fc_Oldest prev) (fc_Oldest v)) (fc_Timestamp prev).
Proof. reflexivity. Qed.

Lemma candidate_oldest_valid (d : asyncUsageData) (rec : usageRec) (k : string)
    (b : usageSeenBoard) :
  oldest <= d_Timestamp d -> fc_Oldest (candidate d rec k b) = d_Timestamp d.
Proof.
  intros Hv. rewrite candidate_dated; [reflexivity|]. rewrite oldest_value in Hv. lia.
Qed.

(** C9. [olderTime a b] is [b] when [a] is before 1000-01-01 UTC, else
    [a] when [b] is, else the earlier of the two; so it is a valid
    instant as soon as one argument is, and the [Oldest] a rollup stores
    is valid as soon as the prior [Oldest], the prior [Timestamp] or the
    report's timestamp is. *)
Theorem olderTime_skips_unset (a b : Z) :
  olderTime a b = (if a <? oldest then b else if b <? oldest then a else Z.min a b) /\
  (oldest <= a \/ oldest <= b -> oldest <= olderTime a b) /\
  (forall json_Unmarshal fl ds d rec k,
      json_Unmarshal (d_RawData d) = Some rec ->
      (asyncRollup json_Unmarshal fl ds d).1 = None ->
      sights rec k ->
      oldest <= fc_Oldest (prevOf ds k) \/ oldest <= fc_Timestamp (prevOf ds k) \/
        oldest <= d_Timestamp d ->
      exists v, entities (asyncRollup json_Unmarshal fl ds d).2 !! k = Some v /\
                oldest <= fc_Oldest v).
Proof.
  split; [apply olderTime_unfold|]. split; [apply olderTime_keeps_valid|].
  intros json_Unmarshal fl ds d rec k Hdec Hok Hs Hvalid.
  destruct (asyncRollup_sighted _ _ _ _ _ _ Hdec Hok Hs) as (brd & Hb & Hv).
  eexists. split; [exact Hv|]. rewrite mergePrev_oldest.
  apply olderTime_keeps_valid.
  destruct Hvalid as [H|[H|H]]; [left | by right | left].
  - apply olderTime_keeps_valid. by left.
  - apply olderTime_keeps_valid. right. by rewrite candidate_oldest_valid.
Qed.

(** With a valid first argument and an unset second one the result is
    the first, and the stored [Oldest] of the sample is valid. *)
Lemma olderTime_skips_unset_witness :
  olderTime Sample.T1 0 = Sample.T1 /\ oldest <= olderTime Sample.T1 0 /\
  exists v,
    entities (asyncRollup Sample.decode Sample.noFaults Sample.legacyStore Sample.dB).2
      !! "board-1" = Some v /\ oldest <= fc_Oldest v.
Proof.
  destruct (olderTime_skips_unset Sample.T1 0) as (Heq & Hvalid & Hstored).
  split; [rewrite Heq; reflexivity|].
  split; [apply Hvalid; left; vm_compute; discriminate|].
  apply (Hstored Sample.decode Sample.noFaults Sample.legacyStore Sample.dB Sample.recB).
  - reflexivity.
  - vm_compute; reflexivity.
  - exact sample_sights_B.
  - right; right. vm_compute; discriminate.
Defined.

Lemma olderTime_spec (a b : Z) :
  (a < oldest /\ olderTime a b = b) \/
  (oldest <= a /\ b < oldest /\ olderTime a b = a) \/
  (oldest <= a /\ oldest <= b /\ olderTime a b = Z.min a b).
Proof.
  rewrite olderTime_unfold.
  destruct (Z.ltb_spec a oldest); [by left|].
  destruct (Z.ltb_spec b oldest); [right; by left|]. right; by right.
Qed.

(** Case analysis on every [olderTime] of the goal, innermost first. *)
Ltac olderTime_cases :=
  repeat match goal with
         | |- context [olderTime ?a ?b] =>
             lazymatch a with context [olderTime _ _] => fail | _ => idtac end;
             lazymatch b with context [olderTime _ _] => fail | _ => idtac end;
             let H := fresh "Ho" in
             destruct (olderTime_spec a b) as [[? H]|[[? [? H]]|[? [? H]]]];
             rewrite H; clear H
         end;
  pose proof oldest_value; lia.

Lemma mergePrev_timestamp (prev v : FoundController) :
  fc_Timestamp (mergePrev prev v) = fc_Timestamp v.
Proof. reflexivity. Qed.

Lemma candidate_timestamp_valid (d : asyncUsageData) (rec : usageRec) (k : string)
    (b : usageSeenBoard) :
  oldest <= d_Timestamp d -> fc_Timestamp (candidate d rec k b) = d_Timestamp d.
Proof.
  intros Hv. rewrite candidate_dated; [reflexivity|]. rewrite oldest_value in Hv. lia.
Qed.

Lemma candidate_oldest (d : asyncUsageData) (rec : usageRec) (k : string)
    (b : usageSeenBoard) :
  fc_Oldest (candidate d rec k b) =
  if decide (0 < d_Timestamp d) then d_Timestamp d else 0.
Proof.
  destruct (decide (0 < d_Timestamp d)).
  - by rewrite candidate_dated.
  - rewrite candidate_undated by lia. reflexivity.
Qed.

Lemma candidate_timestamp (d : asyncUsageData) (rec : usageRec) (k : string)
    (b : usageSeenBoard) :
  fc_Timestamp (candidate d rec k b) =
  if decide (0 < d_Timestamp d) then d_Timestamp d else 0.
Proof.
  destruct (decide (0 < d_Timestamp d)).
  - by rewrite candidate_dated.
  - rewrite candidate_undated by lia. reflexivity.
Qed.

(** The three-way [olderTime] of the third loop is the earliest of the
    instants that are set. *)
Lemma merged_oldest_earliest (pO pT dT m : Z) :
  earliest (validTimes [pO; pT; dT]) = Some m ->
  olderTime (olderTime pO (if decide (0 < dT) then dT else 0)) pT = m.
Proof.
  unfold validTimes, earliest. rewrite !filter_cons, filter_nil.
  destruct (decide (oldest <= pO)); destruct (decide (oldest <= pT));
    destruct (decide (oldest <= dT)); destruct (decide (0 < dT));
    cbn [foldl]; intros [= <-]; olderTime_cases.
Qed.

(** One rollup keeps every record and does not raise an [Oldest] that is
    set. *)
Lemma asyncRollup_oldest_mono (json_Unmarshal : string -> option usageRec) (fl : Faults)
    (ds : Backend) (d : asyncUsageData) (k : string) (prev : FoundController) :
  entities ds !! k = Some prev -> oldest <= fc_Oldest prev ->
  exists v, entities (asyncRollup json_Unmarshal fl ds d).2 !! k = Some v /\
            oldest <= fc_Oldest v /\ fc_Oldest v <= fc_Oldest prev.
Proof.
  intros Hk Hset. unfold asyncRollup.
  destruct (json_Unmarshal (d_RawData d)) as [rec|]; cbn [snd].
  2:{ exists prev. split; [done|lia]. }
  destruct ((rollupRec fl ds d rec).1) as [e|] eqn:Hres.
  { rewrite rollupRec_error_keeps by (rewrite Hres; done). exists prev. split; [done|lia]. }
  rewrite rollupRec_lookup by done.
  destruct (seenLoop (rec_BoardsSeen rec) !! k) as [b|]; [|exists prev; split; [done|lia]].
  eexists. split; [reflexivity|]. rewrite mergePrev_oldest, candidate_oldest.
  unfold prevOf. rewrite Hk. cbn [default from_option id].
  destruct (decide (0 < d_Timestamp d)); olderTime_cases.
Qed.

Lemma rollupAll_oldest_mono (json_Unmarshal : string -> option usageRec)
    (reports : list (Faults * asyncUsageData)) :
  forall ds k prev,
    entities ds !! k = Some prev -> oldest <= fc_Oldest prev ->
    exists v, entities (rollupAll json_Unmarshal ds reports) !! k = Some v /\
              oldest <= fc_Oldest v /\ fc_Oldest v <= fc_Oldest prev.
Proof.
  induction reports as [|[fl d] reports IH]; intros ds k prev Hk Hset.
  - exists prev. split; [done|lia].
  - destruct (asyncRollup_oldest_mono json_Unmarshal fl ds d k prev Hk Hset)
      as (v1 & Hk1 & Hset1 & Hle1).
    unfold rollupAll. cbn [foldl fst snd].
    destruct (IH _ k v1 Hk1 Hset1) as (v2 & Hk2 & Hset2 & Hle2).
    exists v2. split; [exact Hk2|lia].
Qed.

(** One rollup of a report with a valid timestamp keeps the store dated. *)
Lemma asyncRollup_dated (json_Unmarshal : string -> option usageRec) (fl : Faults)
    (ds : Backend) (d : asyncUsageData) :
  datedStore (entities ds) -> oldest <= d_Timestamp d ->
  datedStore (entities (asyncRollup json_Unmarshal fl ds d).2).
Proof.
  intros Hds Hd. unfold asyncRollup.
  destruct (json_Unmarshal (d_RawData d)) as [rec|]; cbn [snd]; [|done].
  destruct ((rollupRec fl ds d rec).1) as [e|] eqn:Hres.
  { by rewrite rollupRec_error_keeps by (rewrite Hres; done). }
  intros k v. rewrite rollupRec_lookup by done.
  destruct (seenLoop (rec_BoardsSeen rec) !! k) as [b|]; [|apply Hds].
  intros [= <-]. rewrite mergePrev_oldest, mergePrev_timestamp.
  rewrite candidate_oldest_valid, candidate_timestamp_valid by done.
  unfold prevOf. destruct (entities ds !! k) as [p|] eqn:Hp; cbn [default from_option id].
  - destruct (Hds k p Hp). olderTime_cases.
  - cbn [zeroFC fc_Oldest fc_Timestamp]. unfold zeroTime. olderTime_cases.
Qed.

Lemma rollupAll_dated (json_Unmarshal : string -> option usageRec)
    (reports : list (Faults * asyncUsageData)) :
  forall ds,
    datedStore (entities ds) ->
    Forall (fun r => oldest <= d_Timestamp r.2) reports ->
    datedStore (entities (rollupAll json_Unmarshal ds reports)).
Proof.
  induction reports as [|[fl d] reports IH]; intros ds Hds Hall; [done|].
  apply Forall_cons in Hall as [Hd Hall]. cbn [snd] in Hd.
  unfold rollupAll. cbn [foldl fst snd].
  apply IH; [|done]. by apply asyncRollup_dated.
Qed.

(** C3, amended. In a merge against an existing record the stored
    [Oldest] is the earliest of those among the prior [Oldest], the prior
    [Timestamp] and the report's timestamp that are on or after
    1000-01-01 UTC, when there is one; instants before that date count as
    unset and are skipped. When all three are valid it is their minimum.
    A prior [Oldest] that is set is never raised, by one merge or by any
    sequence of merges, and the stored [Oldest] is not after the stored
    [Timestamp] when the report's timestamp is valid; a store in which
    every [Oldest] is set and not after its [Timestamp] stays so under
    any sequence of reports with valid timestamps. *)
Theorem oldest_is_min_of_valid_times (json_Unmarshal : string -> option usageRec) :
  (forall fl ds d rec k prev,
      json_Unmarshal (d_RawData d) = Some rec ->
      (asyncRollup json_Unmarshal fl ds d).1 = None ->
      entities ds !! k = Some prev ->
      sights rec k ->
      exists v,
        entities (asyncRollup json_Unmarshal fl ds d).2 !! k = Some v /\
        (forall m,
            earliest (validTimes [fc_Oldest prev; fc_Timestamp prev; d_Timestamp d])
              = Some m ->
            fc_Oldest v = m) /\
        (oldest <= fc_Oldest prev -> oldest <= fc_Timestamp prev ->
         oldest <= d_Timestamp d ->
         fc_Oldest v =
           Z.min (Z.min (fc_Oldest prev) (fc_Timestamp prev)) (d_Timestamp d)) /\
        (oldest <= fc_Oldest prev ->
         oldest <= fc_Oldest v /\ fc_Oldest v <= fc_Oldest prev) /\
        (oldest <= d_Timestamp d -> fc_Oldest v <= fc_Timestamp v)) /\
  (forall ds reports k prev,
      entities ds !! k = Some prev -> oldest <= fc_Oldest prev ->
      exists v, entities (rollupAll json_Unmarshal ds reports) !! k = Some v /\
                oldest <= fc_Oldest v /\ fc_Oldest v <= fc_Oldest prev) /\
  (forall ds reports,
      datedStore (entities ds) ->
      Forall (fun r => oldest <= d_Timestamp r.2) reports ->
      datedStore (entities (rollupAll json_Unmarshal ds reports))).
Proof.
  split; [|split].
  - intros fl ds d rec k prev Hdec Hok Hprev Hs.
    destruct (asyncRollup_sighted _ _ _ _ _ _ Hdec Hok Hs) as (b & Hb & Hv).
    eexists. split; [exact Hv|].
    rewrite mergePrev_oldest, mergePrev_timestamp, candidate_oldest, candidate_timestamp.
    unfold prevOf. rewrite Hprev. cbn [default from_option id].
    split; [intros m; apply merged_oldest_earliest|].
    destruct (decide (0 < d_Timestamp d)); repeat split; intros; olderTime_cases.
  - intros ds reports. apply rollupAll_oldest_mono.
  - intros ds reports. apply rollupAll_dated.
Qed.

(** Report B (timestamp [T1]) merged into the store left by report A
    ([Oldest] and [Timestamp] both [T2]): the stored [Oldest] is [T1],
    the minimum, below the prior [Oldest] and not after the stored
    [Timestamp]. *)
Lemma oldest_is_min_of_valid_times_witness :
  exists v,
    entities (asyncRollup Sample.decode Sample.noFaults Sample.afterA Sample.dB).2
      !! "board-1" = Some v /\
    fc_Oldest v = Sample.T1 /\
    fc_Oldest v = Z.min (Z.min Sample.T2 Sample.T2) Sample.T1 /\
    fc_Oldest v <= Sample.T2 /\
    fc_Oldest v <= fc_Timestamp v.
Proof.
  destruct (proj1 (oldest_is_min_of_valid_times Sample.decode)
              Sample.noFaults Sample.afterA Sample.dB Sample.recB "board-1" Sample.recordA
              eq_refl ltac:(vm_compute; reflexivity) ltac:(vm_compute; reflexivity)
              sample_sights_B)
    as (v & Hv & Hearliest & Hmin & Hmono & Hstamp).
  assert (Hvalid1 : oldest <= Sample.T1) by (vm_compute; discriminate).
  assert (Hvalid2 : oldest <= Sample.T2) by (vm_compute; discriminate).
  exists v. split; [exact Hv|].
  split; [apply Hearliest; vm_compute; reflexivity|].
  split; [exact (Hmin Hvalid2 Hvalid2 Hvalid1)|].
  split; [exact (proj2 (Hmono Hvalid2))|exact (Hstamp Hvalid1)].
Defined.

(** C3 as stated fails in two ways. On a prior record whose [Oldest] is
    unset (the zero time) and whose [Timestamp] is [T2], report B
    (timestamp [T1]) stores [Oldest = T1]: not the minimum of the three
    instants, which is the zero time, and later than the prior [Oldest].
    On the record left by report A, a report whose timestamp is missing
    (the zero time) stores [Timestamp] as the zero time and [Oldest = T2]:
    [Oldest] is after [Timestamp]. *)
Lemma oldest_min_counterexample :
  (entities Sample.legacyStore !! "board-1" = Some Sample.legacy /\
   (asyncRollup Sample.decode Sample.noFaults Sample.legacyStore Sample.dB).1 = None /\
   exists v,
     entities (asyncRollup Sample.decode Sample.noFaults Sample.legacyStore Sample.dB).2
       !! "board-1" = Some v /\
     fc_Oldest v = Sample.T1 /\
     fc_Oldest v <>
       Z.min (Z.min (fc_Oldest Sample.legacy) (fc_Timestamp Sample.legacy))
             (d_Timestamp Sample.dB) /\
     ~ fc_Oldest v <= fc_Oldest Sample.legacy) /\
  (entities Sample.afterA !! "board-1" = Some Sample.recordA /\
   (asyncRollup Sample.decode Sample.noFaults Sample.afterA Sample.dUndated).1 = None /\
   exists v,
     entities (asyncRollup Sample.decode Sample.noFaults Sample.afterA Sample.dUndated).2
       !! "board-1" = Some v /\
     fc_Oldest v = Sample.T2 /\ fc_Timestamp v = 0 /\
     fc_Oldest v <>
       Z.min (Z.min (fc_Oldest Sample.recordA) (fc_Timestamp Sample.recordA))
             (d_Timestamp Sample.dUndated) /\
     ~ fc_Oldest v <= fc_Timestamp v).
Proof.
  split.
  - split; [vm_compute; reflexivity|]. split; [vm_compute; reflexivity|].
    eexists. split; [vm_compute; reflexivity|].
    split; [reflexivity|]. split; vm_compute; intros H; discriminate H + (by apply H).
  - split; [vm_compute; reflexivity|]. split; [vm_compute; reflexivity|].
    eexists. split; [vm_compute; reflexivity|].
    split; [reflexivity|]. split; [reflexivity|].
    split; vm_compute; intros H; discriminate H + (by apply H).
Qed.

(** ** The error a rollup returns *)

Lemma updatesLoop_None (fl : Faults) (ds : Backend) (order : list (string * FoundController)) :
  updatesLoop fl ds order = None <-> exists kv, kv ∈ order /\ getFails fl kv.1 = true.
Proof.
  induction order as [|[k v] order IH]; simpl.
  - split; [done|]. intros (kv & Hin & _). by apply elem_of_nil in Hin.
  - unfold datastore_Get. destruct (getFails fl k) eqn:Hk.
    + split; [|done]. intros _. exists (k, v). split; [apply list_elem_of_here|done].
    + assert (Hrest : match updatesLoop fl ds order with
                      | Some _ => False | None => True end <->
                      exists kv, kv ∈ (k, v) :: order /\ getFails fl kv.1 = true).
      { destruct (updatesLoop fl ds order) as [ups|].
        - split; [done|]. intros (kv & Hin & Hf).
          apply elem_of_cons in Hin as [->|Hin]; [simpl in Hf; congruence|].
          assert (Some ups = None) as Hn; [|done].
          apply IH. by exists kv.
        - split; [|done]. intros _.
          destruct (proj1 IH eq_refl) as (kv & Hin & Hf).
          exists kv. split; [by apply list_elem_of_further|done]. }
      rewrite <- Hrest.
      destruct (entities ds !! k); destruct (updatesLoop fl ds order); done.
Qed.

Lemma rollupRec_status (fl : Faults) (ds : Backend) (d : asyncUsageData) (rec : usageRec) :
  (rollupRec fl ds d rec).1 = rollupStatus fl (seenLoop (rec_BoardsSeen rec)).
Proof.
  unfold rollupRec, rollupStatus.
  pose proof (items_lookup d rec) as Hit.
  set (seen := seenLoop (rec_BoardsSeen rec)) in *.
  set (items := itemsLoop d rec (map_to_list seen)) in *.
  destruct (updatesLoop fl ds (map_to_list items)) as [ups|] eqn:Hup.
  - assert (Hnf : ~ map_Exists (fun k _ => getFails fl k = true) seen).
    { intros (k & b & Hkb & Hf).
      assert (updatesLoop fl ds (map_to_list items) = None) as Hn; [|congruence].
      apply updatesLoop_None. exists (k, candidate d rec k b). split; [|done].
      apply elem_of_map_to_list. by rewrite Hit, Hkb. }
    destruct (decide (map_Exists _ seen)); [done|].
    apply updatesLoop_Some in Hup.
    destruct ups as [|u ups].
    + symmetry in Hup. apply fmap_nil_inv, map_to_list_empty_iff in Hup.
      destruct (decide (seen = ∅)) as [|Hne]; [done|].
      exfalso. apply Hne, map_empty. intros k.
      specialize (Hit k). rewrite Hup, lookup_empty in Hit.
      symmetry in Hit. by apply fmap_None in Hit.
    + destruct (decide (seen = ∅)) as [He|Hne].
      * exfalso. assert (items = ∅) as Hi.
        { apply map_empty. intros k. by rewrite Hit, He, lookup_empty. }
        by rewrite Hi, map_to_list_empty in Hup.
      * by destruct (putFails fl).
  - apply updatesLoop_None in Hup as ([k v] & Hin & Hf).
    apply elem_of_map_to_list in Hin. rewrite Hit in Hin.
    apply fmap_Some in Hin as (b & Hb & _).
    destruct (decide (map_Exists _ seen)) as [|Hn]; [done|].
    exfalso. apply Hn. by exists k, b.
Qed.

(** The order of [range items] does not matter either: the same
    error, and the same entities after the transaction. *)
Lemma updatesLoop_order (fl : Faults) (ds : Backend) (items : gmap string FoundController)
    (order : list (string * FoundController)) :
  order ≡ₚ map_to_list items ->
  (updatesLoop fl ds order = None <-> updatesLoop fl ds (map_to_list items) = None) /\
  (forall ups ups' ents,
      updatesLoop fl ds order = Some ups ->
      updatesLoop fl ds (map_to_list items) = Some ups' ->
      PutMulti ups ents = PutMulti ups' ents).
Proof.
  intros Hperm. split.
  - rewrite !updatesLoop_None. by setoid_rewrite Hperm.
  - intros ups ups' ents ->%updatesLoop_Some ->%updatesLoop_Some.
    assert (Hnd : NoDup order.*1) by (rewrite Hperm; apply NoDup_fst_map_to_list).
    apply map_eq. intros k.
    rewrite !(PutMulti_updates_lookup (fun k v => mergePrev (prevOf ds k) v))
      by (done || apply NoDup_fst_map_to_list).
    by rewrite (list_to_map_proper order (map_to_list items)).
Qed.

(** ** Consent changes the address only *)

Lemma candidate_consent (d : asyncUsageData) (rec : usageRec) (k : string)
    (b : usageSeenBoard) :
  rec_ShareIP rec ≠ "true" ->
  candidate d rec k b = withAddr (candidate d (withShareIP rec "true") k b) "".
Proof.
  intros Hno. destruct (Z.lt_ge_cases 0 (d_Timestamp d)).
  - rewrite !candidate_dated by done. cbn.
    by destruct (decide (rec_ShareIP rec ≠ "true")).
  - by rewrite !candidate_undated.
Qed.

(** C10. For a report whose consent flag is not "true", compare the
    rollup with the rollup of the same payload decoded with the flag
    forced to "true". Both return the same error or [nil]; when they
    return [nil], the record stored for a sighted identity is the
    consenting one with the address cleared and every other field equal,
    and every other entity is the same. *)
Theorem consent_only_clears_address (json_Unmarshal : string -> option usageRec)
    (fl : Faults) (ds : Backend) (d : asyncUsageData) (rec : usageRec) :
  json_Unmarshal (d_RawData d) = Some rec ->
  rec_ShareIP rec ≠ "true" ->
  let declining := asyncRollup json_Unmarshal fl ds d in
  let consenting :=
    asyncRollup (fun raw => (fun r => withShareIP r "true") <$> json_Unmarshal raw) fl ds d in
  declining.1 = consenting.1 /\
  (declining.1 = None ->
   forall k,
     (sights rec k ->
      exists v, entities consenting.2 !! k = Some v /\
                entities declining.2 !! k = Some (withAddr v "")) /\
     (~ sights rec k -> entities declining.2 !! k = entities consenting.2 !! k)).
Proof.
  intros Hdec Hno declining consenting.
  assert (Hd : declining = rollupRec fl ds d rec) by (by apply asyncRollup_decoded).
  assert (Hc : consenting = rollupRec fl ds d (withShareIP rec "true")).
  { unfold consenting, asyncRollup. by rewrite Hdec. }
  rewrite Hd, Hc.
  assert (Hst : (rollupRec fl ds d rec).1 = (rollupRec fl ds d (withShareIP rec "true")).1)
    by (by rewrite !rollupRec_status).
  split; [exact Hst|].
  intros Hok k. rewrite !rollupRec_lookup by congruence.
  cbn [rec_BoardsSeen withShareIP].
  split.
  - intros Hs. apply seenLoop_dom in Hs as [b Hb]. rewrite Hb.
    eexists. split; [reflexivity|]. by rewrite (candidate_consent d rec k b Hno).
  - intros Hns. destruct (seenLoop (rec_BoardsSeen rec) !! k) as [b|] eqn:Hb; [|done].
    exfalso. apply Hns, seenLoop_dom. by eexists.
Qed.

(** The declining report B on the store left by A, against the same
    report taken as consenting: both return [nil], and the record of
    board-1 differs in the address only. *)
Lemma consent_only_clears_address_witness :
  (asyncRollup Sample.decode Sample.noFaults Sample.afterA Sample.dB).1 = None /\
  exists v,
    entities (asyncRollup (fun raw => (fun r => withShareIP r "true") <$> Sample.decode raw)
                Sample.noFaults Sample.afterA Sample.dB).2 !! "board-1" = Some v /\
    entities (asyncRollup Sample.decode Sample.noFaults Sample.afterA Sample.dB).2
      !! "board-1" = Some (withAddr v "").
Proof.
  assert (Hok : (asyncRollup Sample.decode Sample.noFaults Sample.afterA Sample.dB).1 = None)
    by (vm_compute; reflexivity).
  split; [exact Hok|].
  destruct (consent_only_clears_address Sample.decode Sample.noFaults Sample.afterA
              Sample.dB Sample.recB eq_refl ltac:(discriminate)) as [_ Hrec].
  exact (proj1 (Hrec Hok "board-1"%string) sample_sights_B).
Defined.

(** ** Identities *)

Lemma hexOf_length (bs : list Z) : String.length (hexOf bs) = (2 * length bs)%nat.
Proof. induction bs as [|b bs IH]; [done|]. cbn [hexOf String.length length]. lia. Qed.

Lemma Sum256_length (msg : list Z) : length (Sha256.Sum256 msg) = 32%nat.
Proof. unfold Sha256.Sum256, Sha256.digest. by rewrite !length_app. Qed.

(** The hash is rendered as 64 characters, whatever the input. *)
Lemma sha256hex_length (s : string) : String.length (sha256hex s) = 64%nat.
Proof. unfold sha256hex. by rewrite hexOf_length, Sum256_length. Qed.

Lemma hexDigit_isHexDigit (d : Z) : 0 <= d < 16 -> isHexDigit (hexDigit d) = true.
Proof.
  intros Hd.
  assert (d = 0 \/ d = 1 \/ d = 2 \/ d = 3 \/ d = 4 \/ d = 5 \/ d = 6 \/ d = 7 \/
          d = 8 \/ d = 9 \/ d = 10 \/ d = 11 \/ d = 12 \/ d = 13 \/ d = 14 \/ d = 15)
    as Hcases by lia.
  repeat (destruct Hcases as [->|Hcases]; [reflexivity|]). by subst.
Qed.

Lemma hexOf_isHex (bs : list Z) :
  Forall (fun b => 0 <= b < 256) bs ->
  forallb isHexDigit (list_ascii_of_string (hexOf bs)) = true.
Proof.
  induction 1 as [|b bs Hb _ IH]; [done|].
  cbn [hexOf list_ascii_of_string forallb]. rewrite IH.
  rewrite !hexDigit_isHexDigit; [done| |].
  - apply Z.mod_pos_bound. lia.
  - split; [apply Z.div_pos; lia | apply Z.div_lt_upper_bound; lia].
Qed.

Lemma be32_bytes (x : Z) : Forall (fun b => 0 <= b < 256) (Sha256.be32 x).
Proof. unfold Sha256.be32. repeat constructor; apply Z.mod_pos_bound; lia. Qed.

Lemma Sum256_bytes (msg : list Z) : Forall (fun b => 0 <= b < 256) (Sha256.Sum256 msg).
Proof.
  unfold Sha256.Sum256, Sha256.digest. rewrite !Forall_app.
  repeat split; apply be32_bytes.
Qed.

Lemma sha256hex_isHex (s : string) :
  forallb isHexDigit (list_ascii_of_string (sha256hex s)) = true.
Proof. apply hexOf_isHex, Sum256_bytes. Qed.

Lemma foldl_seenStep_filter (bs : list usageSeenBoard) :
  forall seen,
    foldl seenStep seen (filter (fun b => boardUUID b ≠ None) bs) = foldl seenStep seen bs.
Proof.
  induction bs as [|b bs IH]; intros seen; [done|].
  rewrite filter_cons. destruct (decide (boardUUID b ≠ None)) as [Hb|Hb]; simpl.
  - apply IH.
  - assert (Hn : boardUUID b = None).
    { destruct (boardUUID b); [exfalso; by apply Hb|done]. }
    rewrite IH. f_equal. unfold seenStep. by rewrite Hn.
Qed.

Lemma candidate_ext (d : asyncUsageData) (rec1 rec2 : usageRec) (k : string)
    (b : usageSeenBoard) :
  rec_CurrentArch rec1 = rec_CurrentArch rec2 ->
  rec_CurrentOS rec1 = rec_CurrentOS rec2 ->
  rec_GCSVersion rec1 = rec_GCSVersion rec2 ->
  rec_ShareIP rec1 = rec_ShareIP rec2 ->
  candidate d rec1 k b = candidate d rec2 k b.
Proof.
  intros Ha Ho Hv Hs. unfold candidate, itemBody, overwrite.
  by rewrite Ha, Ho, Hv, Hs.
Qed.

(** The rollup reads the sightings through [seenBoards] only. *)
Lemma rollupRec_ext (fl : Faults) (ds : Backend) (d : asyncUsageData) (rec1 rec2 : usageRec) :
  seenLoop (rec_BoardsSeen rec1) = seenLoop (rec_BoardsSeen rec2) ->
  rec_CurrentArch rec1 = rec_CurrentArch rec2 ->
  rec_CurrentOS rec1 = rec_CurrentOS rec2 ->
  rec_GCSVersion rec1 = rec_GCSVersion rec2 ->
  rec_ShareIP rec1 = rec_ShareIP rec2 ->
  rollupRec fl ds d rec1 = rollupRec fl ds d rec2.
Proof.
  intros Hseen Ha Ho Hv Hs. unfold rollupRec. rewrite Hseen.
  assert (Hitems : itemsLoop d rec1 (map_to_list (seenLoop (rec_BoardsSeen rec2))) =
                   itemsLoop d rec2 (map_to_list (seenLoop (rec_BoardsSeen rec2)))).
  { apply map_eq. intros k.
    rewrite !(itemsLoop_perm_lookup _ _ (seenLoop (rec_BoardsSeen rec2)))
      by (done || apply seenLoop_keyed).
    destruct (seenLoop (rec_BoardsSeen rec2) !! k) as [b|]; [|done].
    cbn. f_equal. by apply candidate_ext. }
  by rewrite Hitems.
Qed.

Lemma boardUUID_explicit (b : usageSeenBoard) : b_UUID b ≠ "" -> boardUUID b = Some (b_UUID b).
Proof. intros H. unfold boardUUID. by destruct (decide (b_UUID b = "")). Qed.

Lemma boardUUID_hashed (b : usageSeenBoard) :
  b_UUID b = "" -> b_CPU b ≠ "" -> boardUUID b = Some (sha256hex (b_CPU b)).
Proof.
  intros Hu Hc. unfold boardUUID.
  destruct (decide (b_UUID b = "")); [|done]. by destruct (decide (b_CPU b = "")).
Qed.

Lemma boardUUID_none (b : usageSeenBoard) :
  b_UUID b = "" -> b_CPU b = "" -> boardUUID b = None.
Proof.
  intros Hu Hc. unfold boardUUID.
  destruct (decide (b_UUID b = "")); [|done]. by destruct (decide (b_CPU b = "")).
Qed.

Lemma stored_uuid (fl : Faults) (ds : Backend) (d : asyncUsageData) (rec : usageRec)
    (k : string) :
  (rollupRec fl ds d rec).1 = None -> sights rec k ->
  exists v, entities (rollupRec fl ds d rec).2 !! k = Some v /\
            (0 < d_Timestamp d -> fc_UUID v = k).
Proof.
  intros Hok Hs. destruct (rollupRec_sighted fl ds d rec k Hok Hs) as (b & Hb & Hv).
  eexists. split; [exact Hv|]. intros Hpos.
  change (fc_UUID (candidate d rec k b) = k). by rewrite candidate_dated.
Qed.

(** C5. In a rollup that returns [nil], a sighting with a non-empty UUID
    is stored under that UUID; one with an empty UUID and a non-empty CPU
    identifier is stored under the 64 lowercase hexadecimal digits of the
    SHA-256 of the identifier; the stored [UUID] field is that identity
    when the report's timestamp is after the zero time. Entities of
    identities that are not sighted stay as they were, and sightings with
    both fields empty are skipped: the rollup is the rollup of the report
    without them. *)
Theorem identity_resolution (json_Unmarshal : string -> option usageRec) (fl : Faults)
    (ds : Backend) (d : asyncUsageData) (rec : usageRec) :
  json_Unmarshal (d_RawData d) = Some rec ->
  (asyncRollup json_Unmarshal fl ds d).1 = None ->
  (forall b, b ∈ rec_BoardsSeen rec ->
     (b_UUID b ≠ "" ->
      exists v, entities (asyncRollup json_Unmarshal fl ds d).2 !! b_UUID b = Some v /\
                (0 < d_Timestamp d -> fc_UUID v = b_UUID b)) /\
     (b_UUID b = "" -> b_CPU b ≠ "" ->
      (exists v, entities (asyncRollup json_Unmarshal fl ds d).2 !! sha256hex (b_CPU b)
                   = Some v /\
                 (0 < d_Timestamp d -> fc_UUID v = sha256hex (b_CPU b))) /\
      String.length (sha256hex (b_CPU b)) = 64%nat /\
      forallb isHexDigit (list_ascii_of_string (sha256hex (b_CPU b))) = true) /\
     (b_UUID b = "" -> b_CPU b = "" -> boardUUID b = None)) /\
  (forall k, ~ sights rec k ->
     entities (asyncRollup json_Unmarshal fl ds d).2 !! k = entities ds !! k) /\
  asyncRollup json_Unmarshal fl ds d =
  asyncRollup (fun raw => identified <$> json_Unmarshal raw) fl ds d.
Proof.
  intros Hdec. rewrite (asyncRollup_decoded _ _ _ _ _ Hdec). intros Hok.
  split; [|split].
  - intros b Hin. split; [|split].
    + intros Hu. apply stored_uuid; [done|].
      exists b. split; [done|]. by apply boardUUID_explicit.
    + intros Hu Hc. split; [|split].
      * apply stored_uuid; [done|]. exists b. split; [done|]. by apply boardUUID_hashed.
      * apply sha256hex_length.
      * apply sha256hex_isHex.
    + apply boardUUID_none.
  - intros k Hns. rewrite rollupRec_lookup by done.
    destruct (seenLoop (rec_BoardsSeen rec) !! k) as [b|] eqn:Hb; [|done].
    exfalso. apply Hns, seenLoop_dom. by eexists.
  - unfold asyncRollup at 1. rewrite Hdec. cbn [fmap option_fmap option_map].
    apply rollupRec_ext; try reflexivity.
    cbn [identified rec_BoardsSeen]. unfold seenLoop.
    by rewrite foldl_seenStep_filter.
Qed.

(** Report C sights board-1 by UUID, a board by its CPU identifier and a
    board with neither. *)
Lemma identity_resolution_witness :
  (exists v,
      entities (asyncRollup Sample.decode Sample.noFaults Sample.empty Sample.dC).2
        !! "board-1" = Some v /\ fc_UUID v = "board-1") /\
  (exists v,
      entities (asyncRollup Sample.decode Sample.noFaults Sample.empty Sample.dC).2
        !! sha256hex "cpu-0042" = Some v /\ fc_UUID v = sha256hex "cpu-0042") /\
  boardUUID Sample.boardAnon = None /\
  asyncRollup Sample.decode Sample.noFaults Sample.empty Sample.dC =
  asyncRollup (fun raw => identified <$> Sample.decode raw)
              Sample.noFaults Sample.empty Sample.dC.
Proof.
  destruct (identity_resolution Sample.decode Sample.noFaults Sample.empty Sample.dC
              Sample.recC eq_refl ltac:(vm_compute; reflexivity))
    as (Hboards & _ & Hskip).
  assert (Hpos : 0 < d_Timestamp Sample.dC) by reflexivity.
  split; [|split; [|split]].
  - destruct (Hboards Sample.boardA) as [HA _]; [apply list_elem_of_here|].
    destruct (HA ltac:(discriminate)) as (v & Hv & Hu). exists v. split; [exact Hv|].
    exact (Hu Hpos).
  - destruct (Hboards Sample.boardCPU) as (_ & HC & _).
    { apply list_elem_of_further, list_elem_of_further, list_elem_of_here. }
    destruct (HC eq_refl ltac:(discriminate)) as ((v & Hv & Hu) & _).
    exists v. split; [exact Hv|]. exact (Hu Hpos).
  - destruct (Hboards Sample.boardAnon) as (_ & _ & HN).
    { apply list_elem_of_further, list_elem_of_here. }
    exact (HN eq_refl eq_refl).
  - exact Hskip.
Defined.

(** ** Batches *)

Lemma chunks_nil (f n : nat) : chunks f n [] = [].
Proof. by destruct f. Qed.

Lemma chunks_fuel (n : nat) :
  (0 < n)%nat ->
  forall f1 f2 (l : list Task),
    (length l <= f1)%nat -> (length l <= f2)%nat -> chunks f1 n l = chunks f2 n l.
Proof.
  intros Hn. induction f1 as [|f1 IH]; intros f2 l H1 H2.
  - destruct l; [|simpl in H1; lia]. by rewrite !chunks_nil.
  - destruct l as [|x l]; [by rewrite !chunks_nil|].
    destruct f2 as [|f2]; [simpl in H2; lia|].
    cbn [chunks]. f_equal. apply IH; rewrite length_drop; simpl in *; lia.
Qed.

Lemma chunks_full (full rest : list Task) (f : nat) :
  length full = 100%nat ->
  (length (full ++ rest) <= f)%nat ->
  chunks f 100 (full ++ rest) = full :: chunks (length rest) 100 rest.
Proof.
  intros Hfull Hlen. rewrite length_app in Hlen.
  destruct f as [|f]; [lia|].
  destruct full as [|x full']; [simpl in Hfull; lia|].
  change ((x :: full') ++ rest) with (x :: (full' ++ rest)). cbn [chunks].
  change (x :: (full' ++ rest)) with ((x :: full') ++ rest).
  rewrite <- Hfull. rewrite take_app_length, drop_app_length. f_equal.
  apply chunks_fuel; simpl in *; lia.
Qed.

Lemma chunks_concat (n : nat) :
  (0 < n)%nat ->
  forall f (l : list Task), (length l <= f)%nat -> concat (chunks f n l) = l.
Proof.
  intros Hn. induction f as [|f IH]; intros l Hl.
  - destruct l; [done|simpl in Hl; lia].
  - destruct l as [|x l]; [done|].
    cbn [chunks concat]. rewrite IH by (rewrite length_drop; simpl in *; lia).
    apply take_drop.
Qed.

Lemma chunks_sizes (n : nat) :
  forall f (l : list Task), length <$> chunks f n l = sizes f n (length l).
Proof.
  induction f as [|f IH]; intros l; [done|].
  destruct l as [|x l]; [done|].
  cbn [chunks fmap list_fmap]. rewrite IH, length_take, length_drop. reflexivity.
Qed.

Lemma chunks_shape (n : nat) :
  (0 < n)%nat ->
  forall f (l : list Task) (i : nat) (b : list Task),
    (length l <= f)%nat ->
    chunks f n l !! i = Some b ->
    length b = n \/ (S i = length (chunks f n l) /\ (0 < length b < n)%nat).
Proof.
  intros Hn. induction f as [|f IH]; intros l i b Hl Hb; [done|].
  destruct l as [|x l]; [done|]. cbn [chunks] in *.
  destruct i as [|i].
  - injection Hb as <-. rewrite length_take.
    destruct (le_lt_dec n (length (x :: l))) as [Hge|Hlt]; [left; lia|].
    right. rewrite (drop_ge (x :: l) n) by lia. rewrite chunks_nil.
    simpl in *. lia.
  - cbn [lookup list_lookup] in Hb. apply IH in Hb.
    + destruct Hb as [Hb|[Hb1 Hb2]]; [by left|]. right. split; [|done].
      cbn [length]. by rewrite <- Hb1.
    + rewrite length_drop. simpl in *. lia.
Qed.

Lemma runBatches_spec (addFails : nat -> bool) (name : string) :
  forall (batches : list (list Task)) (k : nat) (q : TaskQueue),
    ((runBatches addFails name k batches q).1 = true <->
     exists i, (i < length batches)%nat /\ addFails (k + i)%nat = true) /\
    (forall x, x ∈ q -> x ∈ (runBatches addFails name k batches q).2) /\
    (forall i b t, batches !! i = Some b -> addFails (k + i)%nat = false -> t ∈ b ->
                   (name, t) ∈ (runBatches addFails name k batches q).2).
Proof.
  induction batches as [|b0 batches IH]; intros k q.
  - cbn. split; [|split]; [|done|done].
    split; [done|]. intros (i & Hi & _). lia.
  - cbn [runBatches].
    destruct (addFails k) eqn:Hk.
    + destruct (IH (S k) q) as (Hst & Hq & Hb). cbn [fst snd].
      split; [|split].
      * split; [|done]. intros _. exists 0%nat. rewrite Nat.add_0_r. split; [simpl; lia|done].
      * exact Hq.
      * intros i b t Hi Hf Ht. destruct i as [|i].
        { rewrite Nat.add_0_r in Hf. congruence. }
        apply (Hb i b t); [done| |done]. by rewrite Nat.add_succ_comm.
    + destruct (IH (S k) (q ++ map (fun t => (name, t)) b0)) as (Hst & Hq & Hb).
      split; [|split].
      * rewrite Hst. split.
        -- intros (i & Hi & Hf). exists (S i). split; [simpl; lia|].
           by rewrite <- Nat.add_succ_comm.
        -- intros (i & Hi & Hf). destruct i as [|i].
           { rewrite Nat.add_0_r in Hf. congruence. }
           exists i. split; [simpl in Hi; lia|]. by rewrite Nat.add_succ_comm.
      * intros x Hx. apply Hq, elem_of_app. by left.
      * intros i b t Hi Hf Ht. destruct i as [|i].
        -- injection Hi as <-. apply Hq, elem_of_app. right.
           apply (list_elem_of_fmap_2 (fun t => (name, t))), Ht.
        -- apply (Hb i b t); [done| |done]. by rewrite Nat.add_succ_comm.
Qed.

Section DispatcherFacts.

Variable uncompress : string -> option string.
Variable json_Marshal : asyncUsageData -> option string.
Variable gz : string -> option string.

Lemma dispatchLoop_batches (src : list nextResult) :
  forall s,
    (length (tasks s) < 100)%nat ->
    noIterErr src = true ->
    (dispatchLoop uncompress json_Marshal gz src s).1 = false /\
    batchesOf (dispatchLoop uncompress json_Marshal gz src s).2 =
    launched s ++
      chunks (length (tasks s ++ survivors uncompress json_Marshal gz src)) 100
             (tasks s ++ survivors uncompress json_Marshal gz src).
Proof.
  induction src as [|[st|] src IH]; intros s Hlen Hok.
  - cbn [dispatchLoop survivors fst snd]. split; [done|].
    rewrite app_nil_r. unfold batchesOf.
    destruct (tasks s) as [|t ts] eqn:Ht; [by rewrite app_nil_r|].
    cbn [length chunks]. rewrite take_ge, drop_ge by (simpl in *; lia).
    by rewrite chunks_nil.
  - cbn [dispatchLoop survivors noIterErr] in *.
    destruct (prepareTask uncompress json_Marshal gz st) as [t|]; [|by apply IH].
    destruct (decide (length (tasks s ++ [t]) = 100%nat)) as [Hfull|Hnot].
    + destruct (IH (mkLoop [] (launched s ++ [tasks s ++ [t]]) (total s + 1))) as [H1 H2];
        [simpl; lia|done|].
      split; [exact H1|]. rewrite H2. cbn [launched tasks app].
      rewrite <- app_assoc. f_equal. cbn [app].
      set (rest := survivors uncompress json_Marshal gz src).
      replace (tasks s ++ t :: rest) with ((tasks s ++ [t]) ++ rest)
        by (by rewrite <- app_assoc).
      symmetry. by apply chunks_full.
    + destruct (IH (mkLoop (tasks s ++ [t]) (launched s) (total s + 1))) as [H1 H2];
        [cbn [tasks]; rewrite length_app in *; simpl in *; lia|done|].
      split; [exact H1|]. rewrite H2. cbn [launched tasks].
      by rewrite <- !app_assoc.
  - done.
Qed.

End DispatcherFacts.

(** C7. When the iteration over the stored records ends with
    [datastore.Done], the batches handed to the queue are the records
    that survive serialization cut into consecutive batches of 100, the
    remainder (if any) last: their concatenation is the surviving
    records in order, every batch has exactly 100 tasks except a last one
    that may have between 1 and 99, and 250 surviving records give three
    batches of 100, 100 and 50. The reply is 500 exactly when the enqueue
    of some batch fails and 204 exactly when none does; whatever the
    reply, the tasks already in the queue stay and every task of every
    batch whose enqueue did not fail is in the queue [asyncRollup]. *)
Theorem redrive_batches (uncompress : string -> option string)
    (json_Marshal : asyncUsageData -> option string) (gz : string -> option string)
    (addFails : nat -> bool) (q : TaskQueue) (src : list nextResult) :
  noIterErr src = true ->
  let ts := survivors uncompress json_Marshal gz src in
  let batches := chunks (length ts) 100 ts in
  let out := handleUpdateControllers uncompress json_Marshal gz addFails q src in
  batchesOf (dispatchLoop uncompress json_Marshal gz src (mkLoop [] [] 0)).2 = batches /\
  concat batches = ts /\
  (forall i b, batches !! i = Some b ->
     length b = 100%nat \/ (S i = length batches /\ (0 < length b < 100)%nat)) /\
  (length ts = 250%nat -> length <$> batches = [100; 100; 50]%nat) /\
  (out.1 = Status 500 <-> exists i, (i < length batches)%nat /\ addFails i = true) /\
  (out.1 = Status 204 <-> forall i, (i < length batches)%nat -> addFails i = false) /\
  (forall x, x ∈ q -> x ∈ out.2) /\
  (forall i b t, batches !! i = Some b -> addFails i = false -> t ∈ b ->
                 ("asyncRollup"%string, t) ∈ out.2).
Proof.
  intros Hok ts batches out.
  destruct (dispatchLoop_batches uncompress json_Marshal gz src (mkLoop [] [] 0))
    as [Hrun Hbatches]; [simpl; lia|done|].
  cbn [launched tasks app] in Hbatches. fold ts in Hbatches. fold batches in Hbatches.
  assert (Hout : out = let r := runBatches addFails "asyncRollup" 0 batches q in
                       (if r.1 then Status 500 else Status 204, r.2)).
  { unfold out, handleUpdateControllers. by rewrite Hrun, Hbatches. }
  destruct (runBatches_spec addFails "asyncRollup" batches 0 q) as (Hst & Hq & Hb).
  cbn [Nat.add] in Hst, Hb.
  split; [exact Hbatches|]. split; [by apply chunks_concat; lia|].
  split; [intros i b; by apply chunks_shape; lia|].
  split; [intros H250; unfold batches; by rewrite chunks_sizes, H250|].
  rewrite Hout. cbn [fst snd].
  split; [|split; [|split; [exact Hq|exact Hb]]].
  - rewrite <- Hst. by destruct (runBatches addFails "asyncRollup" 0 batches q).1.
  - split.
    + intros H204 i Hi. destruct (addFails i) eqn:Hf; [|done].
      assert ((runBatches addFails "asyncRollup" 0 batches q).1 = true) as Ht
        by (apply Hst; by exists i).
      by rewrite Ht in H204.
    + intros Hall.
      destruct (runBatches addFails "asyncRollup" 0 batches q).1 eqn:Hr; [|done].
      destruct (proj1 Hst eq_refl) as (i & Hi & Hf). rewrite (Hall i Hi) in Hf. done.
Qed.

(** 250 records, the enqueue of the second batch failing: three batches
    of 100, 100 and 50, the reply 500, and the first task of the third
    batch in the queue. *)
Lemma redrive_batches_witness :
  let ts := survivors DispatchSample.codec DispatchSample.marshal DispatchSample.codec
                      DispatchSample.source in
  let out := handleUpdateControllers DispatchSample.codec DispatchSample.marshal
               DispatchSample.codec DispatchSample.secondFails [] DispatchSample.source in
  length <$> chunks (length ts) 100 ts = [100; 100; 50]%nat /\
  out.1 = Status 500 /\
  ("asyncRollup"%string, mkTask "/batch/asyncRollup" "payload") ∈ out.2.
Proof.
  intros ts out.
  destruct (redrive_batches DispatchSample.codec DispatchSample.marshal DispatchSample.codec
              DispatchSample.secondFails [] DispatchSample.source eq_refl)
    as (_ & _ & _ & H250 & H500 & _ & _ & Hin).
  split; [apply H250; vm_compute; reflexivity|].
  split.
  - apply H500. exists 1%nat. split; [vm_compute; lia|reflexivity].
  - apply (Hin 2%nat (repeat (mkTask "/batch/asyncRollup" "payload") 50)).
    + vm_compute; reflexivity.
    + reflexivity.
    + apply list_elem_of_here.
Defined.

(** ** The identity migration *)

Lemma putTunes_other (ups : list TuneResults) :
  forall (store : gmap string TuneResults) (k : string),
    k ∉ tr_Key <$> ups -> putTunes ups store !! k = store !! k.
Proof.
  unfold putTunes. induction ups as [|u ups IH]; intros store k Hk; [done|].
  cbn [foldl]. rewrite fmap_cons in Hk. apply not_elem_of_cons in Hk as [Hne Hk].
  rewrite IH by done. by rewrite lookup_insert_ne.
Qed.

Section MigrationFacts.

Variable uncompress : string -> option string.
Variable compress : string -> option string.
Variable json_Decode : string -> option (gmap string json).
Variable json_Marshal : gmap string json -> option string.

Local Abbreviation rewriteOne' := (rewriteOne uncompress compress json_Decode json_Marshal).
Local Abbreviation rewriteLoop' := (rewriteLoop uncompress compress json_Decode json_Marshal).

Lemma rewriteOne_Some (x x' : TuneResults) :
  rewriteOne' x = Some x' ->
  String.length (tr_UUID x) ≠ 64%nat /\
  exists raw m j,
    uncompress (tr_Data x) = Some raw /\
    json_Decode raw = Some m /\
    json_Marshal (<["uniqueId" := JString (sha256hex (tr_UUID x))]> m) = Some j /\
    compress j = Some (tr_Data x') /\
    x' = withData (withUUID x (sha256hex (tr_UUID x))) (tr_Data x').
Proof.
  unfold rewriteOne.
  destruct (decide (String.length (tr_UUID x) = 64%nat)) as [|Hlen]; [done|].
  destruct (uncompress (tr_Data x)) as [raw|] eqn:Hraw; [|done].
  destruct (json_Decode raw) as [m|] eqn:Hm; [|done].
  destruct (json_Marshal _) as [j|] eqn:Hj; [|done].
  destruct (compress j) as [z|] eqn:Hz; [|done].
  intros [= <-]. split; [done|]. by exists raw, m, j.
Qed.





Lemma rewriteLoop_app (l1 l2 : list TuneResults) :
  rewriteLoop' (l1 ++ l2) = rewriteLoop' l1 ++ rewriteLoop' l2.
Proof.
  induction l1 as [|x l1 IH]; [done|]. cbn [app rewriteLoop].
  destruct (rewriteOne' x); by rewrite IH.
Qed.

Lemma rewriteLoop_keys_sublist (res : list TuneResults) :
  sublist (tr_Key <$> rewriteLoop' res) (tr_Key <$> res).
Proof.
  induction res as [|x res IH]; [constructor|]. cbn [rewriteLoop].
  destruct (rewriteOne' x) as [x'|] eqn:Hx.
  - apply rewriteOne_Some in Hx as (_ & _ & _ & _ & _ & _ & _ & _ & Hx').
    rewrite !fmap_cons. replace (tr_Key x') with (tr_Key x) by (by rewrite Hx').
    by apply sublist_skip.
  - rewrite fmap_cons. by apply sublist_cons.
Qed.




End MigrationFacts.


(** ** The reliable ingest *)

Lemma prepareTune_inr (json_DecodeRaw : string -> option string)
    (json_UnmarshalFields : string -> option (option tuneFields))
    (sscanLatLon : string -> float * float) (compress : string -> option string)
    (env : IngestEnv) (r : Request) (t : TuneResults) :
  prepareTune json_DecodeRaw json_UnmarshalFields sscanLatLon compress env r = inr t ->
  exists rawJson fields z,
    json_DecodeRaw (r_Body r) = Some rawJson /\
    json_UnmarshalFields rawJson = Some (Some fields) /\
    compress rawJson = Some z /\
    t = mkTune "" z (now env) (r_RemoteAddr r) (r_Country r) (r_Region r) (r_City r)
               (f_UUID fields) (f_Board fields) (f_Tau fields)
               (sscanLatLon (r_Citylatlong r)).1 (sscanLatLon (r_Citylatlong r)).2.
Proof.
  unfold prepareTune.
  destruct (json_DecodeRaw (r_Body r)) as [rawJson|] eqn:Hraw; [|done].
  destruct (json_UnmarshalFields rawJson) as [[fields|]|] eqn:Hf; [|done|done].
  cbn [tr_Data]. destruct (compress rawJson) as [z|] eqn:Hz; [|done].
  intros [= <-]. by exists rawJson, fields, z.
Qed.

(** C6. Let [t] be the record prepared from the request and [buf] its
    serialization; [t] holds the envelope (time, address, geolocation,
    the fields pulled from the document) and the compressed payload. When
    [datastore.Put] fails and the queue accepts the task, the task
    [/asyncStoreTune] carrying [buf] is appended to the queue
    [asyncstore], the store is untouched and the reply is 201 without a
    [Location]; when the queue fails too the reply is 500 and nothing
    changes; when [datastore.Put] succeeds the reply is 201 with the
    [Location] of the new key. The consumer, on a payload that decodes to
    [t], does nothing but the same [datastore.Put] of [t]: it stores [t]
    itself under the key the datastore allocates and replies 201, or
    replies 500 and changes nothing when that write fails. *)
Theorem ingest_fallback (json_DecodeRaw : string -> option string)
    (json_UnmarshalFields : string -> option (option tuneFields))
    (sscanLatLon : string -> float * float) (compress : string -> option string)
    (gobEncode : TuneResults -> option string) (gobDecode : string -> option TuneResults)
    (env : IngestEnv) (w : World) (r : Request) (t : TuneResults) (buf : string) :
  prepareTune json_DecodeRaw json_UnmarshalFields sscanLatLon compress env r = inr t ->
  gobEncode t = Some buf ->
  let store := handleStoreTune json_DecodeRaw json_UnmarshalFields sscanLatLon compress
                               gobEncode env w r in
  (exists rawJson fields z,
      json_DecodeRaw (r_Body r) = Some rawJson /\
      json_UnmarshalFields rawJson = Some (Some fields) /\
      compress rawJson = Some z /\
      t = mkTune "" z (now env) (r_RemoteAddr r) (r_Country r) (r_Region r) (r_City r)
                 (f_UUID fields) (f_Board fields) (f_Tau fields)
                 (sscanLatLon (r_Citylatlong r)).1 (sscanLatLon (r_Citylatlong r)).2) /\
  (storeDown env = true -> queueDown env = false ->
   store = (Returned (mkReply 201 None),
            mkWorld (tunes w)
                    (queue w ++ [("asyncstore"%string, mkTask "/asyncStoreTune" buf)]))) /\
  (storeDown env = true -> queueDown env = true ->
   store = (Returned (mkReply 500 None), w)) /\
  (storeDown env = false ->
   store = (Returned
              (mkReply 201
                 (Some ("https://dronin-autotown.appspot.com/at/tune/" +:+ newKey env))),
            mkWorld (<[newKey env := t]> (tunes w)) (queue w))) /\
  (gobDecode buf = Some t ->
   forall env' w',
     handleAsyncStoreTune gobDecode env' w' buf =
       match datastore_Put env' w' t with
       | None => (mkReply 500 None, w')
       | Some (_, w'') => (mkReply 201 None, w'')
       end /\
     (storeDown env' = false ->
      handleAsyncStoreTune gobDecode env' w' buf =
        (mkReply 201 None, mkWorld (<[newKey env' := t]> (tunes w')) (queue w'))) /\
     (storeDown env' = true ->
      handleAsyncStoreTune gobDecode env' w' buf = (mkReply 500 None, w'))).
Proof.
  intros Hprep Henc store. split; [exact (prepareTune_inr _ _ _ _ _ _ _ Hprep)|].
  unfold store, handleStoreTune. rewrite Hprep, Henc.
  unfold datastore_Put, taskqueue_Add.
  split; [|split; [|split]].
  - intros -> ->. reflexivity.
  - intros -> ->. reflexivity.
  - intros ->. reflexivity.
  - intros Hdec env' w'. unfold handleAsyncStoreTune, datastore_Put. rewrite Hdec.
    split; [by destruct (storeDown env')|]. split; intros ->; reflexivity.
Qed.

(** The store is down and the queue is up: the serialized record is
    queued and the reply is 201 without a [Location]; the consumer, the
    store being up again, writes that same record. *)
Lemma ingest_fallback_witness :
  handleStoreTune IngestSample.codec IngestSample.fieldsOf IngestSample.latLon
    IngestSample.codec IngestSample.encode IngestSample.env IngestSample.world
    IngestSample.request =
  (Returned (mkReply 201 None),
   mkWorld ∅ [("asyncstore"%string, mkTask "/asyncStoreTune" "id-8|{}")]) /\
  handleAsyncStoreTune IngestSample.decodeGob IngestSample.envLater
    (mkWorld ∅ [("asyncstore"%string, mkTask "/asyncStoreTune" "id-8|{}")]) "id-8|{}" =
  (mkReply 201 None,
   mkWorld {[ "key-9" := IngestSample.tune ]}
           [("asyncstore"%string, mkTask "/asyncStoreTune" "id-8|{}")]).
Proof.
  destruct (ingest_fallback IngestSample.codec IngestSample.fieldsOf IngestSample.latLon
              IngestSample.codec IngestSample.encode IngestSample.decodeGob
              IngestSample.env IngestSample.world IngestSample.request
              IngestSample.tune "id-8|{}" eq_refl eq_refl)
    as (_ & Hdefer & _ & _ & Hconsume).
  split.
  - exact (Hdefer eq_refl eq_refl).
  - destruct (Hconsume eq_refl IngestSample.envLater
                (mkWorld ∅ [("asyncstore"%string, mkTask "/asyncStoreTune" "id-8|{}")]))
      as (_ & Hup & _).
    exact (Hup eq_refl).
Defined.

(** * Further properties of the handlers *)

(** ** Board names *)

Lemma canonicalBoard_again (b : string) :
  canonicalBoard (canonicalBoard b) = canonicalBoard b.
Proof.
  unfold canonicalBoard.
  destruct (decide (b = "CopterControl")); [done|].
  destruct (decide (b = "Revolution")); [done|].
  destruct (decide (b = "RevoMini")); [done|].
  destruct (decide (b = "CopterControl")); [done|].
  destruct (decide (b = "Revolution")); [done|].
  by destruct (decide (b = "RevoMini")).
Qed.

(** X1. [canonicalBoard] is idempotent and its result is never one of the
    three legacy names, so applying it again, as the second loop of
    [asyncRollup] and the export do, changes nothing. *)
Theorem canonicalBoard_idempotent (b : string) :
  canonicalBoard (canonicalBoard b) = canonicalBoard b /\
  canonicalBoard b ≠ "CopterControl" /\
  canonicalBoard b ≠ "Revolution" /\
  canonicalBoard b ≠ "RevoMini".
Proof.
  split; [apply canonicalBoard_again|]. unfold canonicalBoard.
  destruct (decide (b = "CopterControl")); [by repeat split|].
  destruct (decide (b = "Revolution")); [by repeat split|].
  destruct (decide (b = "RevoMini")); [by repeat split|].
  by repeat split.
Qed.

(** ** [olderTime] as an operation *)

(** X2. [olderTime] is associative, and it is commutative as soon as one
    of its arguments is on or after 1000-01-01 UTC: folding valid
    instants gives the same result in any grouping and order. *)
Theorem olderTime_assoc_comm (a b c : Z) :
  olderTime (olderTime a b) c = olderTime a (olderTime b c) /\
  (oldest <= a \/ oldest <= b -> olderTime a b = olderTime b a).
Proof.
  split.
  - destruct (olderTime_spec a b) as [[? H1]|[[? [? H1]]|[? [? H1]]]];
      destruct (olderTime_spec b c) as [[? H2]|[[? [? H2]]|[? [? H2]]]];
      rewrite H1, H2; olderTime_cases.
  - intros Hv. olderTime_cases.
Qed.

(** ** The stored record *)

Lemma asyncRollup_no_faults (json_Unmarshal : string -> option usageRec) (fl : Faults)
    (ds : Backend) (d : asyncUsageData) (rec : usageRec) :
  json_Unmarshal (d_RawData d) = Some rec ->
  (forall k, getFails fl k = false) -> putFails fl = false ->
  (asyncRollup json_Unmarshal fl ds d).1 = None.
Proof.
  intros Hdec Hget Hput. rewrite (asyncRollup_decoded _ _ _ _ _ Hdec).
  by apply rollupRec_no_faults.
Qed.

(** X3. When the backend does not fail, two reports with valid
    timestamps that sight the same identity leave the same [Oldest] for
    it whichever is merged first. *)
Theorem oldest_order_independent (json_Unmarshal : string -> option usageRec) (fl : Faults)
    (ds : Backend) (d1 d2 : asyncUsageData) (rec1 rec2 : usageRec) (k : string) :
  json_Unmarshal (d_RawData d1) = Some rec1 ->
  json_Unmarshal (d_RawData d2) = Some rec2 ->
  (forall k', getFails fl k' = false) -> putFails fl = false ->
  sights rec1 k -> sights rec2 k ->
  oldest <= d_Timestamp d1 -> oldest <= d_Timestamp d2 ->
  exists v12 v21,
    entities (asyncRollup json_Unmarshal fl (asyncRollup json_Unmarshal fl ds d1).2 d2).2
      !! k = Some v12 /\
    entities (asyncRollup json_Unmarshal fl (asyncRollup json_Unmarshal fl ds d2).2 d1).2
      !! k = Some v21 /\
    fc_Oldest v12 = fc_Oldest v21.
Proof.
  intros Hdec1 Hdec2 Hget Hput Hs1 Hs2 Hv1 Hv2.
  pose proof (fun s => asyncRollup_no_faults json_Unmarshal fl s d1 rec1 Hdec1 Hget Hput) as Hok1.
  pose proof (fun s => asyncRollup_no_faults json_Unmarshal fl s d2 rec2 Hdec2 Hget Hput) as Hok2.
  destruct (asyncRollup_sighted _ _ ds _ _ _ Hdec1 (Hok1 ds) Hs1) as (b1 & _ & Ha).
  destruct (asyncRollup_sighted _ _ ds _ _ _ Hdec2 (Hok2 ds) Hs2) as (b2 & _ & Hb).
  destruct (asyncRollup_sighted _ _ _ _ _ _ Hdec2 (Hok2 (asyncRollup json_Unmarshal fl ds d1).2) Hs2)
    as (b2' & _ & Hab).
  destruct (asyncRollup_sighted _ _ _ _ _ _ Hdec1 (Hok1 (asyncRollup json_Unmarshal fl ds d2).2) Hs1)
    as (b1' & _ & Hba).
  eexists _, _. split; [exact Hab|]. split; [exact Hba|].
  set (p := prevOf ds k) in *. unfold prevOf. rewrite Ha, Hb.
  cbn [default from_option id].
  rewrite !mergePrev_oldest, !mergePrev_timestamp.
  rewrite !candidate_oldest_valid, !candidate_timestamp_valid by done.
  olderTime_cases.
Qed.

Lemma oldest_order_independent_witness :
  exists v12 v21,
    entities (asyncRollup Sample.decode Sample.noFaults
                (asyncRollup Sample.decode Sample.noFaults Sample.empty Sample.dA).2
                Sample.dB).2 !! "board-1" = Some v12 /\
    entities (asyncRollup Sample.decode Sample.noFaults
                (asyncRollup Sample.decode Sample.noFaults Sample.empty Sample.dB).2
                Sample.dA).2 !! "board-1" = Some v21 /\
    fc_Oldest v12 = fc_Oldest v21.
Proof.
  apply (oldest_order_independent Sample.decode Sample.noFaults Sample.empty
           Sample.dA Sample.dB Sample.recA Sample.recB "board-1").
  - reflexivity.
  - reflexivity.
  - reflexivity.
  - reflexivity.
  - exists Sample.boardA. split; [apply list_elem_of_here | reflexivity].
  - exact sample_sights_B.
  - vm_compute; discriminate.
  - vm_compute; discriminate.
Defined.

(** X4. A rollup that returns an error, whichever it is, leaves every
    [FoundController] entity as it was: nothing is written before all
    reads succeeded, and the write is one transaction. *)
Theorem rollup_error_keeps_entities (json_Unmarshal : string -> option usageRec)
    (fl : Faults) (ds : Backend) (d : asyncUsageData) :
  (asyncRollup json_Unmarshal fl ds d).1 <> None ->
  entities (asyncRollup json_Unmarshal fl ds d).2 = entities ds.
Proof.
  unfold asyncRollup. destruct (json_Unmarshal (d_RawData d)) as [rec|]; [|done].
  apply rollupRec_error_keeps.
Qed.

Lemma rollup_error_keeps_entities_witness :
  (asyncRollup Sample.decode FaultSample.allFail Sample.afterA Sample.dB).1 = Some ErrGet /\
  entities (asyncRollup Sample.decode FaultSample.allFail Sample.afterA Sample.dB).2 =
  entities Sample.afterA.
Proof.
  split; [vm_compute; reflexivity|].
  apply (rollup_error_keeps_entities Sample.decode FaultSample.allFail Sample.afterA Sample.dB).
  vm_compute. discriminate.
Defined.

Lemma seenLoop_anonymous (bs : list usageSeenBoard) :
  (forall b, b ∈ bs -> boardUUID b = None) -> seenLoop bs = ∅.
Proof.
  intros Hall. apply map_empty. intros k.
  destruct (seenLoop bs !! k) as [b|] eqn:Hk; [|done].
  assert (is_Some (seenLoop bs !! k)) as Hs by (by eexists).
  apply seenLoop_dom in Hs as (b' & Hin & Hb'). rewrite (Hall b' Hin) in Hb'. done.
Qed.

(** X5. A report in which no sighting has a UUID or a CPU identifier
    (an empty list of sightings included) is accepted without touching
    the backend: the rollup returns [nil] and the entities and the cached
    statistics stay as they were, even while the datastore is failing. *)
Theorem rollup_without_identity (json_Unmarshal : string -> option usageRec)
    (fl : Faults) (ds : Backend) (d : asyncUsageData) (rec : usageRec) :
  json_Unmarshal (d_RawData d) = Some rec ->
  (forall b, b ∈ rec_BoardsSeen rec -> boardUUID b = None) ->
  asyncRollup json_Unmarshal fl ds d = (None, ds).
Proof.
  intros Hdec Hall. rewrite (asyncRollup_decoded _ _ _ _ _ Hdec).
  unfold rollupRec. rewrite (seenLoop_anonymous _ Hall).
  rewrite map_to_list_empty. unfold itemsLoop. cbn [foldl].
  by rewrite map_to_list_empty.
Qed.

Lemma rollup_without_identity_witness :
  asyncRollup FaultSample.decodeAnon FaultSample.allFail Sample.afterA FaultSample.dAnon =
  (None, Sample.afterA).
Proof.
  apply (rollup_without_identity FaultSample.decodeAnon FaultSample.allFail Sample.afterA
           FaultSample.dAnon FaultSample.recAnon eq_refl).
  intros b Hb. apply list_elem_of_singleton in Hb as ->. reflexivity.
Defined.

(** X6. Once every [datastore.Get] of a report that sights an identity
    has succeeded, the cached statistics snapshot is deleted, also when
    the transaction then fails and the rollup returns its error. *)
Theorem rollup_invalidates_cache (json_Unmarshal : string -> option usageRec)
    (fl : Faults) (ds : Backend) (d : asyncUsageData) (rec : usageRec) (k : string) :
  json_Unmarshal (d_RawData d) = Some rec ->
  sights rec k ->
  (forall k', sights rec k' -> getFails fl k' = false) ->
  statsCached (asyncRollup json_Unmarshal fl ds d).2 = false.
Proof.
  intros Hdec Hs Hget. rewrite (asyncRollup_decoded _ _ _ _ _ Hdec).
  unfold rollupRec.
  pose proof (items_lookup d rec) as Hit.
  set (items := itemsLoop d rec (map_to_list (seenLoop (rec_BoardsSeen rec)))) in *.
  destruct (updatesLoop fl ds (map_to_list items)) as [ups|] eqn:Hup.
  - apply updatesLoop_Some in Hup. destruct ups as [|u ups].
    + exfalso. symmetry in Hup. apply fmap_nil_inv, map_to_list_empty_iff in Hup.
      apply seenLoop_dom in Hs as [b Hb]. specialize (Hit k).
      rewrite Hup, Hb, lookup_empty in Hit. done.
    + by destruct (putFails fl).
  - exfalso. apply updatesLoop_None in Hup as ([k' v] & Hin & Hf).
    apply elem_of_map_to_list in Hin. rewrite Hit in Hin.
    apply fmap_Some in Hin as (b & Hb & _).
    rewrite Hget in Hf; [done|]. apply seenLoop_dom. by eexists.
Qed.

Lemma rollup_invalidates_cache_witness :
  statsCached Sample.empty = true /\
  (asyncRollup Sample.decode FaultSample.txFails Sample.empty Sample.dA).1 = Some ErrPut /\
  statsCached (asyncRollup Sample.decode FaultSample.txFails Sample.empty Sample.dA).2 = false.
Proof.
  split; [reflexivity|]. split; [vm_compute; reflexivity|].
  apply (rollup_invalidates_cache Sample.decode FaultSample.txFails Sample.empty Sample.dA
           Sample.recA "board-1" eq_refl).
  - exists Sample.boardA. split; [apply list_elem_of_here | reflexivity].
  - reflexivity.
Defined.

Lemma candidate_counted (d : asyncUsageData) (rec : usageRec) (k : string) (b : usageSeenBoard) :
  fc_Counted (candidate d rec k b) = false.
Proof.
  destruct (Z.lt_ge_cases 0 (d_Timestamp d)).
  - by rewrite candidate_dated.
  - by rewrite candidate_undated.
Qed.

(** X7. The [Counted] flag of a record is carried over by every rollup:
    the stored flag is the prior record's, and it is false for an
    identity that had no record. The rollup never sets and never clears
    it. *)
Theorem rollup_keeps_counted (json_Unmarshal : string -> option usageRec) (fl : Faults)
    (ds : Backend) (d : asyncUsageData) (rec : usageRec) (k : string) :
  json_Unmarshal (d_RawData d) = Some rec ->
  (asyncRollup json_Unmarshal fl ds d).1 = None ->
  sights rec k ->
  exists v, entities (asyncRollup json_Unmarshal fl ds d).2 !! k = Some v /\
            fc_Counted v = fc_Counted (prevOf ds k).
Proof.
  intros Hdec Hok Hs.
  destruct (asyncRollup_sighted _ _ _ _ _ _ Hdec Hok Hs) as (b & Hb & Hv).
  eexists. split; [exact Hv|].
  change (fc_Counted (candidate d rec k b) || fc_Counted (prevOf ds k) =
          fc_Counted (prevOf ds k)).
  by rewrite candidate_counted.
Qed.

Lemma rollup_keeps_counted_witness :
  exists v,
    entities (asyncRollup Sample.decode Sample.noFaults FaultSample.countedStore Sample.dB).2
      !! "board-1" = Some v /\ fc_Counted v = true.
Proof.
  apply (rollup_keeps_counted Sample.decode Sample.noFaults FaultSample.countedStore
           Sample.dB Sample.recB "board-1" eq_refl).
  - vm_compute; reflexivity.
  - exact sample_sights_B.
Defined.

Lemma foldl_seenStep_other (bs : list usageSeenBoard) (k : string) :
  (forall b, b ∈ bs -> boardUUID b ≠ Some k) ->
  forall seen, foldl seenStep seen bs !! k = seen !! k.
Proof.
  induction bs as [|b bs IH]; intros Hne seen; [done|].
  cbn [foldl]. rewrite IH by (intros b' Hb'; apply Hne; by apply list_elem_of_further).
  unfold seenStep. destruct (boardUUID b) as [uuid|] eqn:Hb; [|done].
  apply lookup_insert_ne. intros ->. by apply (Hne b (list_elem_of_here _ _)).
Qed.

Lemma seenLoop_last (l1 l2 : list usageSeenBoard) (b : usageSeenBoard) (k : string) :
  boardUUID b = Some k ->
  (forall b', b' ∈ l2 -> boardUUID b' ≠ Some k) ->
  seenLoop (l1 ++ b :: l2) !! k = Some (withName b (canonicalBoard (b_Name b))).
Proof.
  intros Hb Hlater. unfold seenLoop. rewrite foldl_app. cbn [foldl].
  rewrite foldl_seenStep_other by done.
  unfold seenStep. rewrite Hb. apply lookup_insert_eq.
Qed.

(** X8. When several sightings of one report resolve to the same
    identity, the last one in the report decides the stored board facts:
    name (canonical), firmware hash and tag, UAVO hash and hardware
    revision are those of the last such sighting. *)
Theorem last_sighting_wins (json_Unmarshal : string -> option usageRec) (fl : Faults)
    (ds : Backend) (d : asyncUsageData) (rec : usageRec)
    (l1 l2 : list usageSeenBoard) (b : usageSeenBoard) (k : string) :
  json_Unmarshal (d_RawData d) = Some rec ->
  (asyncRollup json_Unmarshal fl ds d).1 = None ->
  rec_BoardsSeen rec = l1 ++ b :: l2 ->
  boardUUID b = Some k ->
  (forall b', b' ∈ l2 -> boardUUID b' ≠ Some k) ->
  0 < d_Timestamp d ->
  exists v,
    entities (asyncRollup json_Unmarshal fl ds d).2 !! k = Some v /\
    fc_Name v = canonicalBoard (b_Name b) /\
    fc_GitHash v = b_GitHash b /\ fc_GitTag v = b_GitTag b /\
    fc_UAVOHash v = b_UavoHash b /\
    fc_HardwareRev v = Z.land (b_ID b) 255.
Proof.
  intros Hdec Hok Hbs Hb Hlater Hpos.
  rewrite (asyncRollup_decoded _ _ _ _ _ Hdec) in *.
  rewrite rollupRec_lookup by done.
  rewrite Hbs, (seenLoop_last l1 l2 b k Hb Hlater).
  eexists. split; [reflexivity|].
  rewrite candidate_dated by done. cbn. rewrite canonicalBoard_again. by repeat split.
Qed.

Lemma last_sighting_wins_witness :
  exists v,
    entities (asyncRollup FaultSample.decodeTwice Sample.noFaults Sample.empty
                FaultSample.dTwice).2 !! "board-1" = Some v /\
    fc_Name v = "CC3D" /\ fc_GitHash v = "git-b" /\ fc_GitTag v = "tag-b" /\
    fc_UAVOHash v = "uavo-b" /\ fc_HardwareRev v = 1.
Proof.
  apply (last_sighting_wins FaultSample.decodeTwice Sample.noFaults Sample.empty
           FaultSample.dTwice FaultSample.recTwice
           [Sample.boardA; FaultSample.boardNeg] [] Sample.boardB "board-1").
  - reflexivity.
  - vm_compute; reflexivity.
  - reflexivity.
  - reflexivity.
  - intros b' Hb'. by apply elem_of_nil in Hb'.
  - reflexivity.
Defined.

Lemma candidate_hwrev (d : asyncUsageData) (rec : usageRec) (k : string) (b : usageSeenBoard) :
  0 <= fc_HardwareRev (candidate d rec k b) < 256.
Proof.
  destruct (Z.lt_ge_cases 0 (d_Timestamp d)).
  - rewrite candidate_dated by done. cbn.
    change 255 with (Z.ones 8). rewrite Z.land_ones by lia.
    apply Z.mod_pos_bound. lia.
  - rewrite candidate_undated by done. cbn. lia.
Qed.

(** X9. The hardware revision a rollup stores is always a byte: it lies
    between 0 and 255 whatever [ID] the client reported, a negative one
    included. *)
Theorem hardware_rev_is_a_byte (json_Unmarshal : string -> option usageRec) (fl : Faults)
    (ds : Backend) (d : asyncUsageData) (rec : usageRec) (k : string) :
  json_Unmarshal (d_RawData d) = Some rec ->
  (asyncRollup json_Unmarshal fl ds d).1 = None ->
  sights rec k ->
  exists v, entities (asyncRollup json_Unmarshal fl ds d).2 !! k = Some v /\
            0 <= fc_HardwareRev v < 256.
Proof.
  intros Hdec Hok Hs.
  destruct (asyncRollup_sighted _ _ _ _ _ _ Hdec Hok Hs) as (b & Hb & Hv).
  eexists. split; [exact Hv|].
  change (0 <= fc_HardwareRev (candidate d rec k b) < 256). apply candidate_hwrev.
Qed.

Lemma hardware_rev_is_a_byte_witness :
  b_ID FaultSample.boardNeg = -2 /\
  exists v,
    entities (asyncRollup FaultSample.decodeTwice Sample.noFaults Sample.empty
                FaultSample.dTwice).2 !! "board-2" = Some v /\
    0 <= fc_HardwareRev v < 256.
Proof.
  split; [reflexivity|].
  apply (hardware_rev_is_a_byte FaultSample.decodeTwice Sample.noFaults Sample.empty
           FaultSample.dTwice FaultSample.recTwice "board-2" eq_refl).
  - vm_compute; reflexivity.
  - exists FaultSample.boardNeg. split; [|reflexivity].
    apply list_elem_of_further, list_elem_of_here.
Defined.

(** X10. A report whose timestamp is not after the zero time (a missing
    timestamp) does not pass the guard of the second loop: the record it
    stores for a sighted identity has every current-state field empty,
    the zero [Timestamp] and [Count] 1; only [Oldest] and [Counted] are
    taken from the prior record. *)
Theorem undated_report_stores_blank (json_Unmarshal : string -> option usageRec)
    (fl : Faults) (ds : Backend) (d : asyncUsageData) (rec : usageRec) (k : string) :
  json_Unmarshal (d_RawData d) = Some rec ->
  (asyncRollup json_Unmarshal fl ds d).1 = None ->
  sights rec k ->
  d_Timestamp d <= 0 ->
  exists v,
    entities (asyncRollup json_Unmarshal fl ds d).2 !! k = Some v /\
    setCounted (setOldest v 0) false = setCount zeroFC 1 /\
    fc_Counted v = fc_Counted (prevOf ds k) /\
    fc_Oldest v =
      olderTime (olderTime (fc_Oldest (prevOf ds k)) 0) (fc_Timestamp (prevOf ds k)).
Proof.
  intros Hdec Hok Hs Hneg.
  destruct (asyncRollup_sighted _ _ _ _ _ _ Hdec Hok Hs) as (b & Hb & Hv).
  eexists. split; [exact Hv|].
  rewrite candidate_undated by done. by repeat split.
Qed.

Lemma undated_report_stores_blank_witness :
  exists v,
    entities (asyncRollup Sample.decode Sample.noFaults Sample.afterA Sample.dUndated).2
      !! "board-1" = Some v /\
    setCounted (setOldest v 0) false = setCount zeroFC 1 /\
    fc_Counted v = false /\
    fc_Oldest v = Sample.T2.
Proof.
  destruct (undated_report_stores_blank Sample.decode Sample.noFaults Sample.afterA
              Sample.dUndated Sample.recA "board-1" eq_refl)
    as (v & Hv & Hblank & Hc & Ho).
  - vm_compute; reflexivity.
  - exists Sample.boardA. split; [apply list_elem_of_here | reflexivity].
  - reflexivity.
  - exists v. split; [exact Hv|]. split; [exact Hblank|]. split.
    + rewrite Hc. vm_compute; reflexivity.
    + rewrite Ho. vm_compute; reflexivity.
Defined.

(** ** The batch dispatcher beyond full runs *)

Lemma elem_of_concat_intro (ls : list (list Task)) (b : list Task) (t : Task) :
  t ∈ b -> b ∈ ls -> t ∈ concat ls.
Proof.
  intros Ht. induction ls as [|b0 ls IH]; intros Hb; [by apply elem_of_nil in Hb|].
  cbn [concat]. apply elem_of_app. apply elem_of_cons in Hb as [->|Hb]; [by left|].
  right. by apply IH.
Qed.

Lemma runBatches_members (addFails : nat -> bool) (name : string) :
  forall (batches : list (list Task)) (k : nat) (q : TaskQueue) (x : string * Task),
    x ∈ (runBatches addFails name k batches q).2 ->
    x ∈ q \/ exists b t, b ∈ batches /\ t ∈ b /\ x = (name, t).
Proof.
  induction batches as [|b0 batches IH]; intros k q x Hx; [by left|].
  cbn [runBatches] in Hx. destruct (addFails k).
  - cbn [snd] in Hx. apply IH in Hx as [Hq|(b & t & Hb & Ht & ->)]; [by left|].
    right. exists b, t. split; [by apply list_elem_of_further|done].
  - apply IH in Hx as [Hq|(b & t & Hb & Ht & ->)].
    + apply elem_of_app in Hq as [Hq|Hq]; [by left|].
      apply list_elem_of_fmap in Hq as (t & -> & Ht).
      right. exists b0, t. split; [apply list_elem_of_here|done].
    + right. exists b, t. split; [by apply list_elem_of_further|done].
Qed.

Lemma runBatches_all_up (addFails : nat -> bool) (name : string) :
  (forall i, addFails i = false) ->
  forall (batches : list (list Task)) (k : nat) (q : TaskQueue),
    runBatches addFails name k batches q =
    (false, q ++ map (fun t => (name, t)) (concat batches)).
Proof.
  intros Hup. induction batches as [|b0 batches IH]; intros k q.
  - cbn. by rewrite app_nil_r.
  - cbn [runBatches concat]. rewrite Hup, IH, map_app. by rewrite <- app_assoc.
Qed.

Lemma sublist_concat {A : Type} (l1 l2 : list (list A)) :
  l1 `sublist_of` l2 -> concat l1 `sublist_of` concat l2.
Proof.
  induction 1 as [|b l1 l2 _ IH|b l1 l2 _ IH]; cbn [concat].
  - constructor.
  - by apply sublist_app.
  - by apply sublist_inserts_l.
Qed.

(** The queue after the batches is the queue before, followed by the
    tasks of the batches whose enqueue did not fail. *)
Lemma runBatches_added (addFails : nat -> bool) (name : string) :
  forall (batches : list (list Task)) (k : nat) (q : TaskQueue),
    exists kept,
      kept `sublist_of` batches /\
      (runBatches addFails name k batches q).2 =
        q ++ map (fun t => (name, t)) (concat kept).
Proof.
  induction batches as [|b0 batches IH]; intros k q.
  - exists []. split; [constructor|]. cbn. by rewrite app_nil_r.
  - cbn [runBatches]. destruct (addFails k); cbn [snd].
    + destruct (IH (S k) q) as (kept & Hsub & Hq).
      exists kept. split; [by apply sublist_cons|exact Hq].
    + destruct (IH (S k) (q ++ map (fun t => (name, t)) b0)) as (kept & Hsub & Hq).
      exists (b0 :: kept). split; [by apply sublist_skip|].
      rewrite Hq. cbn [concat]. by rewrite map_app, <- app_assoc.
Qed.

Section DispatcherEdges.

Variable uncompress : string -> option string.
Variable json_Marshal : asyncUsageData -> option string.
Variable gz : string -> option string.

Local Abbreviation prepareTask' := (prepareTask uncompress json_Marshal gz).
Local Abbreviation dispatchLoop' := (dispatchLoop uncompress json_Marshal gz).
Local Abbreviation survivors' := (survivors uncompress json_Marshal gz).

Lemma prepareTask_path (st : UsageStat) (t : Task) :
  prepareTask' st = Some t -> Path t = "/batch/asyncRollup".
Proof.
  unfold prepareTask. destruct (uncompress (st_Data st)); [|done].
  destruct (json_Marshal _); [|done]. destruct (gz _); [|done]. by intros [= <-].
Qed.

Lemma survivors_source (src : list nextResult) (t : Task) :
  t ∈ survivors' src -> exists st, NextOk st ∈ src /\ prepareTask' st = Some t.
Proof.
  induction src as [|[st|] src IH]; cbn [survivors].
  - intros H. by apply elem_of_nil in H.
  - destruct (prepareTask' st) as [t0|] eqn:Hst.
    + intros [->|Hin]%elem_of_cons.
      * exists st. split; [apply list_elem_of_here|done].
      * destruct (IH Hin) as (st' & Hin' & Hp). exists st'.
        split; [by apply list_elem_of_further|done].
    + intros Hin. destruct (IH Hin) as (st' & Hin' & Hp). exists st'.
      split; [by apply list_elem_of_further|done].
  - intros H. by apply elem_of_nil in H.
Qed.

(** The loop keeps full batches in [launched] and fewer than 100 tasks in
    [tasks], and loses no task and invents none. *)
Lemma dispatchLoop_state (src : list nextResult) :
  forall s,
    Forall (fun b => length b = 100%nat) (launched s) ->
    (length (tasks s) < 100)%nat ->
    Forall (fun b => length b = 100%nat) (launched (dispatchLoop' src s).2) /\
    (length (tasks (dispatchLoop' src s).2) < 100)%nat /\
    concat (launched (dispatchLoop' src s).2) ++ tasks (dispatchLoop' src s).2 =
    concat (launched s) ++ tasks s ++ survivors' src.
Proof.
  induction src as [|[st|] src IH]; intros s Hfull Hopen; cbn [dispatchLoop survivors snd].
  - by rewrite app_nil_r.
  - destruct (prepareTask' st) as [t|]; [|by apply IH].
    destruct (decide (length (tasks s ++ [t]) = 100%nat)) as [H100|Hnot].
    + destruct (IH (mkLoop [] (launched s ++ [tasks s ++ [t]]) (total s + 1)))
        as (H1 & H2 & H3).
      * cbn [launched]. apply Forall_app. split; [done|]. by constructor.
      * cbn [tasks length]. lia.
      * split; [exact H1|]. split; [exact H2|]. rewrite H3. cbn [launched tasks].
        rewrite concat_app. cbn [concat app]. rewrite app_nil_r.
        by rewrite <- !app_assoc.
    + destruct (IH (mkLoop (tasks s ++ [t]) (launched s) (total s + 1)))
        as (H1 & H2 & H3).
      * done.
      * cbn [tasks]. rewrite length_app in *. cbn [length] in *. lia.
      * split; [exact H1|]. split; [exact H2|]. rewrite H3. cbn [launched tasks].
        by rewrite <- !app_assoc.
  - by rewrite app_nil_r.
Qed.

Lemma dispatchLoop_interrupted (pre post : list nextResult) :
  noIterErr pre = true ->
  forall s,
    dispatchLoop' (pre ++ NextErr :: post) s = (true, (dispatchLoop' pre s).2).
Proof.
  induction pre as [|[st|] pre IH]; intros Hok s; [done| |done].
  cbn [app dispatchLoop noIterErr] in *.
  destruct (prepareTask' st) as [t|]; [|by apply IH].
  destruct (decide (length (tasks s ++ [t]) = 100%nat)); by apply IH.
Qed.

Lemma survivors_interrupted (pre post : list nextResult) :
  survivors' (pre ++ NextErr :: post) = survivors' pre.
Proof.
  induction pre as [|[st|] pre IH]; [done| |done].
  cbn [app survivors]. by rewrite IH.
Qed.

(** X11. When the iterator returns an error the handler panics without
    replying. The batches of 100 completed before the error have been
    handed to the queue and stay there; the records read after the last
    full batch (fewer than 100) are never enqueued, and the records after
    the error are never read. *)
Theorem redrive_interrupted (addFails : nat -> bool) (q : TaskQueue)
    (pre post : list nextResult) :
  noIterErr pre = true ->
  exists full rest,
    survivors' pre = concat full ++ rest /\
    Forall (fun b => length b = 100%nat) full /\
    (length rest < 100)%nat /\
    handleUpdateControllers uncompress json_Marshal gz addFails q (pre ++ NextErr :: post) =
    (Panicked, (runBatches addFails "asyncRollup" 0 full q).2).
Proof.
  intros Hok.
  destruct (dispatchLoop_state pre (mkLoop [] [] 0)) as (Hfull & Hopen & Hall);
    [constructor|cbn; lia|].
  exists (launched (dispatchLoop' pre (mkLoop [] [] 0)).2),
         (tasks (dispatchLoop' pre (mkLoop [] [] 0)).2).
  split; [by rewrite Hall|]. split; [exact Hfull|]. split; [exact Hopen|].
  unfold handleUpdateControllers. by rewrite dispatchLoop_interrupted.
Qed.

(** X12. When no stored record survives serialization (no record at all
    included) nothing is handed to the queue and the reply is 204, also
    while the queue is failing. *)
Theorem redrive_nothing (addFails : nat -> bool) (q : TaskQueue) (src : list nextResult) :
  noIterErr src = true ->
  survivors' src = [] ->
  handleUpdateControllers uncompress json_Marshal gz addFails q src = (Status 204, q).
Proof.
  intros Hok Hnone.
  destruct (dispatchLoop_batches uncompress json_Marshal gz src (mkLoop [] [] 0))
    as [Hrun Hbatches]; [cbn; lia|done|].
  unfold handleUpdateControllers. rewrite Hrun, Hbatches, Hnone. reflexivity.
Qed.

(** X13. Whatever the source yields and whatever fails, the tasks that
    were in the queue stay, and the queue grows only by tasks built from
    records that were read, none of them enqueued twice: the queue after
    the run holds the tasks it held before and, in the queue
    [asyncRollup], tasks drawn from the surviving records, each at most
    as often as it was read. Every task in the queue after the run was
    there before, or goes to [asyncRollup], has the path
    [/batch/asyncRollup] and is the serialization of a stored record that
    was read. Nothing is said about the order, which the concurrent
    enqueues do not determine. *)
Theorem redrive_enqueues_only_records (addFails : nat -> bool) (q : TaskQueue)
    (src : list nextResult) :
  q ⊆+ (handleUpdateControllers uncompress json_Marshal gz addFails q src).2 /\
  (exists added,
     (handleUpdateControllers uncompress json_Marshal gz addFails q src).2 ≡ₚ
       q ++ map (fun t => ("asyncRollup"%string, t)) added /\
     added ⊆+ survivors' src) /\
  (forall x,
     x ∈ (handleUpdateControllers uncompress json_Marshal gz addFails q src).2 ->
     x ∈ q \/
     exists st, NextOk st ∈ src /\ prepareTask' st = Some x.2 /\
                x.1 = "asyncRollup" /\ Path x.2 = "/batch/asyncRollup").
Proof.
  assert (Hadded : exists added,
             (handleUpdateControllers uncompress json_Marshal gz addFails q src).2 =
               q ++ map (fun t => ("asyncRollup"%string, t)) added /\
             added `sublist_of` survivors' src).
  { destruct (dispatchLoop_state src (mkLoop [] [] 0)) as (_ & _ & Hall);
      [constructor|cbn; lia|].
    cbn [launched tasks concat app] in Hall.
    assert (Hb : exists batches,
               (handleUpdateControllers uncompress json_Marshal gz addFails q src).2 =
                 (runBatches addFails "asyncRollup" 0 batches q).2 /\
               concat batches `sublist_of` survivors' src).
    { unfold handleUpdateControllers. cbn zeta.
      destruct (dispatchLoop' src (mkLoop [] [] 0)).1.
      - exists (launched (dispatchLoop' src (mkLoop [] [] 0)).2). split; [done|].
        rewrite <- Hall. by apply sublist_inserts_r.
      - exists (batchesOf (dispatchLoop' src (mkLoop [] [] 0)).2). split; [done|].
        rewrite <- Hall. unfold batchesOf.
        destruct (tasks (dispatchLoop' src (mkLoop [] [] 0)).2) as [|t0 ts].
        + by rewrite app_nil_r.
        + rewrite concat_app. cbn [concat]. by rewrite app_nil_r. }
    destruct Hb as (batches & Hout & Hsub).
    destruct (runBatches_added addFails "asyncRollup" batches 0 q)
      as (kept & Hkept & Hres).
    exists (concat kept). split; [by rewrite Hout|].
    etrans; [by apply sublist_concat|exact Hsub]. }
  destruct Hadded as (added & Hout & Hsub).
  split; [rewrite Hout; by apply submseteq_inserts_r|].
  split; [exists added; split; [by rewrite Hout|by apply sublist_submseteq]|].
  clear added Hout Hsub. intros x Hx.
  destruct (dispatchLoop_state src (mkLoop [] [] 0)) as (_ & _ & Hall);
    [constructor|cbn; lia|].
  cbn [launched tasks concat app] in Hall.
  assert (Hfrom : forall b t,
             b ∈ batchesOf (dispatchLoop' src (mkLoop [] [] 0)).2 \/
             b ∈ launched (dispatchLoop' src (mkLoop [] [] 0)).2 ->
             t ∈ b -> t ∈ survivors' src).
  { intros b t Hb Ht. rewrite <- Hall. apply elem_of_app.
    unfold batchesOf in Hb.
    destruct (tasks (dispatchLoop' src (mkLoop [] [] 0)).2) as [|t0 ts] eqn:Hts.
    - left. apply (elem_of_concat_intro _ b); [done|]. by destruct Hb.
    - destruct Hb as [Hb|Hb].
      + apply elem_of_app in Hb as [Hb|Hb].
        * left. by apply (elem_of_concat_intro _ b).
        * apply list_elem_of_singleton in Hb as ->. by right.
      + left. by apply (elem_of_concat_intro _ b). }
  unfold handleUpdateControllers in Hx.
  assert (x ∈ q \/ exists t, t ∈ survivors' src /\ x = ("asyncRollup"%string, t))
    as [Hq|(t & Ht & ->)].
  { destruct (dispatchLoop' src (mkLoop [] [] 0)).1; cbn [snd] in Hx;
      apply runBatches_members in Hx as [Hq|(b & t & Hb & Ht & ->)];
      try (by left); right; exists t; split; try done;
      eapply Hfrom; eauto. }
  - by left.
  - right. destruct (survivors_source src t Ht) as (st & Hin & Hp).
    exists st. cbn [fst snd]. repeat split; try done. by apply (prepareTask_path st).
Qed.

(** X14. When the iteration ends normally and no enqueue fails, the
    reply is 204 and the queue holds what it held and one task per
    surviving record, each exactly as often as it was read. The order in
    which the concurrent enqueues land is not determined, so the queue is
    given up to permutation. *)
Theorem redrive_enqueues_each_once (addFails : nat -> bool) (q : TaskQueue)
    (src : list nextResult) :
  noIterErr src = true ->
  (forall i, addFails i = false) ->
  (handleUpdateControllers uncompress json_Marshal gz addFails q src).1 = Status 204 /\
  (handleUpdateControllers uncompress json_Marshal gz addFails q src).2 ≡ₚ
    q ++ map (fun t => ("asyncRollup"%string, t)) (survivors' src).
Proof.
  intros Hok Hup.
  destruct (dispatchLoop_batches uncompress json_Marshal gz src (mkLoop [] [] 0))
    as [Hrun Hbatches]; [cbn; lia|done|].
  unfold handleUpdateControllers. rewrite Hrun, Hbatches.
  cbn [launched tasks app]. rewrite runBatches_all_up by done. cbn [fst snd].
  by rewrite chunks_concat by lia.
Qed.

End DispatcherEdges.

Lemma redrive_interrupted_witness :
  exists full rest,
    survivors DispatchSample.codec DispatchSample.marshal DispatchSample.codec
              (repeat (NextOk DispatchSample.stat) 120) = concat full ++ rest /\
    Forall (fun b => length b = 100%nat) full /\
    (length rest < 100)%nat /\
    handleUpdateControllers DispatchSample.codec DispatchSample.marshal DispatchSample.codec
      DispatchFaults.queueUp [] DispatchFaults.interrupted =
    (Panicked, (runBatches DispatchFaults.queueUp "asyncRollup" 0 full []).2).
Proof.
  apply (redrive_interrupted DispatchSample.codec DispatchSample.marshal DispatchSample.codec
           DispatchFaults.queueUp [] (repeat (NextOk DispatchSample.stat) 120)
           [NextOk DispatchSample.stat]).
  vm_compute; reflexivity.
Defined.

Lemma redrive_nothing_witness :
  handleUpdateControllers DispatchFaults.broken DispatchSample.marshal DispatchSample.codec
    DispatchFaults.queueDown [] DispatchSample.source = (Status 204, []).
Proof.
  apply (redrive_nothing DispatchFaults.broken DispatchSample.marshal DispatchSample.codec
           DispatchFaults.queueDown [] DispatchSample.source).
  - vm_compute; reflexivity.
  - vm_compute; reflexivity.
Defined.

(** A task of another queue stays while one record is enqueued. *)
Lemma redrive_enqueues_only_records_witness :
  [("mail"%string, DispatchFaults.task)] ⊆+
    (handleUpdateControllers DispatchSample.codec DispatchSample.marshal
       DispatchSample.codec DispatchFaults.queueUp [("mail"%string, DispatchFaults.task)]
       [NextOk DispatchSample.stat]).2 /\
  (("asyncRollup"%string, DispatchFaults.task) ∈ [("mail"%string, DispatchFaults.task)] \/
   exists st,
     NextOk st ∈ [NextOk DispatchSample.stat] /\
     prepareTask DispatchSample.codec DispatchSample.marshal DispatchSample.codec st =
       Some DispatchFaults.task /\
     "asyncRollup"%string = "asyncRollup"%string /\
     Path DispatchFaults.task = "/batch/asyncRollup"%string).
Proof.
  destruct (redrive_enqueues_only_records DispatchSample.codec DispatchSample.marshal
              DispatchSample.codec DispatchFaults.queueUp
              [("mail"%string, DispatchFaults.task)] [NextOk DispatchSample.stat])
    as (Hkeep & _ & Hmem).
  split; [exact Hkeep|].
  apply (Hmem ("asyncRollup"%string, DispatchFaults.task)).
  apply list_elem_of_further, list_elem_of_here.
Defined.

(** 100 records and one more, of another payload: two batches, 101
    tasks. *)
Lemma redrive_enqueues_each_once_witness :
  (handleUpdateControllers DispatchSample.codec DispatchSample.marshal DispatchSample.codec
     DispatchFaults.queueUp [] DispatchFaults.twoBatches).1 = Status 204 /\
  (handleUpdateControllers DispatchSample.codec DispatchSample.marshal DispatchSample.codec
     DispatchFaults.queueUp [] DispatchFaults.twoBatches).2 ≡ₚ
    map (fun t => ("asyncRollup"%string, t))
        (repeat DispatchFaults.task 100 ++ [DispatchFaults.task2]).
Proof.
  apply (redrive_enqueues_each_once DispatchSample.codec DispatchSample.marshal
           DispatchSample.codec DispatchFaults.queueUp [] DispatchFaults.twoBatches).
  - reflexivity.
  - reflexivity.
Defined.

(** ** The identity migration beyond single records *)

Section MigrationEdges.

Variable uncompress : string -> option string.
Variable compress : string -> option string.
Variable json_Decode : string -> option (gmap string json).
Variable json_Marshal : gmap string json -> option string.

Local Abbreviation rewriteOne' := (rewriteOne uncompress compress json_Decode json_Marshal).
Local Abbreviation rewriteLoop' := (rewriteLoop uncompress compress json_Decode json_Marshal).
Local Abbreviation handleRewriteUUIDs' :=
  (handleRewriteUUIDs uncompress compress json_Decode json_Marshal).

(** X15. The migration changes nothing but the identity and the payload
    of a record it rewrites: key, timestamp, address, geolocation, board
    and tau are kept. It changes no entity whose key is not among the
    fetched records, and none at all when the fetch fails. *)
Theorem migration_frame :
  (forall x x',
      rewriteOne' x = Some x' ->
      tr_Key x' = tr_Key x /\ tr_Timestamp x' = tr_Timestamp x /\
      tr_Addr x' = tr_Addr x /\ tr_Country x' = tr_Country x /\
      tr_Region x' = tr_Region x /\ tr_City x' = tr_City x /\
      tr_Board x' = tr_Board x /\ tr_Tau x' = tr_Tau x /\
      tr_Lat x' = tr_Lat x /\ tr_Lon x' = tr_Lon x) /\
  (forall res txFails store k,
      k ∉ tr_Key <$> res ->
      (handleRewriteUUIDs' (Some res) txFails store).2 !! k = store !! k) /\
  (forall txFails store, handleRewriteUUIDs' None txFails store = (500, store)).
Proof.
  split; [|split].
  - intros x x' Hx.
    apply rewriteOne_Some in Hx as (_ & _ & _ & _ & _ & _ & _ & _ & ->).
    by repeat split.
  - intros res txFails store k Hk. unfold handleRewriteUUIDs.
    destruct (rewriteLoop' res) as [|u ups] eqn:Hups; [done|].
    destruct txFails; [done|]. cbn [snd]. apply putTunes_other.
    rewrite <- Hups. intros Hin. apply Hk.
    by apply (elem_of_sublist _ _ _ Hin
                (rewriteLoop_keys_sublist uncompress compress json_Decode json_Marshal res)).
  - done.
Qed.

(** X16. A fetched record whose payload does not uncompress or does not
    decode is skipped and does not block the batch: the other records are
    rewritten as if it had not been fetched. *)
Theorem migration_skips_bad_record (l1 l2 : list TuneResults) (x : TuneResults) :
  uncompress (tr_Data x) = None \/
    (exists raw, uncompress (tr_Data x) = Some raw /\ json_Decode raw = None) ->
  rewriteLoop' (l1 ++ x :: l2) = rewriteLoop' (l1 ++ l2).
Proof.
  intros Hbad. rewrite !rewriteLoop_app. f_equal. cbn [rewriteLoop].
  assert (rewriteOne' x = None) as ->; [|done].
  unfold rewriteOne. destruct (decide (String.length (tr_UUID x) = 64%nat)); [done|].
  destruct Hbad as [->|(raw & -> & ->)]; done.
Qed.


End MigrationEdges.

Lemma migration_skips_bad_record_witness :
  rewriteLoop DispatchFaults.broken MigrationSample.codec MigrationSample.decodeDoc
    MigrationSample.marshalDoc ([] ++ MigrationSample.legacyTune :: []) =
  rewriteLoop DispatchFaults.broken MigrationSample.codec MigrationSample.decodeDoc
    MigrationSample.marshalDoc ([] ++ []).
Proof.
  apply (migration_skips_bad_record DispatchFaults.broken MigrationSample.codec
           MigrationSample.decodeDoc MigrationSample.marshalDoc [] []
           MigrationSample.legacyTune).
  left. reflexivity.
Defined.


(** ** The reliable ingest beyond the fallback *)

Section IngestEdges.

Variable json_DecodeRaw : string -> option string.
Variable json_UnmarshalFields : string -> option (option tuneFields).
Variable sscanLatLon : string -> float * float.
Variable compress : string -> option string.
Variable gobEncode : TuneResults -> option string.
Variable gobDecode : string -> option TuneResults.

Local Abbreviation prepareTune' :=
  (prepareTune json_DecodeRaw json_UnmarshalFields sscanLatLon compress).
Local Abbreviation handleStoreTune' :=
  (handleStoreTune json_DecodeRaw json_UnmarshalFields sscanLatLon compress gobEncode).

(** X18. A submission that is not answered with 201 leaves no trace:
    the tune store and the queue are exactly as before, and the handler
    has either replied 400 or 500 without a [Location] or panicked
    without a reply. It panics exactly when the body is a JSON document
    that leaves the pointer [fields] nil, as [null] does. *)
Theorem rejected_submission_leaves_no_trace (env : IngestEnv) (w : World) (r : Request) :
  (forall rep, (handleStoreTune' env w r).1 = Returned rep -> code rep <> 201) ->
  (handleStoreTune' env w r).2 = w /\
  ((handleStoreTune' env w r).1 = Returned (mkReply 400 None) \/
   (handleStoreTune' env w r).1 = Returned (mkReply 500 None) \/
   (handleStoreTune' env w r).1 = NilPanic) /\
  ((handleStoreTune' env w r).1 = NilPanic <->
   exists rawJson, json_DecodeRaw (r_Body r) = Some rawJson /\
                   json_UnmarshalFields rawJson = Some None).
Proof.
  unfold handleStoreTune, prepareTune, datastore_Put, taskqueue_Add.
  destruct (json_DecodeRaw (r_Body r)) as [rawJson|].
  2:{ intros _. split; [done|]. split; [by left|]. split; [done|]. by intros (? & ? & _). }
  destruct (json_UnmarshalFields rawJson) as [[fields|]|] eqn:Hf.
  3:{ intros _. split; [done|]. split; [by left|]. split; [done|].
      intros (raw & [= <-] & Hn). congruence. }
  2:{ intros _. split; [done|]. split; [by right; right|]. split; [|done].
      intros _. by exists rawJson. }
  assert (Hnot : ~ exists raw : string, Some rawJson = Some raw /\
                                        json_UnmarshalFields raw = Some None).
  { intros (raw & [= <-] & Hn). congruence. }
  cbn [tr_Data].
  destruct (compress rawJson) as [z|].
  2:{ intros _. split; [done|]. split; [by right; left|]. by split. }
  destruct (gobEncode _) as [buf|].
  2:{ intros _. split; [done|]. split; [by right; left|]. by split. }
  destruct (storeDown env).
  2:{ intros H. exfalso. by apply (H _ eq_refl). }
  destruct (queueDown env).
  2:{ intros H. exfalso. by apply (H _ eq_refl). }
  intros _. split; [done|]. split; [by right; left|]. by split.
Qed.

(** X19. A submission answered with 201 is kept in exactly one place:
    either the prepared record is in the tune store under the newly
    allocated key, the queue is unchanged and the reply carries the
    [Location] of that key; or the store is unchanged, the queue has
    grown by the one task carrying the serialized record and the reply
    has no [Location]. *)
Theorem accepted_submission_kept_once (env : IngestEnv) (w : World) (r : Request)
    (rep : Reply) :
  (handleStoreTune' env w r).1 = Returned rep ->
  code rep = 201 ->
  exists t buf,
    prepareTune' env r = inr t /\ gobEncode t = Some buf /\
    ((handleStoreTune' env w r).1 =
       Returned
         (mkReply 201 (Some ("https://dronin-autotown.appspot.com/at/tune/" +:+ newKey env))) /\
     (handleStoreTune' env w r).2 = mkWorld (<[newKey env := t]> (tunes w)) (queue w) \/
     (handleStoreTune' env w r).1 = Returned (mkReply 201 None) /\
     (handleStoreTune' env w r).2 =
       mkWorld (tunes w)
               (queue w ++ [("asyncstore"%string, mkTask "/asyncStoreTune" buf)])).
Proof.
  unfold handleStoreTune, datastore_Put, taskqueue_Add.
  destruct (prepareTune' env r) as [[c|]|t] eqn:Hprep.
  - unfold prepareTune in Hprep. intros [= <-] Hc. cbn [code] in Hc. subst c.
    destruct (json_DecodeRaw (r_Body r)) as [rawJson|]; [|done].
    destruct (json_UnmarshalFields rawJson) as [[fields|]|]; [|done|done].
    cbn [tr_Data] in Hprep.
    by destruct (compress rawJson) as [z|].
  - done.
  - destruct (gobEncode t) as [buf|] eqn:Hbuf; [|by intros [= <-]].
    intros Hrep Hc. exists t, buf. split; [done|]. split; [done|].
    destruct (storeDown env); [|by left].
    destruct (queueDown env); [by injection Hrep as <-|by right].
Qed.

(** X20. A submission made while the store is down and the queue is up,
    followed by the delivery of the queued task once the store is up,
    leaves in the tune store exactly what the submission would have
    written had the store been up, under the key allocated at delivery:
    the prepared record, unchanged. *)
Theorem fallback_then_delivery (env env' : IngestEnv) (w : World) (r : Request)
    (t : TuneResults) (buf : string) :
  prepareTune' env r = inr t ->
  gobEncode t = Some buf ->
  gobDecode buf = Some t ->
  storeDown env = true -> queueDown env = false -> storeDown env' = false ->
  let w1 := (handleStoreTune' env w r).2 in
  let w2 := (handleAsyncStoreTune gobDecode env' w1 buf).2 in
  queue w1 = queue w ++ [("asyncstore"%string, mkTask "/asyncStoreTune" buf)] /\
  tunes w2 = <[newKey env' := t]> (tunes w) /\
  tunes w2 =
    tunes (handleStoreTune' (mkEnv (now env) (newKey env') false (queueDown env)) w r).2.
Proof.
  intros Hprep Henc Hdec Hdown Hq Hup w1 w2.
  assert (Hw1 : w1 = mkWorld (tunes w)
                       (queue w ++ [("asyncstore"%string, mkTask "/asyncStoreTune" buf)])).
  { unfold w1, handleStoreTune, datastore_Put, taskqueue_Add.
    by rewrite Hprep, Henc, Hdown, Hq. }
  assert (Hw2 : tunes w2 = <[newKey env' := t]> (tunes w)).
  { unfold w2, handleAsyncStoreTune, datastore_Put. by rewrite Hdec, Hup, Hw1. }
  split; [by rewrite Hw1|]. split; [exact Hw2|]. rewrite Hw2.
  assert (Hprep' : prepareTune' (mkEnv (now env) (newKey env') false (queueDown env)) r
                   = inr t).
  { rewrite <- Hprep. reflexivity. }
  unfold handleStoreTune, datastore_Put. by rewrite Hprep', Henc.
Qed.

(** X21. The consumer never touches the queue and never sets a
    [Location]. It replies 201 exactly when the payload decodes and the
    write succeeds, and then the decoded record is in the store under
    the allocated key; otherwise it replies 500 and changes nothing. *)
Theorem consumer_writes_or_fails (env : IngestEnv) (w : World) (body : string) :
  let out := handleAsyncStoreTune gobDecode env w body in
  queue out.2 = queue w /\
  location out.1 = None /\
  (code out.1 = 201 <-> (exists t, gobDecode body = Some t) /\ storeDown env = false) /\
  (forall t, gobDecode body = Some t -> storeDown env = false ->
             tunes out.2 = <[newKey env := t]> (tunes w)) /\
  (code out.1 <> 201 -> code out.1 = 500 /\ out.2 = w).
Proof.
  unfold handleAsyncStoreTune, datastore_Put.
  destruct (gobDecode body) as [t|].
  - destruct (storeDown env); cbn.
    + repeat split; try done. intros [_ ?]. done.
    + repeat split; try done; eauto. by intros t' [= <-] _.
  - cbn. repeat split; try done. intros [[t ?] _]. done.
Qed.

End IngestEdges.

(** A body that is not JSON, a submission while the store and the queue
    are down, and the document [null]: nothing is kept of any of them. *)
Lemma rejected_submission_leaves_no_trace_witness :
  (handleStoreTune IngestFaults.notJson IngestSample.fieldsOf IngestSample.latLon
     IngestSample.codec IngestSample.encode IngestSample.env IngestSample.world
     IngestSample.request).2 = IngestSample.world /\
  (handleStoreTune IngestSample.codec IngestSample.fieldsOf IngestSample.latLon
     IngestSample.codec IngestSample.encode IngestFaults.allDown IngestSample.world
     IngestSample.request).2 = IngestSample.world /\
  (handleStoreTune IngestSample.codec IngestFaults.nullFields IngestSample.latLon
     IngestSample.codec IngestSample.encode IngestFaults.storeUp IngestSample.world
     IngestSample.request) = (NilPanic, IngestSample.world).
Proof.
  split; [|split].
  - apply (rejected_submission_leaves_no_trace IngestFaults.notJson IngestSample.fieldsOf
             IngestSample.latLon IngestSample.codec IngestSample.encode
             IngestSample.env IngestSample.world IngestSample.request).
    intros rep H. injection H as <-. vm_compute. discriminate.
  - apply (rejected_submission_leaves_no_trace IngestSample.codec IngestSample.fieldsOf
             IngestSample.latLon IngestSample.codec IngestSample.encode
             IngestFaults.allDown IngestSample.world IngestSample.request).
    intros rep H. injection H as <-. vm_compute. discriminate.
  - destruct (rejected_submission_leaves_no_trace IngestSample.codec
                IngestFaults.nullFields IngestSample.latLon IngestSample.codec
                IngestSample.encode IngestFaults.storeUp IngestSample.world
                IngestSample.request) as (Hw & _ & Hpanic).
    + intros rep H. discriminate H.
    + apply injective_projections; [|exact Hw].
      apply Hpanic. by exists "{}"%string.
Defined.

Lemma accepted_submission_kept_once_witness :
  exists t buf,
    prepareTune IngestSample.codec IngestSample.fieldsOf IngestSample.latLon
      IngestSample.codec IngestFaults.storeUp IngestSample.request = inr t /\
    IngestSample.encode t = Some buf /\
    ((handleStoreTune IngestSample.codec IngestSample.fieldsOf IngestSample.latLon
        IngestSample.codec IngestSample.encode IngestFaults.storeUp IngestSample.world
        IngestSample.request).1 =
       Returned
         (mkReply 201 (Some ("https://dronin-autotown.appspot.com/at/tune/" +:+ "key-8"))) /\
     (handleStoreTune IngestSample.codec IngestSample.fieldsOf IngestSample.latLon
        IngestSample.codec IngestSample.encode IngestFaults.storeUp IngestSample.world
        IngestSample.request).2 = mkWorld (<["key-8" := t]> ∅) [] \/
     (handleStoreTune IngestSample.codec IngestSample.fieldsOf IngestSample.latLon
        IngestSample.codec IngestSample.encode IngestFaults.storeUp IngestSample.world
        IngestSample.request).1 = Returned (mkReply 201 None) /\
     (handleStoreTune IngestSample.codec IngestSample.fieldsOf IngestSample.latLon
        IngestSample.codec IngestSample.encode IngestFaults.storeUp IngestSample.world
        IngestSample.request).2 =
       mkWorld ∅ ([] ++ [("asyncstore"%string, mkTask "/asyncStoreTune" buf)])).
Proof.
  apply (accepted_submission_kept_once IngestSample.codec IngestSample.fieldsOf
           IngestSample.latLon IngestSample.codec IngestSample.encode
           IngestFaults.storeUp IngestSample.world IngestSample.request
           (mkReply 201 (Some ("https://dronin-autotown.appspot.com/at/tune/" +:+ "key-8")))).
  - reflexivity.
  - reflexivity.
Defined.

Lemma fallback_then_delivery_witness :
  let w1 := (handleStoreTune IngestSample.codec IngestSample.fieldsOf IngestSample.latLon
               IngestSample.codec IngestSample.encode IngestSample.env IngestSample.world
               IngestSample.request).2 in
  let w2 := (handleAsyncStoreTune IngestSample.decodeGob IngestSample.envLater w1
               "id-8|{}").2 in
  queue w1 = [] ++ [("asyncstore"%string, mkTask "/asyncStoreTune" "id-8|{}")] /\
  tunes w2 = <["key-9" := IngestSample.tune]> ∅ /\
  tunes w2 =
    tunes (handleStoreTune IngestSample.codec IngestSample.fieldsOf IngestSample.latLon
             IngestSample.codec IngestSample.encode
             (mkEnv (DateJan1UTC 2022) "key-9" false false) IngestSample.world
             IngestSample.request).2.
Proof.
  apply (fallback_then_delivery IngestSample.codec IngestSample.fieldsOf
           IngestSample.latLon IngestSample.codec IngestSample.encode
           IngestSample.decodeGob IngestSample.env IngestSample.envLater
           IngestSample.world IngestSample.request IngestSample.tune "id-8|{}");
    reflexivity.
Defined.

(** ** The rollup lane *)

Section RollupLaneFacts.

Variable gzip_NewReader : string -> option string.
Variable json_DecodeAsync : string -> option (option asyncUsageData).
Variable json_Unmarshal : string -> option usageRec.

Local Abbreviation handleAsyncRollup' :=
  (handleAsyncRollup gzip_NewReader json_DecodeAsync json_Unmarshal).

(** X22. The rollup lane replies 204 exactly when the body unzips,
    decodes and the rollup returns [nil]. It panics without a reply
    exactly when the body unzips and decodes to data whose [RawData] is
    nil. Otherwise it replies 500. Whenever it does not reply 204, no
    [FoundController] entity has changed, so the queue can deliver the
    task again. *)
Theorem rollup_lane_reply (fl : Faults) (ds : Backend) (body : string) :
  let out := handleAsyncRollup' fl ds body in
  (out.1 = Returned (mkAnswer 204 "") \/
   (exists msg, out.1 = Returned (mkAnswer 500 msg)) \/
   out.1 = NilPanic) /\
  (out.1 = Returned (mkAnswer 204 "") <->
   exists br d, gzip_NewReader body = Some br /\ json_DecodeAsync br = Some (Some d) /\
                (asyncRollup json_Unmarshal fl ds d).1 = None) /\
  (out.1 = NilPanic <->
   exists br, gzip_NewReader body = Some br /\ json_DecodeAsync br = Some None) /\
  (out.1 <> Returned (mkAnswer 204 "") -> entities out.2 = entities ds).
Proof.
  unfold handleAsyncRollup.
  destruct (gzip_NewReader body) as [br|]; cbn.
  2:{ split; [right; left; by eexists|]. split; [|split; [|done]].
      - split; [done|]. by intros (? & ? & ? & _).
      - split; [done|]. by intros (? & ? & _). }
  destruct (json_DecodeAsync br) as [[d|]|] eqn:Hd; cbn.
  3:{ split; [right; left; by eexists|]. split; [|split; [|done]].
      - split; [done|]. intros (? & ? & [= <-] & ? & _). congruence.
      - split; [done|]. intros (? & [= <-] & ?). congruence. }
  2:{ split; [by right; right|]. split; [|split; [|done]].
      - split; [done|]. intros (? & ? & [= <-] & ? & _). congruence.
      - split; [|done]. intros _. by exists br. }
  pose proof (rollupRec_error_keeps fl ds d) as Hkeep.
  assert (Hent : (asyncRollup json_Unmarshal fl ds d).1 <> None ->
                 entities (asyncRollup json_Unmarshal fl ds d).2 = entities ds).
  { unfold asyncRollup. destruct (json_Unmarshal (d_RawData d)); [apply Hkeep|done]. }
  assert (Hnil : ~ exists br' : string, Some br = Some br' /\
                                        json_DecodeAsync br' = Some None).
  { intros (? & [= <-] & ?). congruence. }
  destruct (asyncRollup json_Unmarshal fl ds d) as [[e|] ds'] eqn:Hroll; cbn in *.
  - split; [right; left; by eexists|]. split; [|split; [done|intros _; by apply Hent]].
    split; [done|]. intros (br' & d' & [= <-] & Hd' & Hn).
    rewrite Hd in Hd'. injection Hd' as <-. by rewrite Hroll in Hn.
  - split; [by left|]. split; [|split; [done|done]].
    split; [|done]. intros _. exists br, d. by rewrite Hroll.
Qed.

(** X23. The task the dispatcher builds from a stored record, once
    delivered to the rollup lane, runs the rollup on the stored report
    with the record's own address, geolocation and timestamp, provided
    the payload unzips and decodes to what was zipped and marshalled. *)
Theorem redrive_replays_record (uncompress : string -> option string)
    (json_Marshal : asyncUsageData -> option string) (gz : string -> option string)
    (fl : Faults) (ds : Backend) (st : UsageStat) (raw j g : string) :
  let d := mkAsync (st_Addr st) (st_Country st) (st_Region st) (st_City st)
                   (st_Lat st) (st_Lon st) (st_Timestamp st) raw in
  uncompress (st_Data st) = Some raw ->
  json_Marshal d = Some j ->
  gz j = Some g ->
  gzip_NewReader g = Some j ->
  json_DecodeAsync j = Some (Some d) ->
  prepareTask uncompress json_Marshal gz st = Some (mkTask "/batch/asyncRollup" g) /\
  handleAsyncRollup' fl ds g =
    (Returned
       (match (asyncRollup json_Unmarshal fl ds d).1 with
        | Some _ => mkAnswer 500 "error doing async rollup"
        | None => mkAnswer 204 ""
        end),
     (asyncRollup json_Unmarshal fl ds d).2).
Proof.
  intros d Hraw Hj Hg Hunzip Hdec. split.
  - unfold prepareTask. rewrite Hraw. fold d. by rewrite Hj, Hg.
  - unfold handleAsyncRollup. rewrite Hunzip, Hdec.
    by destruct (asyncRollup json_Unmarshal fl ds d) as [[e|] ds'].
Qed.

End RollupLaneFacts.

Lemma redrive_replays_record_witness :
  prepareTask DispatchSample.codec DispatchSample.marshal DispatchSample.codec
    DispatchSample.stat = Some (mkTask "/batch/asyncRollup" "payload") /\
  handleAsyncRollup LaneSample.gunzip LaneSample.decodeAsync LaneSample.decodeRec
    Sample.noFaults Sample.empty "payload" =
  (Returned
     (match (asyncRollup LaneSample.decodeRec Sample.noFaults Sample.empty
               LaneSample.data).1
      with
      | Some _ => mkAnswer 500 "error doing async rollup"
      | None => mkAnswer 204 ""
      end),
   (asyncRollup LaneSample.decodeRec Sample.noFaults Sample.empty LaneSample.data).2).
Proof.
  apply (redrive_replays_record LaneSample.gunzip LaneSample.decodeAsync
           LaneSample.decodeRec DispatchSample.codec DispatchSample.marshal
           DispatchSample.codec Sample.noFaults Sample.empty DispatchSample.stat
           "payload" "payload" "payload"); reflexivity.
Defined.

(** ** Operating systems *)

Lemma prefix_split (p s : string) :
  String.prefix p s = true -> exists rest, s = (p +:+ rest)%string.
Proof.
  revert s. induction p as [|c p IH]; intros s.
  - intros _. by exists s.
  - destruct s as [|c' s]; cbn; [done|].
    destruct (Ascii.ascii_dec c c') as [->|]; [|done].
    intros H. destruct (IH s H) as [rest ->]. by exists rest.
Qed.

Lemma prefix_nil (s : string) : String.prefix "" s = true.
Proof. by destruct s. Qed.

Lemma append_cons (c : Ascii.ascii) (p s : string) :
  (String c p +:+ s = String c (p +:+ s))%string.
Proof. reflexivity. Qed.

Lemma prefix_extended (p rest t : string) :
  String.prefix p ((p +:+ rest) +:+ t) = true.
Proof.
  induction p as [|c p IH]; [apply prefix_nil|].
  rewrite !append_cons. cbn [String.prefix].
  by destruct (Ascii.ascii_dec c c).
Qed.

Lemma prefix_mismatch (a b : Ascii.ascii) (p q rest t : string) :
  a ≠ b -> String.prefix (String a p) ((String b q +:+ rest) +:+ t) = false.
Proof.
  intros Hne. rewrite !append_cons. cbn [String.prefix].
  by destruct (Ascii.ascii_dec a b).
Qed.

(** X24. [abbrevOS] always answers Windows, Mac or Linux, and only the
    beginning of the name counts: a name recognised as Windows or Mac
    stays so whatever is appended to it. Every other name, the empty one
    included, is Linux. *)
Theorem abbrevOS_by_prefix (s : string) :
  (abbrevOS s = "Windows" \/ abbrevOS s = "Mac" \/ abbrevOS s = "Linux") /\
  (abbrevOS s ≠ "Linux" -> forall t, abbrevOS (s +:+ t) = abbrevOS s) /\
  abbrevOS "" = "Linux".
Proof.
  split; [|split; [|done]].
  - unfold abbrevOS. destruct (String.prefix "Windows" s); [by left|].
    destruct (String.prefix "OS X" s); [right; by left|].
    destruct (String.prefix "macOS" s); [right; by left|right; by right].
  - intros Hne t. unfold abbrevOS in *.
    destruct (String.prefix "Windows" s) eqn:Hw.
    { apply prefix_split in Hw as [rest ->]. by rewrite prefix_extended. }
    destruct (String.prefix "OS X" s) eqn:Hx.
    { apply prefix_split in Hx as [rest ->].
      by rewrite (prefix_mismatch "W" "O"), prefix_extended. }
    destruct (String.prefix "macOS" s) eqn:Hm; [|done].
    apply prefix_split in Hm as [rest ->].
    by rewrite (prefix_mismatch "W" "m"), (prefix_mismatch "O" "m"), prefix_extended.
Qed.

(** ** The listing of recent tunes *)

Lemma to_int_nonnil (z : Z) :
  Z.to_int z <> Decimal.Pos Decimal.Nil /\ Z.to_int z <> Decimal.Neg Decimal.Nil.
Proof.
  destruct z as [|p|p]; cbn; split; try discriminate;
    intros H; injection H as H; by apply Unsigned.to_uint_nonnil in H.
Qed.

Lemma Itoa_inj (a b : Z) : Itoa a = Itoa b -> a = b.
Proof.
  unfold Itoa. intros H. apply to_int_inj.
  destruct (to_int_nonnil a) as [Ha1 Ha2]. destruct (to_int_nonnil b) as [Hb1 Hb2].
  pose proof (NilZero.isi (Z.to_int a) Ha1 Ha2) as Ea.
  pose proof (NilZero.isi (Z.to_int b) Hb1 Hb2) as Eb.
  rewrite H in Ea. rewrite Ea in Eb. by injection Eb.
Qed.

Lemma wrapInt_small (z : Z) : - 2 ^ 63 <= z < 2 ^ 63 -> wrapInt z = z.
Proof. intros H. unfold wrapInt. rewrite Z.mod_small; lia. Qed.

Lemma distinct_nil : distinct [] = 0%nat.
Proof. reflexivity. Qed.

Lemma distinct_snoc_old (pre : list string) (u : string) :
  u ∈ pre -> distinct (pre ++ [u]) = distinct pre.
Proof.
  intros Hu. unfold distinct. f_equal. apply set_eq. intros v.
  rewrite !elem_of_list_to_set, elem_of_app, list_elem_of_singleton.
  split; [intros [?| ->]; done|by left].
Qed.

Lemma distinct_snoc_new (pre : list string) (u : string) :
  u ∉ pre -> distinct (pre ++ [u]) = S (distinct pre).
Proof.
  intros Hu. unfold distinct. rewrite list_to_set_app_L.
  rewrite size_union.
  - cbn [list_to_set]. rewrite union_empty_r_L, size_singleton. lia.
  - apply elem_of_disjoint. intros v Hv1 Hv2.
    apply elem_of_list_to_set in Hv1. apply elem_of_list_to_set in Hv2.
    apply list_elem_of_singleton in Hv2 as ->. done.
Qed.

Lemma lookupId_spec (pre : list string) (st : idState) (u : string) :
  idsAfter pre st ->
  Z.of_nat (distinct pre) + 2 < 2 ^ 63 ->
  idsAfter (pre ++ [u]) (lookupId st u).2 /\
  (forall u' id, ids st !! u' = Some id -> ids (lookupId st u).2 !! u' = Some id) /\
  ids (lookupId st u).2 !! u = Some (lookupId st u).1 /\
  (u ∉ pre -> (lookupId st u).1 = Itoa (Z.of_nat (distinct pre) + 1)).
Proof.
  intros (Hdom & Hnext & Hval & Hinj) Hbound. unfold lookupId.
  destruct (ids st !! u) as [id|] eqn:Hu; cbn [fst snd].
  - assert (Hin : u ∈ pre) by (apply Hdom; by eexists).
    split; [|split; [done|split; [done|done]]].
    unfold idsAfter. rewrite (distinct_snoc_old pre u Hin).
    split; [|done]. intros u'. rewrite Hdom, elem_of_app, list_elem_of_singleton.
    split; [by left|]. intros [?| ->]; done.
  - assert (Hnew : u ∉ pre).
    { intros Hin. apply Hdom in Hin as [? ?]. congruence. }
    split; [|split; [|split]].
    + unfold idsAfter. rewrite (distinct_snoc_new pre u Hnew). cbn [ids nextId].
      split; [|split; [|split]].
      * intros u'. rewrite elem_of_app, list_elem_of_singleton, <- Hdom.
        destruct (decide (u = u')) as [->|Hne].
        -- rewrite lookup_insert_eq. split; [by right|by eexists].
        -- rewrite lookup_insert_ne by done. split; [by left|].
           intros [?| ->]; done.
      * rewrite Hnext, wrapInt_small; lia.
      * intros u' id'. destruct (decide (u = u')) as [->|Hne].
        -- rewrite lookup_insert_eq. intros [= <-].
           exists (Z.of_nat (distinct pre) + 1). rewrite Hnext. split; [lia|done].
        -- rewrite lookup_insert_ne by done. intros H.
           destruct (Hval u' id' H) as (n & Hn & ->). exists n. split; [lia|done].
      * intros u1 u2 id'.
        destruct (decide (u = u1)) as [<-|Hne1]; destruct (decide (u = u2)) as [<-|Hne2];
          rewrite ?lookup_insert_eq, ?lookup_insert_ne by done; try done.
        -- intros [= <-] H. destruct (Hval u2 _ H) as (n & Hn & Heq).
           rewrite Hnext in Heq. apply Itoa_inj in Heq. lia.
        -- intros H [= <-]. destruct (Hval u1 _ H) as (n & Hn & Heq).
           rewrite Hnext in Heq. apply Itoa_inj in Heq. lia.
        -- apply Hinj.
    + intros u' id' H. cbn [ids]. rewrite lookup_insert_ne; [done|]. intros ->. congruence.
    + cbn [ids]. apply lookup_insert_eq.
    + intros _. by rewrite Hnext.
Qed.

Lemma recentLoop_spec (res : list TuneResults) :
  forall pre st,
    idsAfter pre st ->
    Z.of_nat (distinct pre) + Z.of_nat (length res) + 1 < 2 ^ 63 ->
    idsAfter (pre ++ (tr_UUID <$> res)) (recentLoop res st).2 /\
    (forall u id, ids st !! u = Some id -> ids (recentLoop res st).2 !! u = Some id) /\
    length (recentLoop res st).1 = length res /\
    forall i x y,
      res !! i = Some x -> (recentLoop res st).1 !! i = Some y ->
      y = withUUID x (tr_UUID y) /\
      ids (recentLoop res st).2 !! tr_UUID x = Some (tr_UUID y) /\
      (tr_UUID x ∉ pre ++ (tr_UUID <$> take i res) ->
       tr_UUID y = Itoa (Z.of_nat (distinct (pre ++ (tr_UUID <$> take i res))) + 1)).
Proof.
  induction res as [|x rest IH]; intros pre st Hinv Hbound.
  - cbn [recentLoop fst snd fmap list_fmap]. rewrite app_nil_r.
    split; [done|]. split; [done|]. split; [done|].
    intros i x y H. by destruct i.
  - cbn [length] in Hbound.
    destruct (lookupId_spec pre st (tr_UUID x) Hinv) as (Hinv1 & Hmono1 & Hself & Hfresh);
      [lia|].
    assert (Hb1 : Z.of_nat (distinct (pre ++ [tr_UUID x])) + Z.of_nat (length rest) + 1
                  < 2 ^ 63).
    { destruct (decide (tr_UUID x ∈ pre)).
      - rewrite distinct_snoc_old by done. lia.
      - rewrite distinct_snoc_new by done. lia. }
    destruct (IH (pre ++ [tr_UUID x]) (lookupId st (tr_UUID x)).2 Hinv1 Hb1)
      as (Hinv2 & Hmono2 & Hlen & Hrec).
    cbn [recentLoop fst snd fmap list_fmap].
    rewrite <- app_assoc in Hinv2. cbn [app] in Hinv2.
    split; [exact Hinv2|]. split; [intros u id H; by apply Hmono2, Hmono1|].
    split; [cbn [length]; by rewrite Hlen|].
    intros i x0 y Hx Hy. destruct i as [|i].
    + injection Hx as <-. injection Hy as <-. cbn [tr_UUID withUUID take fmap list_fmap].
      split; [done|]. split; [by apply Hmono2|]. rewrite app_nil_r. exact Hfresh.
    + cbn [lookup list_lookup] in Hx, Hy.
      destruct (Hrec i x0 y Hx Hy) as (H1 & H2 & H3).
      split; [exact H1|]. split; [exact H2|].
      cbn [take fmap list_fmap]. rewrite <- app_assoc in H3. exact H3.
Qed.

Lemma idsAfter_init : idsAfter [] (mkIds ∅ 1).
Proof.
  unfold idsAfter. cbn [ids nextId]. repeat split.
  - intros [? H]. by rewrite lookup_empty in H.
  - intros H. by apply elem_of_nil in H.
  - intros u id H. by rewrite lookup_empty in H.
  - intros u1 u2 id H. by rewrite lookup_empty in H.
Qed.

(** X25. The listing replaces each identity by a pseudonym that is
    consistent and free of collisions: it keeps the number and the order
    of the records and every field but the identity, two records get the
    same pseudonym exactly when they had the same identity. The list is
    assumed shorter than the range of a Go [int]. *)
Theorem recent_ids_consistent (res : list TuneResults) :
  Z.of_nat (length res) + 1 < 2 ^ 63 ->
  let out := (recentLoop res (mkIds ∅ 1)).1 in
  handleRecentTunes (Some res) = inr out /\
  length out = length res /\
  forall i j xi xj yi yj,
    res !! i = Some xi -> res !! j = Some xj ->
    out !! i = Some yi -> out !! j = Some yj ->
    yi = withUUID xi (tr_UUID yi) /\
    (tr_UUID yi = tr_UUID yj <-> tr_UUID xi = tr_UUID xj).
Proof.
  intros Hlen out.
  destruct (recentLoop_spec res [] (mkIds ∅ 1) idsAfter_init)
    as ((_ & _ & _ & Hinj) & _ & Hlength & Hrec); [rewrite distinct_nil; lia|].
  split; [done|]. split; [exact Hlength|].
  intros i j xi xj yi yj Hxi Hxj Hyi Hyj.
  destruct (Hrec i xi yi Hxi Hyi) as (Hi & Hidi & _).
  destruct (Hrec j xj yj Hxj Hyj) as (_ & Hidj & _).
  split; [exact Hi|]. split.
  - intros Heq. rewrite Heq in Hidi. by apply (Hinj _ _ _ Hidi Hidj).
  - intros Heq. rewrite Heq in Hidi. congruence.
Qed.

Lemma recent_ids_consistent_witness :
  let out := (recentLoop RecentSample.fetched (mkIds ∅ 1)).1 in
  handleRecentTunes (Some RecentSample.fetched) = inr out /\
  length out = 3%nat /\
  forall i j xi xj yi yj,
    RecentSample.fetched !! i = Some xi -> RecentSample.fetched !! j = Some xj ->
    out !! i = Some yi -> out !! j = Some yj ->
    yi = withUUID xi (tr_UUID yi) /\
    (tr_UUID yi = tr_UUID yj <-> tr_UUID xi = tr_UUID xj).
Proof.
  apply (recent_ids_consistent RecentSample.fetched). vm_compute. reflexivity.
Defined.

(** X26. The pseudonyms count up from 1 in the order in which the
    identities first appear: a record whose identity occurs in no earlier
    record gets the decimal rendering of one more than the number of
    distinct identities before it, so the first record gets 1. *)
Theorem recent_ids_count_up (res : list TuneResults) (i : nat) (x y : TuneResults) :
  Z.of_nat (length res) + 1 < 2 ^ 63 ->
  res !! i = Some x ->
  (recentLoop res (mkIds ∅ 1)).1 !! i = Some y ->
  tr_UUID x ∉ tr_UUID <$> take i res ->
  tr_UUID y = Itoa (Z.of_nat (distinct (tr_UUID <$> take i res)) + 1) /\
  (i = 0%nat -> tr_UUID y = "1").
Proof.
  intros Hlen Hx Hy Hnew.
  destruct (recentLoop_spec res [] (mkIds ∅ 1) idsAfter_init)
    as (_ & _ & _ & Hrec); [rewrite distinct_nil; lia|].
  destruct (Hrec i x y Hx Hy) as (_ & _ & Hfresh). cbn [app] in Hfresh.
  split; [by apply Hfresh|]. intros ->. by rewrite (Hfresh Hnew).
Qed.

Lemma recent_ids_count_up_witness :
  tr_UUID (withUUID RecentSample.tuneB "2") = Itoa (Z.of_nat (distinct ["uuid-a"]) + 1) /\
  (1%nat = 0%nat -> tr_UUID (withUUID RecentSample.tuneB "2") = "1").
Proof.
  apply (recent_ids_count_up RecentSample.fetched 1 RecentSample.tuneB
           (withUUID RecentSample.tuneB "2")).
  - vm_compute; reflexivity.
  - reflexivity.
  - vm_compute; reflexivity.
  - intros H. apply list_elem_of_singleton in H. discriminate H.
Defined.

(** ** The export columns *)

Lemma strings_Replace_length (s : string) (old new : ascii) :
  String.length (strings_Replace s old new) = String.length s.
Proof. induction s as [|c s IH]; [done|]. cbn. by rewrite IH. Qed.

Lemma strings_Replace_gone (s : string) (old new : ascii) :
  old ≠ new -> old ∉ list_ascii_of_string (strings_Replace s old new).
Proof.
  intros Hne. induction s as [|c s IH]; cbn.
  - apply not_elem_of_nil.
  - apply not_elem_of_cons. split; [|exact IH].
    destruct (Ascii.eqb_spec c old) as [->|Hc]; congruence.
Qed.

Lemma columnize_None (s : list string) : columnize s = None <-> EmptyString ∈ s.
Proof.
  induction s as [|k rest IH]; cbn.
  - split; [done|]. intros H. by apply elem_of_nil in H.
  - destruct k as [|c k1].
    + split; [intros _; apply list_elem_of_here|done].
    + destruct (columnize rest) as [rv|].
      * split; [done|]. intros H. apply elem_of_cons in H as [H|H]; [done|].
        by apply IH in H.
      * split; [|done]. intros _. apply list_elem_of_further. by apply IH.
Qed.

Lemma columnize_Some (s : list string) :
  forall hdr, columnize s = Some hdr ->
    length hdr = length s /\
    forall i k h, s !! i = Some k -> hdr !! i = Some h ->
      S (String.length h) = String.length k /\
      "/"%char ∉ list_ascii_of_string h.
Proof.
  induction s as [|k rest IH]; intros hdr Hc; cbn in Hc.
  - injection Hc as <-. split; [done|]. intros i k h H. by destruct i.
  - destruct k as [|c k1]; [done|].
    destruct (columnize rest) as [rv|] eqn:Hrest; [|done].
    injection Hc as <-. destruct (IH rv eq_refl) as [Hlen Hcols].
    split; [cbn; by rewrite Hlen|].
    intros [|i] k h Hk Hh; cbn in Hk, Hh.
    + injection Hk as <-. injection Hh as <-. split.
      * cbn. by rewrite strings_Replace_length.
      * by apply strings_Replace_gone.
    + by apply (Hcols i).
Qed.

Lemma fetchVals_inr (findDecode : string -> string -> option string) (b : string)
    (cols : list string) :
  forall vals, fetchVals findDecode b cols = inr vals ->
    length vals = length cols /\
    forall i k, cols !! i = Some k -> findDecode b k = vals !! i.
Proof.
  induction cols as [|k rest IH]; intros vals Hf; cbn in Hf.
  - injection Hf as <-. split; [done|]. intros i k H. by destruct i.
  - destruct (findDecode b k) as [v|] eqn:Hk; [|done].
    destruct (fetchVals findDecode b rest) as [e|rv] eqn:Hrest; [done|].
    injection Hf as <-. destruct (IH rv eq_refl) as [Hlen Hvals].
    split; [cbn; by rewrite Hlen|].
    intros [|i] k' Hk'; cbn in Hk'.
    + injection Hk' as <-. exact Hk.
    + by apply Hvals.
Qed.

Lemma fetchVals_inl (findDecode : string -> string -> option string) (b : string)
    (cols : list string) :
  forall k, fetchVals findDecode b cols = inl k ->
    exists i, cols !! i = Some k /\ findDecode b k = None /\
      forall j k', (j < i)%nat -> cols !! j = Some k' -> is_Some (findDecode b k').
Proof.
  induction cols as [|k0 rest IH]; intros k Hf; cbn in Hf; [done|].
  destruct (findDecode b k0) as [v|] eqn:Hk0.
  - destruct (fetchVals findDecode b rest) as [e|rv] eqn:Hrest; [|done].
    injection Hf as ->. destruct (IH k eq_refl) as (i & Hi & Hnone & Hbefore).
    exists (S i). split; [exact Hi|]. split; [exact Hnone|].
    intros [|j] k' Hj Hk'; cbn in Hk'.
    + injection Hk' as <-. by rewrite Hk0.
    + apply (Hbefore j); [lia|exact Hk'].
  - injection Hf as ->. exists 0%nat. split; [done|]. split; [exact Hk0|].
    intros j k' Hj. lia.
Qed.

(** X27. The header and the rows of the export are built from one column
    list and stay aligned with it. [columnize] panics exactly when a
    column is the empty string; otherwise it gives one name per column,
    one character shorter and without a slash. [fetchVals] gives one
    value per column, in order, or the error that names the first column
    whose pointer does not resolve. *)
Theorem export_columns (findDecode : string -> string -> option string) (b : string)
    (cols : list string) :
  (columnize cols = None <-> EmptyString ∈ cols) /\
  (forall hdr, columnize cols = Some hdr ->
     length hdr = length cols /\
     forall i k h, cols !! i = Some k -> hdr !! i = Some h ->
       S (String.length h) = String.length k /\
       "/"%char ∉ list_ascii_of_string h) /\
  (forall vals, fetchVals findDecode b cols = inr vals ->
     length vals = length cols /\
     forall i k, cols !! i = Some k -> findDecode b k = vals !! i) /\
  (forall k, fetchVals findDecode b cols = inl k ->
     exists i, cols !! i = Some k /\ findDecode b k = None /\
       forall j k', (j < i)%nat -> cols !! j = Some k' -> is_Some (findDecode b k')).
Proof.
  split; [apply columnize_None|].
  split; [apply columnize_Some|].
  split; [apply fetchVals_inr|apply fetchVals_inl].
Qed.

(** ** The crash lane *)

Example sha1_abc :
  hexOf (Sha1.Sum (bytesOf "abc")) = "a9993e364706816aba3e25717850c26c9cd0d89d".
Proof. vm_compute. reflexivity. Qed.

Example sha1_empty :
  hexOf (Sha1.Sum (bytesOf "")) = "da39a3ee5e6b4b0d3255bfef95601890afd80709".
Proof. vm_compute. reflexivity. Qed.

Example sha1_two_blocks :
  hexOf (Sha1.Sum (repeat 97 70)) = "ed6c69d9e8b4373af86303dfaa3528dfbc129902".
Proof. vm_compute. reflexivity. Qed.

Lemma Sum_length (msg : list Z) : length (Sha1.Sum msg) = 20%nat.
Proof. unfold Sha1.Sum, Sha1.digest. by rewrite !length_app. Qed.

Lemma Sum_bytes (msg : list Z) : Forall (fun b => 0 <= b < 256) (Sha1.Sum msg).
Proof.
  unfold Sha1.Sum, Sha1.digest. rewrite !Forall_app.
  repeat split; apply be32_bytes.
Qed.

Lemma append_nil_l (s : string) : (EmptyString +:+ s)%string = s.
Proof. reflexivity. Qed.

Lemma substring_all (s : string) : substring 0 (String.length s) s = s.
Proof. induction s as [|c s IH]; [done|]. cbn. by rewrite IH. Qed.

(** The two slices of the file name are in range: the rendering of the
    digest has 40 characters, [filename[:2]] is its first two and
    [filename[2:]] the rest. *)
Lemma crashFilename_parts (data : string) :
  exists x y rest,
    hexOf (Sha1.Sum (bytesOf data)) = String x (String y rest) /\
    String.length rest = 38%nat /\
    crashFilename data =
      ("crash/" +:+ String x (String y EmptyString) +:+ "/" +:+ rest)%string.
Proof.
  unfold crashFilename.
  pose proof (hexOf_length (Sha1.Sum (bytesOf data))) as Hlen.
  rewrite Sum_length in Hlen.
  destruct (hexOf (Sha1.Sum (bytesOf data))) as [|x [|y rest]]; [done|done|].
  exists x, y, rest. cbn [String.length] in Hlen.
  split; [done|]. split; [lia|].
  cbn [String.length substring Nat.sub].
  rewrite Nat.sub_0_r, substring_all. by destruct rest.
Qed.

Lemma crashFilename_inj_parts (x y x' y' : ascii) (rest rest' : string) :
  ("crash/" +:+ String x (String y EmptyString) +:+ "/" +:+ rest)%string =
  ("crash/" +:+ String x' (String y' EmptyString) +:+ "/" +:+ rest')%string ->
  String x (String y rest) = String x' (String y' rest').
Proof.
  intros H. repeat (rewrite append_cons in H || rewrite append_nil_l in H).
  injection H as -> -> ->. reflexivity.
Qed.

(** X28. The object name of a crash dump is derived from its content
    alone: it is [crash/], the first two hexadecimal digits of the SHA-1
    of the dump, a slash and the other 38 digits, 47 characters in all,
    so the two slices never go out of range; two dumps get the same name
    exactly when their digests are equal. *)
Theorem crash_filename_shape (data : string) :
  (exists a b,
     crashFilename data = ("crash/" +:+ a +:+ "/" +:+ b)%string /\
     String.length a = 2%nat /\ String.length b = 38%nat /\
     (a +:+ b)%string = hexOf (Sha1.Sum (bytesOf data)) /\
     forallb isHexDigit (list_ascii_of_string (a +:+ b)) = true) /\
  String.length (crashFilename data) = 47%nat /\
  (forall data', crashFilename data = crashFilename data' <->
                 hexOf (Sha1.Sum (bytesOf data)) = hexOf (Sha1.Sum (bytesOf data'))).
Proof.
  destruct (crashFilename_parts data) as (x & y & rest & Hhex & Hlen & Hname).
  split; [|split].
  - exists (String x (String y EmptyString)), rest.
    split; [exact Hname|]. split; [done|]. split; [exact Hlen|].
    rewrite !append_cons, append_nil_l, <- Hhex. split; [done|].
    apply hexOf_isHex, Sum_bytes.
  - rewrite Hname.
    repeat (rewrite append_cons || rewrite append_nil_l). cbn [String.length]. lia.
  - intros data'.
    destruct (crashFilename_parts data') as (x' & y' & rest' & Hhex' & _ & Hname').
    rewrite Hname, Hname', Hhex, Hhex'. split.
    + apply crashFilename_inj_parts.
    + intros H. injection H as -> -> ->. reflexivity.
Qed.

Section CrashFacts.

Variable json_DecodeProps : string -> option (gmap string Any).
Variable base64_DecodeString : string -> option string.
Variable sscanLatLon : string -> float * float.

Local Abbreviation stamp' := (stamp sscanLatLon).
Local Abbreviation handleStoreCrash' :=
  (handleStoreCrash json_DecodeProps base64_DecodeString sscanLatLon).

(** The handler changes the world in two ways only: it adds the object
    and then fails to store the record, or it adds both. *)
Lemma handleStoreCrash_cases (env : CrashEnv) (w : CrashWorld) (r : Request) :
  ((handleStoreCrash' env w r).2 = w /\ (handleStoreCrash' env w r).1 <> Replied 204) \/
  exists props dump data,
    json_DecodeProps (r_Body r) = Some props /\
    props !! "dump" = Some (AString dump) /\
    base64_DecodeString dump = Some data /\
    let w1 := mkCrashWorld (<[crashFilename data := data]> (objects w)) (crashes w) in
    (handleStoreCrash' env w r = (Replied 500, w1) \/
     handleStoreCrash' env w r =
       (Replied 204,
        mkCrashWorld (objects w1)
          (crashes w ++ [stamp' env r (crashFilename data) (delete "dump" props)]))).
Proof.
  unfold handleStoreCrash.
  destruct (json_DecodeProps (r_Body r)) as [props|]; [|by left].
  destruct (props !! "dump") as [[| | |dump| | |]|] eqn:Hdump; try by left.
  destruct (base64_DecodeString dump) as [data|] eqn:Hdata; [|by left].
  destruct (clientFails env); [by left|].
  destruct (bucketFails env); [by left|].
  destruct (writeFails env); [by left|].
  destruct (closeFails env); [by left|].
  right. exists props, dump, data. do 3 (split; [done|]).
  cbn zeta. destruct (crashPutFails env); [by left|by right].
Qed.

Lemma stamp_file (env : CrashEnv) (r : Request) (name : string) (m : gmap string Any) :
  stamp' env r name m !! "file" = Some (AString name).
Proof.
  unfold stamp. cbn zeta.
  rewrite !lookup_insert_ne by done. apply lookup_insert_eq.
Qed.

(** X29. A crash report answered with 204 has its dump in the bucket
    under the name derived from the dump, and one record more in the
    datastore: the report without its [dump], with [file], [timestamp],
    [addr], [country], [region], [city], [lat] and [lon] set by the
    server whatever the client sent under these keys, and every other
    key as the client sent it. *)
Theorem crash_accepted (env : CrashEnv) (w : CrashWorld) (r : Request) :
  (handleStoreCrash' env w r).1 = Replied 204 ->
  exists props dump data p,
    json_DecodeProps (r_Body r) = Some props /\
    props !! "dump" = Some (AString dump) /\
    base64_DecodeString dump = Some data /\
    (handleStoreCrash' env w r).2 =
      mkCrashWorld (<[crashFilename data := data]> (objects w)) (crashes w ++ [p]) /\
    p !! "dump" = None /\
    p !! "file" = Some (AString (crashFilename data)) /\
    p !! "timestamp" = Some (ATime (crashNow env)) /\
    p !! "addr" = Some (AString (r_RemoteAddr r)) /\
    p !! "country" = Some (AString (r_Country r)) /\
    p !! "region" = Some (AString (r_Region r)) /\
    p !! "city" = Some (AString (r_City r)) /\
    p !! "lat" = Some (AFloat (sscanLatLon (r_Citylatlong r)).1) /\
    p !! "lon" = Some (AFloat (sscanLatLon (r_Citylatlong r)).2) /\
    (forall k, k ∉ "dump" :: stamped -> p !! k = props !! k).
Proof.
  intros H204.
  destruct (handleStoreCrash_cases env w r)
    as [[_ Hno]|(props & dump & data & Hp & Hd & Hb & [Hout|Hout])];
    [done|rewrite Hout in H204; discriminate H204|].
  exists props, dump, data, (stamp' env r (crashFilename data) (delete "dump" props)).
  rewrite Hout. do 4 (split; [done|]).
  unfold stamp. cbn zeta.
  do 9 (split;
    [repeat (rewrite lookup_insert_ne by done);
     first [apply lookup_insert_eq | apply lookup_delete_eq]|]).
  intros k Hk. unfold stamped in Hk.
  repeat (apply not_elem_of_cons in Hk as [? Hk]).
  rewrite !lookup_insert_ne by done. by rewrite lookup_delete_ne.
Qed.

(** X30. Every stored crash record keeps naming an object of the bucket:
    if that holds before a request it holds after it, however the
    request ends. Objects are never removed, and no record is stored by a
    request that is not answered with 204. *)
Theorem crash_records_filed (env : CrashEnv) (w : CrashWorld) (r : Request) :
  filed w ->
  let out := handleStoreCrash' env w r in
  filed out.2 /\
  (out.1 <> Replied 204 -> crashes out.2 = crashes w) /\
  (forall name, is_Some (objects w !! name) -> is_Some (objects out.2 !! name)).
Proof.
  intros Hw out. subst out.
  destruct (handleStoreCrash_cases env w r)
    as [[Hsame Hno]|(props & dump & data & Hp & Hd & Hb & [Hout|Hout])].
  - rewrite Hsame. done.
  - rewrite Hout. cbn [fst snd]. split; [|split; [done|]].
    + intros p Hin. destruct (Hw p Hin) as (name & Hfile & Hobj).
      exists name. split; [exact Hfile|]. cbn [objects].
      apply lookup_insert_is_Some'. by right.
    + intros name Hobj. cbn [objects]. apply lookup_insert_is_Some'. by right.
  - rewrite Hout. cbn [fst snd]. split; [|split; [done|]].
    + intros p Hin. cbn [crashes objects] in *.
      apply elem_of_app in Hin as [Hin|Hin].
      * destruct (Hw p Hin) as (name & Hfile & Hobj).
        exists name. split; [exact Hfile|]. apply lookup_insert_is_Some'. by right.
      * apply list_elem_of_singleton in Hin as ->.
        exists (crashFilename data). split; [apply stamp_file|].
        by rewrite lookup_insert_eq.
    + intros name Hobj. cbn [objects]. apply lookup_insert_is_Some'. by right.
Qed.

End CrashFacts.

Lemma crash_accepted_witness :
  exists p,
    crashes CrashSample.stored = [p] /\
    p !! "dump" = None /\
    p !! "file" = Some (AString "crash/95/67d1547e105470e4e53c1568f07a209e82a161") /\
    p !! "version" = Some (AString "2017.1").
Proof.
  destruct (crash_accepted CrashSample.decodeProps CrashSample.decodeBase64
              CrashSample.scan CrashSample.env CrashSample.empty CrashSample.request)
    as (props & dump & data & p & Hp & Hd & Hb & Hout & Hdump & Hfile & _ & _ & _ & _ &
        _ & _ & _ & Hother); [vm_compute; reflexivity|].
  assert (props = CrashSample.props) as ->.
  { change (Some CrashSample.props = Some props) in Hp. by injection Hp. }
  assert (dump = "ZHVtcA=="%string) as ->.
  { change (Some (AString "ZHVtcA==") = Some (AString dump)) in Hd. by injection Hd. }
  assert (data = "dump"%string) as ->.
  { change (Some "dump"%string = Some data) in Hb. by injection Hb. }
  exists p. unfold CrashSample.stored. rewrite Hout.
  split; [reflexivity|]. split; [exact Hdump|]. split.
  - rewrite Hfile. vm_compute. reflexivity.
  - rewrite Hother; [reflexivity|].
    unfold stamped. rewrite !not_elem_of_cons.
    repeat (split; [done|]). apply not_elem_of_nil.
Defined.

Lemma crash_records_filed_witness :
  filed CrashSample.stored /\
  filed (handleStoreCrash CrashSample.decodeProps CrashSample.decodeBase64
           CrashSample.scan CrashSample.putDown CrashSample.stored
           CrashSample.request).2.
Proof.
  assert (H : filed CrashSample.stored).
  { intros p Hin.
    change (p ∈ [stamp CrashSample.scan CrashSample.env CrashSample.request
                   (crashFilename "dump") (delete "dump" CrashSample.props)]) in Hin.
    apply list_elem_of_singleton in Hin as ->.
    exists (crashFilename "dump"). split; [apply stamp_file|].
    exists "dump"%string. vm_compute. reflexivity. }
  split; [exact H|].
  apply (crash_records_filed CrashSample.decodeProps CrashSample.decodeBase64
           CrashSample.scan CrashSample.putDown CrashSample.stored
           CrashSample.request H).
Defined.
